(** * SpectraLearnPredict2: the orchestration layer ([slp_io.py], [slp_pca.py])

    A shallow embedding of the glue code that sequences loading,
    preprocessing, the per-family model adapters and the summary / map
    outputs.  The code is Python: it mutates module-level configuration
    classes, appends to files, raises exceptions and stores into shared
    numpy arrays.  All of this is threaded explicitly through a state and
    exception monad; the external collaborators (loaders, preprocessors,
    model adapters, plotting) are oracles of a [World]. *)

From stdpp Require Import base list strings gmap sorting.
From Stdlib Require Import ZArith Lia.

Local Open Scope Z_scope.
Local Open Scope string_scope.
Local Open Scope list_scope.

(** ** Configuration registry ([slp_config]: one class per model family)

    Python reads and writes these as class attributes, [dnntfDef.runDNNTF]
    and the like.  An attribute [c.a] of class [c] is the field [c_a]. *)

Record PcaDef := mkPcaDef {
  pca_runPCA : bool;
  pca_customNumPCAComp : bool;
  pca_numPCAcomponents : Z }.

(** [dnntfDef.runKeras] is read by the map loop only and is set nowhere in
    the two files: whether the class has it is not known, so it is
    optional ([None]: reading it raises AttributeError). *)
Record DnntfDef := mkDnntfDef {
  dnntf_runDNNTF : bool;
  dnntf_runSkflowDNNTF : bool;
  dnntf_alwaysRetrain : bool;
  dnntf_alwaysImprove : bool;
  dnntf_plotMap : bool;
  dnntf_runKeras : option bool }.

Record NnDef := mkNnDef {
  nn_runNN : bool;
  nn_alwaysRetrain : bool;
  nn_plotMap : bool }.

Record SvmDef := mkSvmDef {
  svm_runSVM : bool;
  svm_alwaysRetrain : bool;
  svm_plotMap : bool }.

(** Batch mode assigns [tfDef.tfalwaysRetrain], map mode assigns
    [tfDef.alwaysRetrain]: two attributes. *)
Record TfDef := mkTfDef {
  tf_runTF : bool;
  tf_tfalwaysRetrain : bool;
  tf_alwaysRetrain : bool;
  tf_plotMap : bool }.

Record KerasDef := mkKerasDef {
  keras_runKeras : bool }.

Record KmDef := mkKmDef {
  km_runKM : bool;
  km_plotKM : bool;
  km_plotMap : bool }.

Record PlotDef := mkPlotDef {
  plot_createTrainingDataPlot : bool;
  plot_plotAllSpectra : bool;
  plot_showPCAPlots : bool }.

Record SysDef := mkSysDef {
  sys_multiProc : bool;
  sys_numCores : Z }.

Record Config := mkConfig {
  pcaDef : PcaDef;
  dnntfDef : DnntfDef;
  nnDef : NnDef;
  svmDef : SvmDef;
  tfDef : TfDef;
  kerasDef : KerasDef;
  kmDef : KmDef;
  plotDef : PlotDef;
  sysDef : SysDef }.

(** Attribute assignments, [cls.attr = b]. *)
Definition set_dnntf_alwaysRetrain (b : bool) (c : Config) : Config :=
  let d := dnntfDef c in
  mkConfig (pcaDef c)
    (mkDnntfDef (dnntf_runDNNTF d) (dnntf_runSkflowDNNTF d) b
       (dnntf_alwaysImprove d) (dnntf_plotMap d) (dnntf_runKeras d))
    (nnDef c) (svmDef c) (tfDef c) (kerasDef c) (kmDef c) (plotDef c) (sysDef c).

Definition set_dnntf_alwaysImprove (b : bool) (c : Config) : Config :=
  let d := dnntfDef c in
  mkConfig (pcaDef c)
    (mkDnntfDef (dnntf_runDNNTF d) (dnntf_runSkflowDNNTF d)
       (dnntf_alwaysRetrain d) b (dnntf_plotMap d) (dnntf_runKeras d))
    (nnDef c) (svmDef c) (tfDef c) (kerasDef c) (kmDef c) (plotDef c) (sysDef c).

Definition set_nn_alwaysRetrain (b : bool) (c : Config) : Config :=
  let d := nnDef c in
  mkConfig (pcaDef c) (dnntfDef c)
    (mkNnDef (nn_runNN d) b (nn_plotMap d))
    (svmDef c) (tfDef c) (kerasDef c) (kmDef c) (plotDef c) (sysDef c).

Definition set_svm_alwaysRetrain (b : bool) (c : Config) : Config :=
  let d := svmDef c in
  mkConfig (pcaDef c) (dnntfDef c) (nnDef c)
    (mkSvmDef (svm_runSVM d) b (svm_plotMap d))
    (tfDef c) (kerasDef c) (kmDef c) (plotDef c) (sysDef c).

Definition set_tf_tfalwaysRetrain (b : bool) (c : Config) : Config :=
  let d := tfDef c in
  mkConfig (pcaDef c) (dnntfDef c) (nnDef c) (svmDef c)
    (mkTfDef (tf_runTF d) b (tf_alwaysRetrain d) (tf_plotMap d))
    (kerasDef c) (kmDef c) (plotDef c) (sysDef c).

Definition set_tf_alwaysRetrain (b : bool) (c : Config) : Config :=
  let d := tfDef c in
  mkConfig (pcaDef c) (dnntfDef c) (nnDef c) (svmDef c)
    (mkTfDef (tf_runTF d) (tf_tfalwaysRetrain d) b (tf_plotMap d))
    (kerasDef c) (kmDef c) (plotDef c) (sysDef c).

Definition set_km_plotKM (b : bool) (c : Config) : Config :=
  let d := kmDef c in
  mkConfig (pcaDef c) (dnntfDef c) (nnDef c) (svmDef c) (tfDef c) (kerasDef c)
    (mkKmDef (km_runKM d) b (km_plotMap d))
    (plotDef c) (sysDef c).

(** ** Exceptions *)

Inductive exn : Set :=
| NameError (name : string)
| UnboundLocalError (name : string)
| AttributeError (cls attr : string)
| IndexError
| ValueError (what : string)
| Raised (fn : string).   (* an exception escaping an external collaborator *)

(** ** The six model families of the orchestrator *)

Inductive family : Set := DNNTF | Keras | NN | SVM | TF | KM.

Global Instance family_eq_dec : EqDecision family.
Proof. solve_decision. Defined.

Definition enabled (c : Config) (m : family) : bool :=
  match m with
  | DNNTF => dnntf_runDNNTF (dnntfDef c)
  | Keras => keras_runKeras (kerasDef c)
  | NN => nn_runNN (nnDef c)
  | SVM => svm_runSVM (svmDef c)
  | TF => tf_runTF (tfDef c)
  | KM => km_runKM (kmDef c)
  end.

Section Model.

(** [obj]: the Python objects the orchestrator only passes around (feature
    matrices, energy axes, model handles, label encoders, predictions).
    [label]: one class label of the training set.  [ext]: the hidden state
    of the collaborators (saved models, sessions, figures, the clock). *)
Context {obj label ext : Type}.
Context `{EqDecision label}.
Context (label_le : relation label) `{!∀ x y, Decision (label_le x y)}.

(** *** Values that cross a call boundary *)

Inductive arg :=
| AObj (o : obj)
| ACl (Cl : list label)
| AList (xs : list obj)
| AStr (s : string)
| AInt (n : Z)
| ABool (b : bool).

Inductive event :=
| Call (fn : string) (args : list arg)
| Print (line : list arg).

(** One field of a CSV row. *)
Inductive cell :=
| CStr (s : string)
| CObj (o : obj).

(** What [sklearn.decomposition.PCA(...).fit(A)] and [.transform(A)] expose. *)
Record PCAres := mkPCAres {
  components_ : list obj;
  explained_variance_ratio_ : list obj;
  A_r : obj }.

(** *** The collaborators

    An external function is called with its positional arguments; it sees
    the configuration classes and its own hidden state, returns a result
    of the shape the call site unpacks, or raises ([None]).  It does not
    write the configuration classes, the summary files or the
    orchestrator's arrays, and it leaves the objects it is passed as they
    are (sklearn's PCA copies its input by default). *)
Definition Ext (A : Type) : Type := Config → ext → option A * ext.

Record World := mkWorld {
  (* [readLearnFile], [preProcessNormLearningData]: 4-tuples *)
  w_learn : string → list arg → Ext (obj * list label * obj * obj);
  (* [readPredMap]: X, Y, R, Rx *)
  w_map : string → list arg → Ext (list obj * list obj * list obj * obj);
  (* [readPredFile], [preProcessNormPredData], [train*], [pred*]: pairs *)
  w_pair : string → list arg → Ext (obj * obj);
  (* [runKMmain]: one value *)
  w_one : string → list arg → Ext obj;
  (* [trainTF], [plotTrainData], [plotMaps], [saveMap], pyplot: no value used *)
  w_unit : string → list arg → Ext unit;
  (* sklearn's PCA: [n_components], the matrix *)
  w_pca : Z → obj → Ext PCAres;
  (* [os.path.splitext(p)[0]] *)
  w_splitext_root : string → string;
  (* [datetime.now().strftime('_%Y-%m-%d_%H-%M-%S.csv')] *)
  w_now : ext → string;
  (* what an array from [np.empty] happens to hold at each index *)
  w_uninit : nat → obj;
  (* [o[i]] on an object that is not one of the orchestrator's arrays *)
  w_getitem : obj → nat → option obj }.

(** *** Module namespace of [slp_io]

    The functions use names they never bind themselves ([model_keras] and
    [tfAccur] in batch mode; [cl_dnntf], [dnntfPred], [kerasPred] and
    [dnnDef] in map mode).  Python resolves them in the module's globals,
    which the star imports fill from modules that are not part of the
    two files: each is bound or not ([None]: NameError). *)
Record Globals := mkGlobals {
  g_model_keras : option obj;
  g_tfAccur : option obj;
  g_cl_dnntf : option obj;
  g_dnntfPred : option nat;          (* an array, by heap address *)
  g_kerasPred : option nat;
  g_dnnDef : option (option bool) }. (* bound; its [alwaysRetrain], if set *)

Definition set_g_dnnDef (v : option (option bool)) (g : Globals) : Globals :=
  mkGlobals (g_model_keras g) (g_tfAccur g) (g_cl_dnntf g)
            (g_dnntfPred g) (g_kerasPred g) v.

(** The arguments of one [processSingleBatch] call. *)
Record Task := mkTask {
  t_f : string;
  t_En : obj;
  t_Cl : list label;
  t_A : obj;
  t_Aorig : obj;
  t_YnormXind : obj;
  t_summary_filename : string;
  t_learnFile : string }.

(** *** Process state *)

Record State := mkState {
  st_cfg : Config;                        (* the configuration classes *)
  st_globals : Globals;
  st_world : ext;
  st_heap : list (list obj);              (* numpy arrays, by address *)
  st_files : gmap string (list (list cell));  (* CSV files: rows so far *)
  st_cwd : list string;                   (* names in the working directory *)
  st_pool : list Task;                       (* tasks handed to the worker pool *)
  st_trace : list event }.                (* calls made and lines printed *)

Definition upd_cfg (f : Config → Config) (s : State) : State :=
  mkState (f (st_cfg s)) (st_globals s) (st_world s) (st_heap s)
          (st_files s) (st_cwd s) (st_pool s) (st_trace s).
Definition upd_globals (f : Globals → Globals) (s : State) : State :=
  mkState (st_cfg s) (f (st_globals s)) (st_world s) (st_heap s)
          (st_files s) (st_cwd s) (st_pool s) (st_trace s).
Definition upd_world (w : ext) (s : State) : State :=
  mkState (st_cfg s) (st_globals s) w (st_heap s)
          (st_files s) (st_cwd s) (st_pool s) (st_trace s).
Definition upd_heap (h : list (list obj)) (s : State) : State :=
  mkState (st_cfg s) (st_globals s) (st_world s) h
          (st_files s) (st_cwd s) (st_pool s) (st_trace s).
Definition upd_files (fs : gmap string (list (list cell))) (s : State) : State :=
  mkState (st_cfg s) (st_globals s) (st_world s) (st_heap s)
          fs (st_cwd s) (st_pool s) (st_trace s).
Definition upd_pool (p : list Task) (s : State) : State :=
  mkState (st_cfg s) (st_globals s) (st_world s) (st_heap s)
          (st_files s) (st_cwd s) p (st_trace s).
Definition log (e : event) (s : State) : State :=
  mkState (st_cfg s) (st_globals s) (st_world s) (st_heap s)
          (st_files s) (st_cwd s) (st_pool s) (st_trace s ++ [e]).

(** *** The monad: a computation ends normally or raises; the state
    reached is kept either way. *)
Definition M (A : Type) : Type := State → (exn + A) * State.

Global Instance M_ret : MRet M := λ A a s, (inr a, s).
Global Instance M_bind : MBind M := λ A B k m s,
  match m s with
  | (inr a, s') => k a s'
  | (inl e, s') => (inl e, s')
  end.
Global Instance M_fmap : FMap M := λ A B f m, a ← m; mret (f a).
Definition raise {A} (e : exn) : M A := λ s, (inl e, s).

Definition get_cfg : M Config := λ s, (inr (st_cfg s), s).
Definition set_cfg (f : Config → Config) : M unit := λ s, (inr (), upd_cfg f s).
Definition get_globals : M Globals := λ s, (inr (st_globals s), s).
Definition print (line : list arg) : M unit := λ s, (inr (), log (Print line) s).

(** A name looked up in the module's globals. *)
Definition global {A} (name : string) (proj : Globals → option A) : M A :=
  g ← get_globals;
  match proj g with
  | Some v => mret v
  | None => raise (NameError name)
  end.

(** A local name that an earlier branch may not have bound. *)
Definition local {A} (name : string) (v : option A) : M A :=
  match v with
  | Some a => mret a
  | None => raise (UnboundLocalError name)
  end.

(** [l[i]] on a Python sequence held by the orchestrator, [0 <= i]. *)
Definition item {A} (l : list A) (i : nat) : M A :=
  match l !! i with
  | Some a => mret a
  | None => raise IndexError
  end.

(** A call of a collaborator: logged, then answered by the world. *)
Definition extcall {A} (fn : string) (args : list arg) (f : Ext A) : M A :=
  λ s, let '(r, w') := f (st_cfg s) (st_world s) in
       let s' := log (Call fn args) (upd_world w' s) in
       match r with
       | Some a => (inr a, s')
       | None => (inl (Raised fn), s')
       end.

Context (W : World).

Definition call_learn (fn : string) (args : list arg) := extcall fn args (w_learn W fn args).
Definition call_pair (fn : string) (args : list arg) := extcall fn args (w_pair W fn args).
Definition call_one (fn : string) (args : list arg) := extcall fn args (w_one W fn args).
Definition call_proc (fn : string) (args : list arg) := extcall fn args (w_unit W fn args).

(** [with open(name, "a") as f: csv.writer(f).writerow(row)] *)
Definition append_row (name : string) (row : list cell) : M unit :=
  λ s, (inr (), upd_files (<[name := default [] (st_files s !! name) ++ [row]]> (st_files s)) s).

(** ** [slp_pca.py] *)

(** [np.unique(ar)]: sort, then keep each element that differs from its
    predecessor. *)
Fixpoint mask_changes (prev : label) (ar : list label) : list label :=
  match ar with
  | [] => []
  | x :: t => if decide (x = prev) then mask_changes x t else x :: mask_changes x t
  end.

Definition np_unique (Cl : list label) : list label :=
  match merge_sort label_le Cl with
  | [] => []
  | x :: t => x :: mask_changes x t
  end.

(** Lines 50-53 of [runPCA]. *)
Definition numPCAcomp (c : Config) (Cl : list label) (numPCAcomponents : Z) : Z :=
  if negb (pca_customNumPCAComp (pcaDef c))
  then Z.of_nat (length (np_unique Cl))
  else numPCAcomponents.

(** [for i in range(0, pca.components_.shape[0]): print(... ratio_[i] ...)] *)
Fixpoint print_scores (evr : list obj) (idx : list nat) : M unit :=
  match idx with
  | [] => mret ()
  | i :: idx' =>
      v ← item evr i;
      print [AStr " Score PC "; AInt (Z.of_nat i); AStr ": "; AObj v] ;;
      print_scores evr idx'
  end.

(** [runPCA].  The pyplot section (lines 62-119) is one step, the call
    ["pyplot"]: it returns nothing to the caller either, and whatever
    goes wrong in it, in pyplot or in the section's own index arithmetic,
    is the failure of that step.  The index arithmetic of the score
    plots (lines 80-94) is modelled by itself further down. *)
Definition runPCA (En : obj) (Cl : list label) (A YnormXind : obj)
    (numPCAcomponents : Z) : M unit :=
  print [AStr "=========================================================================="] ;;
  print [AStr " Running PCA..."] ;;
  print [AStr " Number of unique identifiers in training data: ";
         AInt (Z.of_nat (length (np_unique Cl)))] ;;
  c ← get_cfg;
  let n := numPCAcomp c Cl numPCAcomponents in
  print [AStr " Number of Principal components: "; AInt n] ;;
  pca ← extcall "PCA" [AInt n; AObj A] (w_pca W n A);
  print_scores (explained_variance_ratio_ pca) (seq 0 (length (components_ pca))) ;;
  print [AStr ""] ;;
  c ← get_cfg;
  if plot_showPCAPlots (plotDef c)
  then call_proc "pyplot" [AObj En; ACl Cl; AList (components_ pca);
                      AList (explained_variance_ratio_ pca); AObj (A_r pca)]
  else mret ().

(** ** [slp_io.py]: single-file mode *)

Definition LearnPredictFile (learnFile sampleFile : string) : M unit :=
  '(En, Cl, A, YnormXind) ← call_learn "readLearnFile" [AStr learnFile];
  let learnFileRoot := w_splitext_root W learnFile in
  c ← get_cfg;
  (if pca_runPCA (pcaDef c)
   then runPCA En Cl A YnormXind (pca_numPCAcomponents (pcaDef c))
   else mret ()) ;;
  '(R, Rx) ← call_pair "readPredFile" [AStr sampleFile];
  '(A, Cl, En, Aorig) ← call_learn "preProcessNormLearningData"
                          [AObj A; AObj En; ACl Cl; AObj YnormXind; AInt 0];
  '(R, Rorig) ← call_pair "preProcessNormPredData"
                  [AObj R; AObj Rx; AObj En; AObj YnormXind; AInt 0];
  c ← get_cfg;
  (if dnntf_runDNNTF (dnntfDef c) then
     set_cfg (set_dnntf_alwaysImprove false) ;;
     c ← get_cfg;
     if negb (dnntf_runSkflowDNNTF (dnntfDef c)) then
       '(clf_dnntf, le_dnntf) ← call_pair "trainDNNTF"
            [AObj A; ACl Cl; AObj A; ACl Cl; AStr learnFileRoot];
       call_pair "predDNNTF" [AObj clf_dnntf; AObj le_dnntf; AObj R; ACl Cl] ;;
       mret ()
     else
       '(clf_dnntf, le_dnntf) ← call_pair "trainDNNTF2"
            [AObj A; ACl Cl; AObj A; ACl Cl; AStr learnFileRoot];
       call_pair "predDNNTF2" [AObj clf_dnntf; AObj le_dnntf; AObj R; ACl Cl] ;;
       mret ()
   else mret ()) ;;
  c ← get_cfg;
  (if nn_runNN (nnDef c) then
     '(clf_nn, le_nn) ← call_pair "trainNN"
          [AObj A; ACl Cl; AObj A; ACl Cl; AStr learnFileRoot];
     call_pair "predNN" [AObj clf_nn; AObj A; ACl Cl; AObj R; AObj le_nn] ;;
     mret ()
   else mret ()) ;;
  c ← get_cfg;
  (if svm_runSVM (svmDef c) then
     '(clf_svm, le_svm) ← call_pair "trainSVM"
          [AObj A; ACl Cl; AObj A; ACl Cl; AStr learnFileRoot];
     call_pair "predSVM" [AObj clf_svm; AObj A; ACl Cl; AObj R; AObj le_svm] ;;
     mret ()
   else mret ()) ;;
  c ← get_cfg;
  (if tf_runTF (tfDef c) then
     call_proc "trainTF" [AObj A; ACl Cl; AObj A; ACl Cl; AStr learnFileRoot] ;;
     call_pair "predTF" [AObj A; ACl Cl; AObj R; AStr learnFileRoot] ;;
     mret ()
   else mret ()) ;;
  c ← get_cfg;
  (if keras_runKeras (kerasDef c) then
     '(model_keras, le_keras) ← call_pair "trainKeras"
          [AObj En; AObj A; ACl Cl; AObj A; ACl Cl; AStr learnFileRoot];
     call_pair "predKeras" [AObj model_keras; AObj le_keras; AObj R; ACl Cl] ;;
     mret ()
   else mret ()) ;;
  c ← get_cfg;
  (if plot_createTrainingDataPlot (plotDef c) then
     call_proc "plotTrainData" [AObj A; AObj En; AObj R;
                           ABool (plot_plotAllSpectra (plotDef c));
                           AStr learnFileRoot]
   else mret ()) ;;
  c ← get_cfg;
  if km_runKM (kmDef c) then
    call_one "runKMmain" [AObj A; ACl Cl; AObj En; AObj R; AObj Aorig; AObj Rorig] ;;
    mret ()
  else mret ().

(** ** Batch mode *)

(** The per-family sections of [processSingleBatch], lines 183-225.  Each
    takes [summaryFile], the row assembled so far, and returns it extended. *)
Definition batch_dnntf (A : obj) (Cl : list label) (R : obj) (learnFileRoot : string)
    (summaryFile : list cell) : M (list cell) :=
  c ← get_cfg;
  if dnntf_runDNNTF (dnntfDef c) then
    c ← get_cfg;
    '(dnntfPred, dnntfProb) ←
      (if negb (dnntf_runSkflowDNNTF (dnntfDef c)) then
         '(clf_dnntf, le_dnntf) ← call_pair "trainDNNTF"
              [AObj A; ACl Cl; AObj A; ACl Cl; AStr learnFileRoot];
         call_pair "predDNNTF" [AObj clf_dnntf; AObj le_dnntf; AObj R; ACl Cl]
       else
         '(clf_dnntf, le_dnntf) ← call_pair "trainDNNTF2"
              [AObj A; ACl Cl; AObj A; ACl Cl; AStr learnFileRoot];
         call_pair "predDNNTF2" [AObj clf_dnntf; AObj le_dnntf; AObj R; ACl Cl]);
    let summaryFile := summaryFile ++ [CObj dnntfPred; CObj dnntfProb] in
    set_cfg (set_dnntf_alwaysRetrain false) ;;
    mret summaryFile
  else mret summaryFile.

(** Line 196 binds [model]; line 197 reads [model_keras], a name the
    function never binds. *)
Definition batch_keras (En A : obj) (Cl : list label) (R : obj) (learnFileRoot : string)
    (summaryFile : list cell) : M (list cell) :=
  c ← get_cfg;
  if keras_runKeras (kerasDef c) then
    '(model, le_keras) ← call_pair "trainKeras"
         [AObj En; AObj A; ACl Cl; AObj A; ACl Cl; AStr learnFileRoot];
    model_keras ← global "model_keras" g_model_keras;
    '(kerasPred, kerasProb) ← call_pair "predKeras"
         [AObj model_keras; AObj le_keras; AObj R; ACl Cl];
    mret (summaryFile ++ [CObj kerasPred; CObj kerasProb])
  else mret summaryFile.

Definition batch_nn (A : obj) (Cl : list label) (R : obj) (learnFileRoot : string)
    (summaryFile : list cell) : M (list cell) :=
  c ← get_cfg;
  if nn_runNN (nnDef c) then
    '(clf_nn, le_nn) ← call_pair "trainNN"
         [AObj A; ACl Cl; AObj A; ACl Cl; AStr learnFileRoot];
    '(nnPred, nnProb) ← call_pair "predNN"
         [AObj clf_nn; AObj A; ACl Cl; AObj R; AObj le_nn];
    let summaryFile := summaryFile ++ [CObj nnPred; CObj nnProb] in
    set_cfg (set_nn_alwaysRetrain false) ;;
    mret summaryFile
  else mret summaryFile.

Definition batch_svm (En A : obj) (Cl : list label) (R : obj) (learnFileRoot : string)
    (summaryFile : list cell) : M (list cell) :=
  c ← get_cfg;
  if svm_runSVM (svmDef c) then
    '(clf_svm, le_svm) ← call_pair "trainSVM"
         [AObj A; ACl Cl; AObj A; ACl Cl; AStr learnFileRoot];
    '(svmPred, svmProb) ← call_pair "predSVM"
         [AObj clf_svm; AObj A; ACl Cl; AObj En; AObj R; AObj le_svm];
    let summaryFile := summaryFile ++ [CObj svmPred; CObj svmProb] in
    set_cfg (set_svm_alwaysRetrain false) ;;
    mret summaryFile
  else mret summaryFile.

(** Line 218 reads [tfAccur], a name the function never binds. *)
Definition batch_tf (A : obj) (Cl : list label) (R : obj) (learnFileRoot : string)
    (summaryFile : list cell) : M (list cell) :=
  c ← get_cfg;
  if tf_runTF (tfDef c) then
    call_proc "trainTF" [AObj A; ACl Cl; AObj A; ACl Cl; AStr learnFileRoot] ;;
    '(tfPred, tfProb) ← call_pair "predTF" [AObj A; ACl Cl; AObj R; AStr learnFileRoot];
    tfAccur ← global "tfAccur" g_tfAccur;
    let summaryFile := summaryFile ++ [CObj tfPred; CObj tfProb; CObj tfAccur] in
    set_cfg (set_tf_tfalwaysRetrain false) ;;
    mret summaryFile
  else mret summaryFile.

Definition batch_km (En A : obj) (Cl : list label) (R Aorig Rorig : obj)
    (summaryFile : list cell) : M (list cell) :=
  c ← get_cfg;
  if km_runKM (kmDef c) then
    set_cfg (set_km_plotKM false) ;;
    kmPred ← call_one "runKMmain"
         [AObj A; ACl Cl; AObj En; AObj R; AObj Aorig; AObj Rorig];
    mret (summaryFile ++ [CObj kmPred])
  else mret summaryFile.

(** One file of the batch, lines 174-230.  The row reaches the summary
    file only in the last statement. *)
Definition processSingleBatch (f : string) (En : obj) (Cl : list label)
    (A Aorig YnormXind : obj) (summary_filename learnFile : string) : M unit :=
  print [AStr " Processing file: "; AStr f] ;;
  '(R, Rx) ← call_pair "readPredFile" [AStr f];
  let summaryFile := [CStr f] in
  '(R, Rorig) ← call_pair "preProcessNormPredData"
                  [AObj R; AObj Rx; AObj En; AObj YnormXind; AInt 0];
  let learnFileRoot := w_splitext_root W learnFile in
  summaryFile ← batch_dnntf A Cl R learnFileRoot summaryFile;
  summaryFile ← batch_keras En A Cl R learnFileRoot summaryFile;
  summaryFile ← batch_nn A Cl R learnFileRoot summaryFile;
  summaryFile ← batch_svm En A Cl R learnFileRoot summaryFile;
  summaryFile ← batch_tf A Cl R learnFileRoot summaryFile;
  summaryFile ← batch_km En A Cl R Aorig Rorig summaryFile;
  append_row summary_filename summaryFile.

Definition run_task (t : Task) : M unit :=
  processSingleBatch (t_f t) (t_En t) (t_Cl t) (t_A t) (t_Aorig t)
    (t_YnormXind t) (t_summary_filename t) (t_learnFile t).

(** [glob.glob('*.txt')] over the working directory: the names that end
    in [.txt] and do not start with a dot, in listing order. *)
Definition ends_with_txt (f : string) : bool :=
  let n := String.length f in
  (4 <=? n)%nat && String.eqb (String.substring (n - 4) 4 f) ".txt".

Definition glob_match (f : string) : bool :=
  negb (String.prefix "." f) && ends_with_txt f.

Definition glob_txt : M (list string) :=
  λ s, (inr (filter (λ f, glob_match f = true) (st_cwd s)), s).

(** [for x in l: body(x)] *)
Fixpoint for_each {A} (l : list A) (body : A → M unit) : M unit :=
  match l with
  | [] => mret ()
  | x :: l' => body x ;; for_each l' body
  end.

(** Modelled from the spec: [makeHeaderSummary] is imported from a module
    that is not part of the two files.  Per the spec it writes the summary
    file's header row, which names the training file. *)
Definition header_row (learnFile : string) : list cell := [CStr learnFile].

Definition makeHeaderSummary (summary_filename learnFile : string) : M unit :=
  append_row summary_filename (header_row learnFile).

(** [p = mp.Pool(n)]: refuses [n < 1]; a new pool has nothing queued. *)
Definition mp_Pool (n : Z) : M unit :=
  if (n <? 1)%Z then raise (ValueError "Number of processes must be at least 1")
  else λ s, (inr (), upd_pool [] s).

(** [p.apply_async(processSingleBatch, args=...)]: the task is queued; the
    parent does not wait for it and never asks for its result. *)
Definition apply_async (t : Task) : M unit :=
  λ s, (inr (), upd_pool (st_pool s ++ [t]) s).

(** Lines 154-172: what the calling process does.  With [multiProc] the
    queued tasks run in the workers ([pool_join] below). *)
Definition LearnPredictBatch (learnFile : string) : M unit :=
  now ← (λ s, (inr (w_now W (st_world s)), s)) : M string;
  let summary_filename := "summary" +:+ now in
  makeHeaderSummary summary_filename learnFile ;;
  '(En, Cl, A, YnormXind) ← call_learn "readLearnFile" [AStr learnFile];
  '(A, Cl, En, Aorig) ← call_learn "preProcessNormLearningData"
                          [AObj A; AObj En; ACl Cl; AObj YnormXind; AInt 0];
  c ← get_cfg;
  if sys_multiProc (sysDef c) then
    c ← get_cfg;
    mp_Pool (sys_numCores (sysDef c)) ;;
    names ← glob_txt;
    for_each names (λ f,
      if bool_decide (f ≠ learnFile)
      then apply_async (mkTask f En Cl A Aorig YnormXind summary_filename learnFile)
      else mret ())
  else
    names ← glob_txt;
    for_each names (λ f,
      if bool_decide (f ≠ learnFile)
      then processSingleBatch f En Cl A Aorig YnormXind summary_filename learnFile
      else mret ()).

(** [p.close(); p.join()]: the parent waits until every queued task has
    run.  A task is [processSingleBatch] in a worker process: the worker
    has its own copy of the module state (configuration classes, globals,
    collaborators), whatever it holds when the task starts; only the files
    are shared, and the task touches them in its one appended row.  Tasks
    finish in any order. *)
Definition task_step (t : Task) (fs fs' : gmap string (list (list cell))) : Prop :=
  ∃ s : State, st_files s = fs ∧ st_files (run_task t s).2 = fs'.

Inductive pool_join :
  list Task → gmap string (list (list cell)) → gmap string (list (list cell)) → Prop :=
| pool_join_done fs : pool_join [] fs fs
| pool_join_step ts1 t ts2 fs fs' fs'' :
    task_step t fs fs' →
    pool_join (ts1 ++ ts2) fs' fs'' →
    pool_join (ts1 ++ t :: ts2) fs fs''.

(** The files a batch run can leave behind. *)
Definition batch_files (learnFile : string) (s : State)
    (fs : gmap string (list (list cell))) : Prop :=
  match LearnPredictBatch learnFile s with
  | (inr _, s') =>
      if sys_multiProc (sysDef (st_cfg s))
      then pool_join (st_pool s') (st_files s') fs
      else fs = st_files s'
  | (inl _, s') => fs = st_files s'
  end.

(** ** Map mode *)

(** What a local name of [LearnPredictMap] can be bound to: one of the
    numpy arrays (by address) or some other object. *)
Inductive pyval :=
| Ref (a : nat)
| Val (o : obj).

(** [np.empty([n])]: a new array of [n] cells with arbitrary contents. *)
Definition np_empty (n : nat) : M nat :=
  λ s, (inr (length (st_heap s)),
        upd_heap (st_heap s ++ [map (w_uninit W) (seq 0 n)]) s).

(** [a[i] = v] on an array. *)
Definition setitem (a i : nat) (v : obj) : M unit :=
  λ s, match st_heap s !! a with
       | Some arr =>
           if decide (i < length arr)%nat
           then (inr (), upd_heap (<[a := <[i := v]> arr]> (st_heap s)) s)
           else (inl IndexError, s)
       | None => (inl (Raised "__setitem__"), s)
       end.

(** [p[i]] *)
Definition getitem (p : pyval) (i : nat) : M obj :=
  λ s, match p with
       | Ref a =>
           match st_heap s !! a with
           | Some arr =>
               match arr !! i with
               | Some v => (inr v, s)
               | None => (inl IndexError, s)
               end
           | None => (inl (Raised "__getitem__"), s)
           end
       | Val o =>
           match w_getitem W o i with
           | Some v => (inr v, s)
           | None => (inl (Raised "__getitem__"), s)
           end
       end.

(** The object a name denotes, as a call argument. *)
Definition as_arg (p : pyval) : M arg :=
  λ s, match p with
       | Ref a => (inr (AList (default [] (st_heap s !! a))), s)
       | Val o => (inr (AObj o), s)
       end.

(** An attribute the class may lack. *)
Definition attr {A} (cls name : string) (v : option A) : M A :=
  match v with
  | Some a => mret a
  | None => raise (AttributeError cls name)
  end.

(** [dnnDef.alwaysRetrain = b] *)
Definition set_dnnDef_alwaysRetrain (b : bool) : M unit :=
  _ ← global "dnnDef" g_dnnDef;
  ((λ s, (inr (), upd_globals (set_g_dnnDef (Some (Some b))) s)) : M unit).

(** The names bound before the loop and never rebound in it.  [m_svmPred],
    [m_nnPred] and [m_kmPred] are the addresses the three names hold. *)
Record MapEnv := mkMapEnv {
  m_mapFile : string;
  m_learnFileRoot : string;
  m_En : obj;
  m_Cl : list label;
  m_A : obj;
  m_Aorig : obj;
  m_YnormXind : obj;
  m_X : list obj;
  m_Y : list obj;
  m_R : list obj;
  m_Rx : obj;
  m_svmPred : nat;
  m_nnPred : nat;
  m_kmPred : nat;
  m_nn : option (obj * obj);      (* clf_nn, le_nn *)
  m_dnntf : option (obj * obj);   (* clf_dnntf, le_dnntf *)
  m_keras : option (obj * obj);   (* model_keras, le_keras *)
  m_svm : option (obj * obj) }.   (* clf_svm, le_svm *)

(** The names the loop rebinds. *)
Record MapVars := mkMapVars {
  v_type : Z;
  v_i : nat;
  v_tfPred : pyval }.

(** The trainings before the loop, lines 249-262. *)
Definition train_nn (A : obj) (Cl : list label) (learnFileRoot : string)
    : M (option (obj * obj)) :=
  c ← get_cfg;
  if nn_runNN (nnDef c)
  then Some <$> call_pair "trainNN" [AObj A; ACl Cl; AObj A; ACl Cl; AStr learnFileRoot]
  else mret None.

Definition train_dnntf (A : obj) (Cl : list label) (learnFileRoot : string)
    : M (option (obj * obj)) :=
  c ← get_cfg;
  if dnntf_runDNNTF (dnntfDef c) then
    c ← get_cfg;
    if negb (dnntf_runSkflowDNNTF (dnntfDef c))
    then Some <$> call_pair "trainDNNTF" [AObj A; ACl Cl; AObj A; ACl Cl; AStr learnFileRoot]
    else Some <$> call_pair "trainDNNTF2" [AObj A; ACl Cl; AObj A; ACl Cl; AStr learnFileRoot]
  else mret None.

Definition train_keras (En A : obj) (Cl : list label) (learnFileRoot : string)
    : M (option (obj * obj)) :=
  c ← get_cfg;
  if keras_runKeras (kerasDef c)
  then Some <$> call_pair "trainKeras"
         [AObj En; AObj A; ACl Cl; AObj A; ACl Cl; AStr learnFileRoot]
  else mret None.

Definition train_svm (A : obj) (Cl : list label) (learnFileRoot : string)
    : M (option (obj * obj)) :=
  c ← get_cfg;
  if svm_runSVM (svmDef c)
  then Some <$> call_pair "trainSVM" [AObj A; ACl Cl; AObj A; ACl Cl; AStr learnFileRoot]
  else mret None.

(** Lines 236-262.  Line 245 binds the four names to one new array. *)
Definition map_setup (learnFile mapFile : string) : M (MapEnv * MapVars) :=
  '(En, Cl, A, YnormXind) ← call_learn "readLearnFile" [AStr learnFile];
  let learnFileRoot := w_splitext_root W learnFile in
  '(X, Y, R, Rx) ← extcall "readPredMap" [AStr mapFile]
                     (w_map W "readPredMap" [AStr mapFile]);
  let type := 0 in
  let i := 0%nat in
  a ← np_empty (length X);
  let svmPred := a in
  let nnPred := a in
  let tfPred := Ref a in
  let kmPred := a in
  '(A, Cl, En, Aorig) ← call_learn "preProcessNormLearningData"
                          [AObj A; AObj En; ACl Cl; AObj YnormXind; AInt type];
  print [AStr " Processing map..."] ;;
  nn ← train_nn A Cl learnFileRoot;
  dnntf ← train_dnntf A Cl learnFileRoot;
  keras ← train_keras En A Cl learnFileRoot;
  svm ← train_svm A Cl learnFileRoot;
  mret (mkMapEnv mapFile learnFileRoot En Cl A Aorig YnormXind X Y R Rx
          svmPred nnPred kmPred nn dnntf keras svm,
        mkMapVars type i tfPred).

(** [saveMap(mapFile, name, 'HC', pred[i], X[i], Y[i], True)] *)
Definition saveMap (e : MapEnv) (name : string) (pred : pyval) (i : nat) : M unit :=
  p ← getitem pred i;
  x ← item (m_X e) i;
  y ← item (m_Y e) i;
  call_proc "saveMap" [AStr (m_mapFile e); AStr name; AStr "HC";
                  AObj p; AObj x; AObj y; ABool true].

(** The per-family sections of the loop body, lines 268-305; [i] is the
    pixel counter and [r] the preprocessed spectrum. *)

(** Lines 269-276 read [cl_dnntf], [dnntfPred] and [dnnDef], names the
    function never binds (the training bound [clf_dnntf]). *)
Definition pixel_dnntf (e : MapEnv) (i : nat) (r : obj) : M unit :=
  c ← get_cfg;
  if dnntf_runDNNTF (dnntfDef c) then
    c ← get_cfg;
    '(p, temp) ←
      (if negb (dnntf_runSkflowDNNTF (dnntfDef c)) then
         cl_dnntf ← global "cl_dnntf" g_cl_dnntf;
         le_dnntf ← local "le_dnntf" (snd <$> m_dnntf e);
         call_pair "predDNNTF" [AObj cl_dnntf; AObj le_dnntf; AObj r; ACl (m_Cl e)]
       else
         cl_dnntf ← global "cl_dnntf" g_cl_dnntf;
         le_dnntf ← local "le_dnntf" (snd <$> m_dnntf e);
         call_pair "predDNNTF2" [AObj cl_dnntf; AObj le_dnntf; AObj r; ACl (m_Cl e)]);
    dnntfPred ← global "dnntfPred" g_dnntfPred;
    setitem dnntfPred i p ;;
    dnntfPred ← global "dnntfPred" g_dnntfPred;
    saveMap e "DNN-TF" (Ref dnntfPred) i ;;
    set_dnnDef_alwaysRetrain false
  else mret ().

(** Line 278 tests [dnntfDef.runKeras], not [kerasDef.runKeras]. *)
Definition pixel_keras (e : MapEnv) (i : nat) (r : obj) : M unit :=
  c ← get_cfg;
  runKeras ← attr "dnntfDef" "runKeras" (dnntf_runKeras (dnntfDef c));
  if runKeras : bool then
    model_keras ← local "model_keras" (fst <$> m_keras e);
    le_keras ← local "le_keras" (snd <$> m_keras e);
    '(p, temp) ← call_pair "predKeras"
                   [AObj model_keras; AObj le_keras; AObj r; ACl (m_Cl e)];
    kerasPred ← global "kerasPred" g_kerasPred;
    setitem kerasPred i p ;;
    kerasPred ← global "kerasPred" g_kerasPred;
    saveMap e "Keras" (Ref kerasPred) i
  else mret ().

Definition pixel_nn (e : MapEnv) (i : nat) (r : obj) : M unit :=
  c ← get_cfg;
  if nn_runNN (nnDef c) then
    clf_nn ← local "clf_nn" (fst <$> m_nn e);
    le_nn ← local "le_nn" (snd <$> m_nn e);
    '(p, temp) ← call_pair "predNN"
                   [AObj clf_nn; AObj (m_A e); ACl (m_Cl e); AObj r; AObj le_nn];
    setitem (m_nnPred e) i p ;;
    saveMap e "NN" (Ref (m_nnPred e)) i ;;
    set_cfg (set_nn_alwaysRetrain false)
  else mret ().

Definition pixel_svm (e : MapEnv) (i : nat) (r : obj) : M unit :=
  c ← get_cfg;
  if svm_runSVM (svmDef c) then
    clf_svm ← local "clf_svm" (fst <$> m_svm e);
    le_svm ← local "le_svm" (snd <$> m_svm e);
    '(p, temp) ← call_pair "predSVM"
                   [AObj clf_svm; AObj (m_A e); ACl (m_Cl e); AObj (m_En e);
                    AObj r; AObj le_svm];
    setitem (m_svmPred e) i p ;;
    saveMap e "svm" (Ref (m_svmPred e)) i ;;
    set_cfg (set_svm_alwaysRetrain false)
  else mret ().

(** Lines 295-299: trains inside the loop, and line 297 rebinds the name
    [tfPred] to what [predTF] returns.  The result is the new binding. *)
Definition pixel_tf (e : MapEnv) (tfPred : pyval) (i : nat) (r : obj) : M pyval :=
  c ← get_cfg;
  if tf_runTF (tfDef c) then
    call_proc "trainTF" [AObj (m_A e); ACl (m_Cl e); AObj (m_A e); ACl (m_Cl e);
                    AStr (m_learnFileRoot e)] ;;
    '(tfPred, temp) ← call_pair "predTF"
                        [AObj (m_A e); ACl (m_Cl e); AObj r; AStr (m_learnFileRoot e)];
    saveMap e "TF" (Val tfPred) i ;;
    set_cfg (set_tf_alwaysRetrain false) ;;
    mret (Val tfPred)
  else mret tfPred.

Definition pixel_km (e : MapEnv) (i : nat) (r rorig : obj) : M unit :=
  c ← get_cfg;
  if km_runKM (kmDef c) then
    set_cfg (set_km_plotKM false) ;;
    p ← call_one "runKMmain" [AObj (m_A e); ACl (m_Cl e); AObj (m_En e); AObj r;
                         AObj (m_Aorig e); AObj rorig];
    setitem (m_kmPred e) i p ;;
    saveMap e "KM" (Ref (m_kmPred e)) i
  else mret ().

(** One turn of [for r in R[:]], lines 265-306. *)
Definition map_pixel (e : MapEnv) (v : MapVars) (r : obj) : M MapVars :=
  let i := v_i v in
  '(r, rorig) ← call_pair "preProcessNormPredData"
                  [AObj r; AObj (m_Rx e); AObj (m_En e); AObj (m_YnormXind e);
                   AInt (v_type v)];
  let type := 1 in
  pixel_dnntf e i r ;;
  pixel_keras e i r ;;
  pixel_nn e i r ;;
  pixel_svm e i r ;;
  tfPred ← pixel_tf e (v_tfPred v) i r;
  pixel_km e i r rorig ;;
  mret (mkMapVars type (i + 1)%nat tfPred).

Fixpoint map_loop (e : MapEnv) (v : MapVars) (R : list obj) : M MapVars :=
  match R with
  | [] => mret v
  | r :: R' => v' ← map_pixel e v r; map_loop e v' R'
  end.

(** [plotMaps(X, Y, pred, title)] *)
Definition plotMaps (e : MapEnv) (pred : pyval) (title : string) : M unit :=
  a ← as_arg pred;
  call_proc "plotMaps" [AList (m_X e); AList (m_Y e); a; AStr title].

(** Lines 308-317. *)
Definition map_plots (e : MapEnv) (v : MapVars) : M unit :=
  c ← get_cfg;
  (if dnntf_plotMap (dnntfDef c) && dnntf_runDNNTF (dnntfDef c) then
     dnntfPred ← global "dnntfPred" g_dnntfPred;
     plotMaps e (Ref dnntfPred) "Deep Neural networks - tensorFlow"
   else mret ()) ;;
  c ← get_cfg;
  (if nn_plotMap (nnDef c) && nn_runNN (nnDef c)
   then plotMaps e (Ref (m_nnPred e)) "Deep Neural networks - sklearn"
   else mret ()) ;;
  c ← get_cfg;
  (if svm_plotMap (svmDef c) && svm_runSVM (svmDef c)
   then plotMaps e (Ref (m_svmPred e)) "SVM"
   else mret ()) ;;
  c ← get_cfg;
  (if tf_plotMap (tfDef c) && tf_runTF (tfDef c)
   then plotMaps e (v_tfPred v) "TensorFlow"
   else mret ()) ;;
  c ← get_cfg;
  if km_plotMap (kmDef c) && km_runKM (kmDef c)
  then plotMaps e (Ref (m_kmPred e)) "K-Means Prediction"
  else mret ().

Definition LearnPredictMap (learnFile mapFile : string) : M unit :=
  '(e, v) ← map_setup learnFile mapFile;
  v' ← map_loop e v (m_R e);
  map_plots e v'.

End Model.

(** * Vocabulary of the statements *)

Section Vocabulary.
Context {obj label ext : Type}.

(** The file names announced by [processSingleBatch] (its first statement
    prints the name), in order. *)
Definition processed_of (e : @event obj label) : list string :=
  match e with
  | Print [AStr h; AStr f] => if String.eqb h " Processing file: " then [f] else []
  | _ => []
  end.

Definition processed (tr : list (@event obj label)) : list string :=
  tr ≫= processed_of.

(** How often the collaborator [fn] was called. *)
Definition is_call (fn : string) (e : @event obj label) : bool :=
  match e with
  | Call g _ => String.eqb fn g
  | Print _ => false
  end.

Fixpoint calls (fn : string) (tr : list (@event obj label)) : nat :=
  match tr with
  | [] => 0
  | e :: tr' => ((if is_call fn e then 1 else 0) + calls fn tr')%nat
  end.

(** The calls of [fn] in a log, with their arguments. *)
Definition calls_of (fn : string) (tr : list (@event obj label)) : list (list arg) :=
  tr ≫= λ e, match e with
             | Call g args => if String.eqb fn g then [args] else []
             | Print _ => []
             end.

(** Number of enabled families. *)
Definition n_enabled (c : Config) : nat :=
  length (filter (λ m, enabled c m = true) [DNNTF; Keras; NN; SVM; TF; KM]).

(** The order in which [processSingleBatch] visits the families, and the
    number of fields each one adds to the row. *)
Definition batch_order : list family := [DNNTF; Keras; NN; SVM; TF; KM].

Definition width (m : family) : nat :=
  match m with
  | TF => 3
  | KM => 1
  | DNNTF | Keras | NN | SVM => 2
  end.

(** The flags [processSingleBatch] has assigned when it returns. *)
Definition clear_if (b : bool) (f : Config → Config) (c : Config) : Config :=
  if b then f c else c.

Definition batch_cleared (c : Config) : Config :=
  clear_if (enabled c KM) (set_km_plotKM false)
    (clear_if (enabled c TF) (set_tf_tfalwaysRetrain false)
       (clear_if (enabled c SVM) (set_svm_alwaysRetrain false)
          (clear_if (enabled c NN) (set_nn_alwaysRetrain false)
             (clear_if (enabled c DNNTF) (set_dnntf_alwaysRetrain false) c)))).

(** *** Single-file mode and the PCA diagnostic *)

(** [pcaDef.runPCA = b] *)
Definition set_pca_runPCA (b : bool) (c : Config) : Config :=
  let d := pcaDef c in
  mkConfig (mkPcaDef b (pca_customNumPCAComp d) (pca_numPCAcomponents d))
    (dnntfDef c) (nnDef c) (svmDef c) (tfDef c) (kerasDef c) (kmDef c)
    (plotDef c) (sysDef c).

(** The log without the PCA diagnostic's own entries (its prints, the
    [PCA] fit and the pyplot section): the calls of the loaders, the
    preprocessors and the model adapters, with their arguments. *)
Definition is_model_call (e : @event obj label) : bool :=
  match e with
  | Call fn _ => negb (String.eqb fn "PCA" || String.eqb fn "pyplot")
  | Print _ => false
  end.

Definition model_calls (tr : list (@event obj label)) : list (@event obj label) :=
  tr ≫= λ e, if is_model_call e then [e] else [].

(** The collaborators other than the PCA diagnostic do not look at the
    switch [pcaDef.runPCA]. *)
Definition ignores_pca_switch (W : @World obj label ext) : Prop :=
  (∀ fn args b c w, w_learn W fn args (set_pca_runPCA b c) w = w_learn W fn args c w) ∧
  (∀ fn args b c w, w_pair W fn args (set_pca_runPCA b c) w = w_pair W fn args c w) ∧
  (∀ fn args b c w, w_one W fn args (set_pca_runPCA b c) w = w_one W fn args c w) ∧
  (∀ fn args b c w, fn ≠ "pyplot" →
     w_unit W fn args (set_pca_runPCA b c) w = w_unit W fn args c w).

(** The PCA fit and the pyplot section leave no hidden state behind that
    another collaborator could pick up. *)
Definition pca_stateless (W : @World obj label ext) : Prop :=
  (∀ n A c w, (w_pca W n A c w).2 = w) ∧
  (∀ args c w, (w_unit W "pyplot" args c w).2 = w).

(** Two states that differ at most in [pcaDef.runPCA] and in the PCA
    diagnostic's log entries. *)
Definition pca_blind (s s' : @State obj label ext) : Prop :=
  set_pca_runPCA false (st_cfg s) = set_pca_runPCA false (st_cfg s') ∧
  st_world s = st_world s' ∧ st_globals s = st_globals s' ∧
  st_heap s = st_heap s' ∧ st_files s = st_files s' ∧
  st_cwd s = st_cwd s' ∧ st_pool s = st_pool s' ∧
  model_calls (st_trace s) = model_calls (st_trace s').

(** Two computations that cannot be told apart from such states. *)
Definition sim {A} (m1 m2 : @M obj label ext A) : Prop :=
  ∀ s s', pca_blind s s' → (m1 s).1 = (m2 s').1 ∧ pca_blind (m1 s).2 (m2 s').2.

(** What the PCA diagnostic leaves untouched. *)
Definition pca_frame (s s' : @State obj label ext) : Prop :=
  st_cfg s' = st_cfg s ∧ st_globals s' = st_globals s ∧ st_heap s' = st_heap s ∧
  st_files s' = st_files s ∧ st_cwd s' = st_cwd s ∧ st_pool s' = st_pool s ∧
  model_calls (st_trace s') = model_calls (st_trace s) ∧
  ∀ fn, fn ≠ "PCA" → fn ≠ "pyplot" → calls_of fn (st_trace s') = calls_of fn (st_trace s).

(** *** Map mode *)

(** The collaborators that fit a model: the six [train*] functions and
    [runKMmain], which clusters and predicts in one call. *)
Definition fitting : list string :=
  ["trainNN"; "trainDNNTF"; "trainDNNTF2"; "trainKeras"; "trainSVM"; "trainTF"; "runKMmain"].

(** The training functions of the families trained ahead of the loop. *)
Definition pretrained : list string :=
  ["trainNN"; "trainDNNTF"; "trainDNNTF2"; "trainKeras"; "trainSVM"].

Definition named (names : list string) (e : @event obj label) : bool :=
  match e with
  | Call fn _ => bool_decide (fn ∈ names)
  | Print _ => false
  end.

(** The calls of a log to one of [names], in order. *)
Definition calls_in (names : list string) (tr : list (@event obj label))
    : list (@event obj label) :=
  tr ≫= λ e, if named names e then [e] else [].

(** The fitting calls of a log, in order. *)
Definition trainings (tr : list (@event obj label)) : list (@event obj label) :=
  calls_in fitting tr.

(** The arguments that stand for the full training set. *)
Definition full_set (e : @MapEnv obj label) : list (@arg obj label) :=
  [AObj (m_A e); ACl (m_Cl e); AObj (m_A e); ACl (m_Cl e); AStr (m_learnFileRoot e)].

Definition when {A} (b : bool) (l : list A) : list A := if b then l else [].

(** The fitting calls before the loop. *)
Definition setup_trainings (c : Config) (e : @MapEnv obj label) : list (@event obj label) :=
  when (enabled c NN) [Call "trainNN" (full_set e)] ++
  when (enabled c DNNTF)
    [Call (if dnntf_runSkflowDNNTF (dnntfDef c) then "trainDNNTF2" else "trainDNNTF")
          (full_set e)] ++
  when (enabled c Keras) [Call "trainKeras" (AObj (m_En e) :: full_set e)] ++
  when (enabled c SVM) [Call "trainSVM" (full_set e)].

(** The fitting calls of one turn of the loop. *)
Definition pixel_trainings (c : Config) (e : @MapEnv obj label)
    (evs : list (@event obj label)) : Prop :=
  ∃ r rorig,
    evs = when (enabled c TF) [Call "trainTF" (full_set e)] ++
          when (enabled c KM)
            [Call "runKMmain" [AObj (m_A e); ACl (m_Cl e); AObj (m_En e);
                               AObj r; AObj (m_Aorig e); AObj rorig]].

(** A computation that adds no call to one of [names] to the log, whatever
    its outcome. *)
Definition quiet (names : list string) {A} (m : @M obj label ext A) : Prop :=
  ∀ s r s', m s = (r, s') → calls_in names (st_trace s') = calls_in names (st_trace s).

(** *** Batch mode *)

(** Two configurations with the same switches: which families run, and
    which DNN-TF variant. *)
Definition same_switches (c c' : Config) : Prop :=
  (∀ m, enabled c' m = enabled c m) ∧
  dnntf_runSkflowDNNTF (dnntfDef c') = dnntf_runSkflowDNNTF (dnntfDef c).

(** Number of fields of a summary row under configuration [c]. *)
Definition row_width (c : Config) : nat :=
  (1 + sum_list ((λ m, if enabled c m then width m else 0%nat) <$> batch_order))%nat.


Context (W : @World obj label ext).

(** [p, q] is a pair the collaborator [fn] returns (for some arguments,
    configuration and hidden state). *)
Definition predicted (fn : string) (p q : obj) : Prop :=
  ∃ args c w, (w_pair W fn args c w).1 = Some (p, q).

Definition clustered (p : obj) : Prop :=
  ∃ args c w, (w_one W "runKMmain" args c w).1 = Some p.

(** The predictor batch mode calls for a family with a pair result. *)
Definition batch_predictor (c : Config) (m : family) : string :=
  match m with
  | DNNTF => if dnntf_runSkflowDNNTF (dnntfDef c) then "predDNNTF2" else "predDNNTF"
  | Keras => "predKeras"
  | NN => "predNN"
  | SVM => "predSVM"
  | TF => "predTF"
  | KM => "runKMmain"
  end.

(** The fields a family contributes to a summary row. *)
Definition block_of (c : Config) (g : @Globals obj) (m : family) (blk : list (@cell obj)) : Prop :=
  match m with
  | TF => ∃ p q a, blk = [CObj p; CObj q; CObj a] ∧ predicted "predTF" p q
                   ∧ g_tfAccur g = Some a
  | KM => ∃ p, blk = [CObj p] ∧ clustered p
  | DNNTF | Keras | NN | SVM =>
      ∃ p q, blk = [CObj p; CObj q] ∧ predicted (batch_predictor c m) p q
  end.

(** A summary row for file [f]: the name, then the enabled families'
    fields in [batch_order]. *)
Definition row_layout (c : Config) (g : @Globals obj) (f : string)
    (row : list (@cell obj)) : Prop :=
  ∃ blk : family → list cell,
    row = CStr f :: concat (map blk batch_order) ∧
    ∀ m, if enabled c m then block_of c g m (blk m) else blk m = [].

(** What one per-family section of [processSingleBatch] assigns. *)
Definition setter (m : family) : Config → Config :=
  match m with
  | DNNTF => set_dnntf_alwaysRetrain false
  | Keras => id
  | NN => set_nn_alwaysRetrain false
  | SVM => set_svm_alwaysRetrain false
  | TF => set_tf_tfalwaysRetrain false
  | KM => set_km_plotKM false
  end.

(** Outcome of the section of family [m], entered with [row] in state [s]. *)
Definition block_post (m : family) (row : list (@cell obj)) (s : @State obj label ext)
    (out : (exn + list (@cell obj)) * @State obj label ext) : Prop :=
  st_files out.2 = st_files s ∧ st_globals out.2 = st_globals s ∧
  st_pool out.2 = st_pool s ∧
  processed (st_trace out.2) = processed (st_trace s) ∧
  match out.1 with
  | inr row' =>
      st_cfg out.2 = clear_if (enabled (st_cfg s) m) (setter m) (st_cfg s) ∧
      ∃ blk, row' = row ++ blk ∧
             if enabled (st_cfg s) m
             then block_of (st_cfg s) (st_globals s) m blk
             else blk = []
  | inl _ => True
  end.

(** The [*.txt] names other than the training file, in listing order. *)
Definition batch_targets (learnFile : string) (cwd : list string) : list string :=
  filter (λ f, f ≠ learnFile) (filter (λ f, glob_match f = true) cwd).

(** The files handed to [processSingleBatch] between [s] and [s']: queued
    on the pool with [multiProc], announced in the log without. *)
Definition submitted (s s' : @State obj label ext) : list string :=
  if sys_multiProc (sysDef (st_cfg s))
  then t_f <$> st_pool s'
  else drop (length (processed (st_trace s))) (processed (st_trace s')).

(** A row written for one of the batch's files. *)
Definition data_row (learnFile : string) (cwd : list string) (row : list (@cell obj)) : Prop :=
  ∃ f rest, row = CStr f :: rest ∧ f ∈ batch_targets learnFile cwd.

(** The sequential loop of [LearnPredictBatch], lines 170-172. *)
Definition batch_body (En : obj) (Cl : list label) (A Aorig YnormXind : obj)
    (summary_filename learnFile : string) (f : string) : M unit :=
  if bool_decide (f ≠ learnFile)
  then processSingleBatch W f En Cl A Aorig YnormXind summary_filename learnFile
  else mret ().

End Vocabulary.

(** * The rest of the two files

    Judgements on computations, [trainAccuracy], and the vocabulary in
    which the runs of the four entry points are described call by call. *)

Section Judgements.
Context {obj label ext : Type}.

(** A computation that leaves the view [π] of the state as it is, whatever
    its outcome. *)
Definition keeps {X A} (π : @State obj label ext → X) (m : @M obj label ext A) : Prop :=
  ∀ s, π (m s).2 = π s.

(** A computation that can raise only what a collaborator raised, that
    collaborator being the last one called, or one of the exceptions [ok]. *)
Definition fails_at_call (ok : exn → Prop) {A} (m : @M obj label ext A) : Prop :=
  ∀ s e s', m s = (inl e, s') →
    match e with
    | Raised fn => ∃ tr args, st_trace s' = tr ++ [Call fn args]
    | _ => ok e
    end.

(** A computation in which no collaborator outside [names] raises. *)
Definition raises_within (names : list string) {A} (m : @M obj label ext A) : Prop :=
  ∀ s fn s', m s = (inl (Raised fn), s') → fn ∈ names.

End Judgements.

Section FileVocabulary.
Context {obj label ext : Type}.
Context (W : @World obj label ext).

(** The model adapters. *)
Definition adapters : list string :=
  ["trainDNNTF"; "predDNNTF"; "trainDNNTF2"; "predDNNTF2"; "trainNN"; "predNN";
   "trainSVM"; "predSVM"; "trainTF"; "predTF"; "trainKeras"; "predKeras"; "runKMmain"].

(** The training function of a family ([runKMmain] fits and predicts). *)
Definition trainer (c : Config) (m : family) : string :=
  match m with
  | DNNTF => if dnntf_runSkflowDNNTF (dnntfDef c) then "trainDNNTF2" else "trainDNNTF"
  | Keras => "trainKeras"
  | NN => "trainNN"
  | SVM => "trainSVM"
  | TF => "trainTF"
  | KM => "runKMmain"
  end.

(** What a collaborator answers to given arguments (in some configuration
    and hidden state). *)
Definition answers_learn (fn : string) (args : list (@arg obj label))
    (x : obj * list label * obj * obj) : Prop :=
  ∃ c w, (w_learn W fn args c w).1 = Some x.

Definition answers_pair (fn : string) (args : list (@arg obj label)) (x : obj * obj) : Prop :=
  ∃ c w, (w_pair W fn args c w).1 = Some x.

(** [A, Cl, A, Cl, learnFileRoot]: training set and test set are the same. *)
Definition train_on_itself (A : obj) (Cl : list label) (root : string) : list (@arg obj label) :=
  [AObj A; ACl Cl; AObj A; ACl Cl; AStr root].

(** The order in which [LearnPredictFile] visits the families. *)
Definition file_order : list family := [DNNTF; NN; SVM; TF; Keras; KM].

(** The calls single-file mode makes for family [m]. *)
Definition file_calls (c : Config) (root : string) (En : obj) (Cl : list label)
    (A Aorig R Rorig : obj) (m : family) (evs : list (@event obj label)) : Prop :=
  match m with
  | DNNTF => ∃ clf le,
      answers_pair (trainer c DNNTF) (train_on_itself A Cl root) (clf, le) ∧
      evs = [Call (trainer c DNNTF) (train_on_itself A Cl root);
             Call (batch_predictor c DNNTF) [AObj clf; AObj le; AObj R; ACl Cl]]
  | NN => ∃ clf le,
      answers_pair "trainNN" (train_on_itself A Cl root) (clf, le) ∧
      evs = [Call "trainNN" (train_on_itself A Cl root);
             Call "predNN" [AObj clf; AObj A; ACl Cl; AObj R; AObj le]]
  | SVM => ∃ clf le,
      answers_pair "trainSVM" (train_on_itself A Cl root) (clf, le) ∧
      evs = [Call "trainSVM" (train_on_itself A Cl root);
             Call "predSVM" [AObj clf; AObj A; ACl Cl; AObj R; AObj le]]
  | TF =>
      evs = [Call "trainTF" (train_on_itself A Cl root);
             Call "predTF" [AObj A; ACl Cl; AObj R; AStr root]]
  | Keras => ∃ model le,
      answers_pair "trainKeras" (AObj En :: train_on_itself A Cl root) (model, le) ∧
      evs = [Call "trainKeras" (AObj En :: train_on_itself A Cl root);
             Call "predKeras" [AObj model; AObj le; AObj R; ACl Cl]]
  | KM =>
      evs = [Call "runKMmain" [AObj A; ACl Cl; AObj En; AObj R; AObj Aorig; AObj Rorig]]
  end.

(** The loaders and preprocessors. *)
Definition loaders : list string :=
  ["readLearnFile"; "readPredFile"; "readPredMap"; "formatSubset";
   "preProcessNormLearningData"; "preProcessNormPredData"].

(** The collaborators of single-file mode, but for the plotting section
    of the PCA diagnostic. *)
Definition file_collaborators : list string :=
  ["readLearnFile"; "PCA"; "readPredFile"; "preProcessNormLearningData";
   "preProcessNormPredData"; "plotTrainData"] ++ adapters.

End FileVocabulary.

Section TrainAccuracy.
Context {obj label ext : Type}.

(** ** [slp_io.py]: training and accuracy

    [trainAccuracy] reads the class [preprocDef] and calls [formatSubset]
    and [len], which the other functions do not: they are given here.
    [preprocDef] is read three times and assigned nowhere in the two
    files; the function takes the class as it stands when it is called. *)
Record PreprocDef := mkPreprocDef {
  preproc_subsetCrossValid : bool;
  preproc_percentCrossValid : obj }.

Record TrainWorld := mkTrainWorld {
  (* [formatSubset]: A, Cl, A_test, Cl_test *)
  w_formatSubset : list (@arg obj label) → @Ext ext (obj * list label * obj * list label);
  (* [len(A)] on a feature matrix *)
  w_len : obj → Z }.

Context (W : @World obj label ext) (V : TrainWorld).

(** [trainAccuracy], lines 98-149. *)
Definition trainAccuracy (preprocDef : PreprocDef) (learnFile testFile : string)
    : @M obj label ext unit :=
  '(En, Cl, A, YnormXind) ← call_learn W "readLearnFile" [AStr learnFile];
  '(A, Cl, En_test, Cl_test, A_test) ←
    (if preproc_subsetCrossValid preprocDef then
       print [AStr " Cross-validation training using: ";
              AObj (preproc_percentCrossValid preprocDef);
              AStr "% of training file as test subset"] ;;
       '(A, Cl, A_test, Cl_test) ←
         extcall "formatSubset"
           [AObj A; ACl Cl; AObj (preproc_percentCrossValid preprocDef)]
           (w_formatSubset V [AObj A; ACl Cl; AObj (preproc_percentCrossValid preprocDef)]);
       let En_test := En in
       print [AStr " Number of training spectra = "; AInt (w_len V A)] ;;
       print [AStr " Number of evaluation spectra = "; AInt (w_len V A_test)] ;;
       mret (A, Cl, En_test, Cl_test, A_test)
     else
       print [AStr " Cross-validation training using: provided test subset (";
              AStr testFile; AStr ")"] ;;
       '(En_test, Cl_test, A_test, YnormXind2) ←
         call_learn W "readLearnFile" [AStr testFile];
       mret (A, Cl, En_test, Cl_test, A_test));
  let learnFileRoot := w_splitext_root W learnFile in
  c ← get_cfg;
  (if plot_createTrainingDataPlot (plotDef c) then
     call_proc W "plotTrainData" [AObj A; AObj En; AObj A_test;
                           ABool (plot_plotAllSpectra (plotDef c));
                           AStr (learnFileRoot +:+ "_raw")]
   else mret ()) ;;
  '(A, Cl, En, Aorig) ← call_learn W "preProcessNormLearningData"
                          [AObj A; AObj En; ACl Cl; AObj YnormXind; AInt 0];
  '(A_test, Cl_test, En_test, Aorig_test) ←
    call_learn W "preProcessNormLearningData"
      [AObj A_test; AObj En_test; ACl Cl_test; AObj YnormXind; AInt 0];
  c ← get_cfg;
  (if dnntf_runDNNTF (dnntfDef c) then
     c ← get_cfg;
     if negb (dnntf_runSkflowDNNTF (dnntfDef c)) then
       call_pair W "trainDNNTF"
         [AObj A; ACl Cl; AObj A_test; ACl Cl_test; AStr learnFileRoot] ;;
       mret ()
     else
       call_pair W "trainDNNTF2"
         [AObj A; ACl Cl; AObj A_test; ACl Cl_test; AStr learnFileRoot] ;;
       mret ()
   else mret ()) ;;
  c ← get_cfg;
  (if keras_runKeras (kerasDef c) then
     call_pair W "trainKeras"
       [AObj En; AObj A; ACl Cl; AObj A_test; ACl Cl_test; AStr learnFileRoot] ;;
     mret ()
   else mret ()) ;;
  c ← get_cfg;
  (if nn_runNN (nnDef c) then
     call_pair W "trainNN"
       [AObj A; ACl Cl; AObj A_test; ACl Cl_test; AStr learnFileRoot] ;;
     mret ()
   else mret ()) ;;
  c ← get_cfg;
  (if svm_runSVM (svmDef c) then
     call_pair W "trainSVM"
       [AObj A; ACl Cl; AObj A_test; ACl Cl_test; AStr learnFileRoot] ;;
     mret ()
   else mret ()) ;;
  c ← get_cfg;
  (if tf_runTF (tfDef c) then
     call_proc W "trainTF"
       [AObj A; ACl Cl; AObj A_test; ACl Cl_test; AStr learnFileRoot]
   else mret ()) ;;
  c ← get_cfg;
  if plot_createTrainingDataPlot (plotDef c) then
    call_proc W "plotTrainData" [AObj A; AObj En; AObj A_test;
                          ABool (plot_plotAllSpectra (plotDef c));
                          AStr (learnFileRoot +:+ "_norm")]
  else mret ().

(** *** Vocabulary *)

(** What [formatSubset] answers. *)
Definition answers_subset (args : list (@arg obj label))
    (x : obj * list label * obj * list label) : Prop :=
  ∃ c w, (w_formatSubset V args c w).1 = Some x.

(** The training calls of [trainAccuracy], in its order of the families. *)
Definition accuracy_trainings (c : Config) (root : string) (En A : obj) (Cl : list label)
    (A_test : obj) (Cl_test : list label) : list (@event obj label) :=
  let sets := [AObj A; ACl Cl; AObj A_test; ACl Cl_test; AStr root] in
  when (enabled c DNNTF) [Call (trainer c DNNTF) sets] ++
  when (enabled c Keras) [Call "trainKeras" (AObj En :: sets)] ++
  when (enabled c NN) [Call "trainNN" sets] ++
  when (enabled c SVM) [Call "trainSVM" sets] ++
  when (enabled c TF) [Call "trainTF" sets].


(** The stages of [trainAccuracy] after the loading. *)
Definition accuracy_stages : list string :=
  "plotTrainData" :: "preProcessNormLearningData" :: fitting.

End TrainAccuracy.

Section BatchVocabulary.
Context {obj label ext : Type}.
Context (W : @World obj label ext).

(** The calls [processSingleBatch] makes for family [m].  The Keras
    predictor gets the module-level [model_keras], not the model the
    training call just returned; [predSVM] gets the energy axis too. *)
Definition batch_calls (c : Config) (g : @Globals obj) (root : string) (En : obj)
    (Cl : list label) (A Aorig R Rorig : obj) (m : family)
    (evs : list (@event obj label)) : Prop :=
  match m with
  | DNNTF => ∃ clf le,
      answers_pair W (trainer c DNNTF) (train_on_itself A Cl root) (clf, le) ∧
      evs = [Call (trainer c DNNTF) (train_on_itself A Cl root);
             Call (batch_predictor c DNNTF) [AObj clf; AObj le; AObj R; ACl Cl]]
  | Keras => ∃ model le model_keras,
      answers_pair W "trainKeras" (AObj En :: train_on_itself A Cl root) (model, le) ∧
      g_model_keras g = Some model_keras ∧
      evs = [Call "trainKeras" (AObj En :: train_on_itself A Cl root);
             Call "predKeras" [AObj model_keras; AObj le; AObj R; ACl Cl]]
  | NN => ∃ clf le,
      answers_pair W "trainNN" (train_on_itself A Cl root) (clf, le) ∧
      evs = [Call "trainNN" (train_on_itself A Cl root);
             Call "predNN" [AObj clf; AObj A; ACl Cl; AObj R; AObj le]]
  | SVM => ∃ clf le,
      answers_pair W "trainSVM" (train_on_itself A Cl root) (clf, le) ∧
      evs = [Call "trainSVM" (train_on_itself A Cl root);
             Call "predSVM" [AObj clf; AObj A; ACl Cl; AObj En; AObj R; AObj le]]
  | TF =>
      evs = [Call "trainTF" (train_on_itself A Cl root);
             Call "predTF" [AObj A; ACl Cl; AObj R; AStr root]]
  | KM =>
      evs = [Call "runKMmain" [AObj A; ACl Cl; AObj En; AObj R; AObj Aorig; AObj Rorig]]
  end.

(** The training functions proper. *)
Definition trainers : list string :=
  ["trainDNNTF"; "trainDNNTF2"; "trainKeras"; "trainNN"; "trainSVM"; "trainTF"].

(** The training calls [processSingleBatch] makes for one file. *)
Definition batch_trainings (c : Config) (root : string) (En A : obj) (Cl : list label)
    : list (@event obj label) :=
  when (enabled c DNNTF) [Call (trainer c DNNTF) (train_on_itself A Cl root)] ++
  when (enabled c Keras) [Call "trainKeras" (AObj En :: train_on_itself A Cl root)] ++
  when (enabled c NN) [Call "trainNN" (train_on_itself A Cl root)] ++
  when (enabled c SVM) [Call "trainSVM" (train_on_itself A Cl root)] ++
  when (enabled c TF) [Call "trainTF" (train_on_itself A Cl root)].

(** The file a summary row is for. *)
Definition row_name (row : list (@cell obj)) : option string :=
  match row with
  | CStr f :: _ => Some f
  | _ => None
  end.

(** The stages of a batch that concern the training set. *)
Definition batch_stages : list string :=
  "readLearnFile" :: "preProcessNormLearningData" :: trainers.

End BatchVocabulary.

Section MapSections.
Context {obj label ext : Type}.

(** The sections of the map loop that run under configuration [c]: the
    Keras section is switched by [dnntfDef.runKeras]. *)
Definition map_runs (c : Config) (m : family) : bool :=
  match m with
  | Keras => bool_decide (dnntf_runKeras (dnntfDef c) = Some true)
  | DNNTF | NN | SVM | TF | KM => enabled c m
  end.

(** The name under which a section saves its map. *)
Definition map_name (m : family) : string :=
  match m with
  | DNNTF => "DNN-TF"
  | Keras => "Keras"
  | NN => "NN"
  | SVM => "svm"
  | TF => "TF"
  | KM => "KM"
  end.

(** One entry of the map output. *)
Definition map_entry (e : @MapEnv obj label) (m : family) (p x y : obj) : @event obj label :=
  Call "saveMap" [AStr (m_mapFile e); AStr (map_name m); AStr "HC";
                  AObj p; AObj x; AObj y; ABool true].

(** One map plot. *)
Definition map_plot (e : @MapEnv obj label) (pred : @arg obj label) (title : string)
    : @event obj label :=
  Call "plotMaps" [AList (m_X e); AList (m_Y e); pred; AStr title].

End MapSections.

Section MapTurn.
Context {obj label ext : Type}.

(** The order of the sections in the loop body. *)
Definition map_order : list family := [DNNTF; Keras; NN; SVM; TF; KM].

(** The entries one turn of the loop writes, for the pixel at [x], [y];
    [val m] is the value the section of [m] saves. *)
Definition map_entries (c : Config) (e : @MapEnv obj label) (val : family → obj)
    (x y : obj) : list (@event obj label) :=
  (λ m, map_entry e m (val m) x y) <$> filter (λ m, map_runs c m = true) map_order.

(** The flags one turn of the loop has assigned. *)
Definition pixel_cleared (c : Config) : Config :=
  clear_if (enabled c KM) (set_km_plotKM false)
    (clear_if (enabled c TF) (set_tf_alwaysRetrain false)
       (clear_if (enabled c SVM) (set_svm_alwaysRetrain false)
          (clear_if (enabled c NN) (set_nn_alwaysRetrain false) c))).

(** The array a section stores into: a module-level array for DNN-TF and
    Keras, the array of line 245 for NN, SVM and K-Means, none for raw
    TensorFlow. *)
Definition target (e : @MapEnv obj label) (g : @Globals obj) (m : family) : option nat :=
  match m with
  | DNNTF => g_dnntfPred g
  | Keras => g_kerasPred g
  | NN => Some (m_nnPred e)
  | SVM => Some (m_svmPred e)
  | TF => None
  | KM => Some (m_kmPred e)
  end.

(** The store of one section, and of one turn of the loop. *)
Definition store (c : Config) (e : @MapEnv obj label) (g : @Globals obj) (i : nat)
    (val : family → obj) (h : list (list obj)) (m : family) : list (list obj) :=
  if map_runs c m then
    match target e g m with
    | Some a => <[a := <[i := val m]> (h !!! a)]> h
    | None => h
    end
  else h.

Definition pixel_heap (c : Config) (e : @MapEnv obj label) (g : @Globals obj) (i : nat)
    (val : family → obj) (h : list (list obj)) : list (list obj) :=
  foldl (store c e g i val) h map_order.

(** The names the loop body needs beyond those its function binds. *)
Definition map_names_bound (c : Config) (e : @MapEnv obj label) (g : @Globals obj) : Prop :=
  is_Some (dnntf_runKeras (dnntfDef c)) ∧
  (enabled c DNNTF = true →
     is_Some (g_cl_dnntf g) ∧ is_Some (g_dnntfPred g) ∧ is_Some (g_dnnDef g)) ∧
  (map_runs c Keras = true → is_Some (m_keras e) ∧ is_Some (g_kerasPred g)).

(** What the flags a turn of the loop assigns leave alone. *)
Definition same_sections (c c' : Config) : Prop :=
  (∀ m, map_runs c' m = map_runs c m) ∧ (∀ m, enabled c' m = enabled c m) ∧
  batch_predictor c' DNNTF = batch_predictor c DNNTF.

(** The part of the log one turn of the loop is described by. *)
Definition map_log : list string := ["preProcessNormPredData"; "saveMap"].

(** What the section of [m] does in one turn, in one form for the six
    sections: [p] is the value it saves. *)
Definition section_run (c : Config) (e : @MapEnv obj label) (g : @Globals obj) (i : nat)
    (x y : obj) (m : family) (p : obj) (s s' : @State obj label ext) : Prop :=
  st_heap s' = store c e g i (λ _, p) (st_heap s) m ∧
  calls_in map_log (st_trace s') = calls_in map_log (st_trace s) ++
    (if map_runs c m then [map_entry e m p x y] else []) ∧
  (map_runs c m = true → m_X e !! i = Some x ∧ m_Y e !! i = Some y).

End MapTurn.

Section MapLoop.
Context {obj label ext : Type}.

(** What the turns of the loop save: for each pixel the values of the
    sections and the coordinates. *)
Definition Pixel : Type := (family → obj) * obj * obj.

(** The stores of the loop, from pixel [i] on. *)
Fixpoint loop_heap (c : Config) (e : @MapEnv obj label) (g : @Globals obj) (i : nat)
    (pxs : list Pixel) (h : list (list obj)) : list (list obj) :=
  match pxs with
  | [] => h
  | (val, _, _) :: pxs' => loop_heap c e g (S i) pxs' (pixel_heap c e g i val h)
  end.

(** The preprocessing calls and the map entries of the loop; [type] is
    the value of the local of that name when the loop is entered. *)
Fixpoint loop_log (c : Config) (e : @MapEnv obj label) (type : Z) (R : list obj)
    (pxs : list Pixel) : list (@event obj label) :=
  match R, pxs with
  | r :: R', (val, x, y) :: pxs' =>
      Call "preProcessNormPredData"
        [AObj r; AObj (m_Rx e); AObj (m_En e); AObj (m_YnormXind e); AInt type]
      :: map_entries c e val x y ++ loop_log c e 1 R' pxs'
  | _, _ => []
  end.

(** The configuration and the globals after the loop. *)
Definition loop_cleared {A} (R : list A) (c : Config) : Config :=
  match R with [] => c | _ => pixel_cleared c end.

Definition loop_globals {A} (R : list A) (c : Config) (g : @Globals obj) : @Globals obj :=
  match R with
  | [] => g
  | _ => if enabled c DNNTF then set_g_dnnDef (Some (Some false)) g else g
  end.

(** The value of the local [type] in turn [k] of the map loop. *)
Definition type_of_turn (k : nat) : Z := match k with O => 0 | S _ => 1 end.

End MapLoop.

Section MapRun.
Context {obj label ext : Type}.
Context (W : @World obj label ext).

(** What [readPredMap] answers. *)
Definition answers_map (args : list (@arg obj label))
    (x : list obj * list obj * list obj * obj) : Prop :=
  ∃ c w, (w_map W "readPredMap" args c w).1 = Some x.

(** The last of the sections that store into the array of line 245. *)
Definition last_writer (c : Config) : option family :=
  if enabled c KM then Some KM
  else if enabled c SVM then Some SVM
  else if enabled c NN then Some NN
  else None.

(** The configuration up to the four flags the map loop assigns. *)
Definition but_map_flags (c : Config) : Config :=
  set_km_plotKM false
    (set_tf_alwaysRetrain false (set_svm_alwaysRetrain false (set_nn_alwaysRetrain false c))).

End MapRun.

Section MapArray.
Context {obj label ext : Type}.
Context (W : @World obj label ext).

(** What the loop leaves in the one array of line 245: turn by turn, the
    value of the last section that stores into it. *)
Fixpoint written (c : Config) (i : nat) (pxs : list (@Pixel obj)) (arr : list obj)
    : list obj :=
  match pxs with
  | [] => arr
  | (val, _, _) :: pxs' =>
      written c (S i) pxs'
        (match last_writer c with
         | Some m => <[i := val m]> arr
         | None => arr
         end)
  end.

End MapArray.

Section ScorePlots.
Context {label : Type} `{EqDecision label}.
Context (label_le : relation label) `{!∀ x y, Decision (label_le x y)}.

(** ** [slp_pca.py]: the groups of the score plots, lines 80-94

    The pyplot section of [runPCA] colours the samples by label.  Its
    index computations are these. *)

(** [np.in1d(x, ar, invert=True)] for a scalar [x]. *)
Definition in1d_invert (x : label) (ar : list label) : bool := bool_decide (x ∉ ar).

(** Lines 84-86: [Cl_labels] after the first loop, started from
    [Cl_labels]. *)
Fixpoint collect_labels (Cl Cl_labels : list label) : list label :=
  match Cl with
  | [] => Cl_labels
  | x :: Cl' =>
      collect_labels Cl' (if in1d_invert x Cl_labels then Cl_labels ++ [x] else Cl_labels)
  end.

Definition score_labels (Cl : list label) : list label := collect_labels Cl [].

(** [np.where(ar == x)[0]], the indices from [i] on. *)
Fixpoint np_where_eq (ar : list label) (x : label) (i : nat) : list nat :=
  match ar with
  | [] => []
  | y :: ar' => (if decide (y = x) then [i] else []) ++ np_where_eq ar' x (S i)
  end.

(** Lines 88-89: [Cl_ind]; [None] is the IndexError of [...[0][0]] on an
    empty result. *)
Definition score_index (Cl : list label) : option (list nat) :=
  mapM (λ x, np_where_eq (score_labels Cl) x 0 !! 0%nat) Cl.

(** [Cl_ind == i], the samples of group [i]. *)
Definition group_mask (Cl_ind : list nat) (i : nat) : list bool :=
  (λ k, bool_decide (k = i)) <$> Cl_ind.

(** Line 91, [colors = [cm.jet(x) for x in np.linspace(0, 1, ind.shape[0])]],
    stands in the body of the loop of line 88: the local [colors] after
    that loop, [None] if it was never assigned.  A colour is represented
    by its position in the list. *)
Definition score_colors (Cl : list label) : option (list nat) :=
  foldl (λ _ _, Some (seq 0 (length (np_unique label_le Cl)))) None Cl.

(** Line 93: the triples of [zip(colors, range(ind.shape[0]), Cl_labels)],
    without the colour; reading [colors] fails if it is not bound. *)
Definition score_groups (Cl : list label) : exn + list (nat * label) :=
  match score_colors Cl with
  | None => inl (UnboundLocalError "colors")
  | Some colors =>
      inr (snd <$> zip colors (zip (seq 0 (length (np_unique label_le Cl))) (score_labels Cl)))
  end.

End ScorePlots.

(** * A concrete world, for running the model

    Objects and labels are integers; the hidden state counts the calls of
    the loaders, preprocessors and adapters.  Every collaborator named in
    [bad] raises; the others return fixed values: the predictors a label
    that identifies the family and a confidence, the clustering routine
    [6].  The PCA fit and the pyplot section leave the hidden state
    alone. *)

Definition demo_pairs : list (string * (Z * Z)) :=
  [("predDNNTF", (4, 94)); ("predDNNTF2", (4, 94)); ("predKeras", (5, 95));
   ("predNN", (1, 91)); ("predSVM", (2, 92)); ("predTF", (3, 93))].

Fixpoint assoc {A} (k : string) (l : list (string * A)) (d : A) : A :=
  match l with
  | [] => d
  | (k', a) :: l' => if String.eqb k k' then a else assoc k l' d
  end.

Definition is_bad (bad : list string) (fn : string) : bool :=
  existsb (String.eqb fn) bad.

Definition answer {A} (counted : bool) (bad : list string) (fn : string) (a : A)
    : @Ext nat A :=
  λ _ w, (if is_bad bad fn then None else Some a, if counted then S w else w).

Definition demo_world (bad : list string) : @World Z Z nat :=
  mkWorld
    (λ fn _, answer true bad fn (10, [3; 1; 3; 2], 20, 30))
    (λ fn _, answer true bad fn ([100; 101], [200; 201], [300; 301], 40))
    (λ fn _, answer true bad fn (assoc fn demo_pairs (50, 51)))
    (λ fn _, answer true bad fn 6)
    (λ fn _, answer (negb (String.eqb fn "pyplot")) bad fn ())
    (λ n _, answer false bad "PCA"
       (mkPCAres (repeat 0 (Z.to_nat n)) (repeat 0 (Z.to_nat n)) 0))
    (λ p, p)
    (λ _, "_2017-01-01_00-00-00.csv")
    (λ _, -1)
    (λ o i, Some o).

(** A configuration with the given families enabled: the retrain and plot
    flags are on, the DNN-TF variant is the first one, [dnntfDef.runKeras]
    exists and is off. *)
Definition demo_cfg (pca dnntf keras nn svm tf km multiProc : bool) : Config :=
  mkConfig (mkPcaDef pca false 2)
           (mkDnntfDef dnntf false true true true (Some false))
           (mkNnDef nn true true)
           (mkSvmDef svm true true)
           (mkTfDef tf true true true)
           (mkKerasDef keras)
           (mkKmDef km true true)
           (mkPlotDef false false false)
           (mkSysDef multiProc 2).

(** The module namespace with none of the stray names bound, and with
    [model_keras] and [tfAccur] bound. *)
Definition no_globals : @Globals Z := mkGlobals None None None None None None.
Definition batch_globals : @Globals Z := mkGlobals (Some 7) (Some 8) None None None None.

Definition demo_state (c : Config) (g : @Globals Z) (cwd : list string)
    : @State Z Z nat :=
  mkState c g 0%nat [] ∅ cwd [] [].

(** All six families enabled; K-Means only; Keras and NN; NN and SVM;
    raw TensorFlow and K-Means; Keras only. *)
Definition all_cfg : Config := demo_cfg false true true true true true true false.
Definition km_cfg : Config := demo_cfg false false false false false false true false.
Definition keras_nn_cfg : Config := demo_cfg false false true true false false false false.
Definition nn_svm_cfg : Config := demo_cfg false false false true true false false false.
Definition tf_km_cfg : Config := demo_cfg false false false false false true true false.
Definition keras_cfg : Config := demo_cfg false false true false false false false false.

(** One file of a batch, in the demo world. *)
Definition demo_file (bad : list string) : @M Z Z nat unit :=
  processSingleBatch (demo_world bad) "a.txt" 1 [1; 2] 2 3 4 "sum.csv" "learn.txt".

(** A working directory: two spectra, the training file, a hidden file and
    a file of another kind. *)
Definition demo_cwd : list string :=
  ["b.txt"; "learn.txt"; ".h.txt"; "x.csv"; "a.txt"].

Definition demo_batch_state (multiProc : bool) : @State Z Z nat :=
  demo_state (demo_cfg false false false true false false true multiProc)
             batch_globals demo_cwd.

(** What the claim C1 promises about the number of fields: two or three
    per enabled family, and the file name. *)
Definition claimed_row_width (c : Config) (row : list (@cell Z)) : Prop :=
  (1 + 2 * n_enabled c ≤ length row ≤ 1 + 3 * n_enabled c)%nat.

(** The collaborators of [trainAccuracy] in the demo world: [formatSubset]
    splits off a test set, and every matrix has two rows. *)
Definition demo_train (bad : list string) : @TrainWorld Z Z nat :=
  mkTrainWorld (λ _, answer true bad "formatSubset" (11, [3; 1], 12, [3; 2])) (λ _, 2).

Definition demo_preproc (subset : bool) : @PreprocDef Z := mkPreprocDef subset 5.

(** A configuration with the training plots on. *)
Definition with_plots (c : Config) : Config :=
  mkConfig (pcaDef c) (dnntfDef c) (nnDef c) (svmDef c) (tfDef c) (kerasDef c) (kmDef c)
    (mkPlotDef true false false) (sysDef c).

(** A single-file run and a [trainAccuracy] run in the demo world. *)
Definition demo_single (bad : list string) : @M Z Z nat unit :=
  LearnPredictFile Z.le (demo_world bad) "learn.txt" "s.txt".

Definition demo_accuracy (bad : list string) (subset : bool) : @M Z Z nat unit :=
  trainAccuracy (demo_world bad) (demo_train bad) (demo_preproc subset) "learn.txt" "test.txt".

(** A map run in the demo world. *)
Definition demo_map : @M Z Z nat unit :=
  LearnPredictMap (demo_world []) "learn.txt" "map.txt".

(** With [cl_dnntf], [dnntfPred] and [dnnDef] bound, a DNN-TF map run
    completes. *)
Definition map_globals : @Globals Z := mkGlobals None None (Some 9) (Some 0%nat) None (Some None).

Definition dnntf_cfg : Config := demo_cfg false true false false false false false false.

Definition demo_dnntf_state : @State Z Z nat :=
  mkState dnntf_cfg map_globals 0%nat [[0; 0]] ∅ [] [] [].

(** A pool run of the demo batch: the task of [a.txt] finishes first; the
    task of [b.txt] runs in a worker where Keras is enabled and
    [model_keras] is not bound, and fails. *)
Definition demo_task (f : string) : @Task Z Z :=
  mkTask f 20 [3; 1; 3; 2] 10 30 30 "summary_2017-01-01_00-00-00.csv" "learn.txt".

Definition demo_worker (c : Config) (g : @Globals Z)
    (fs : gmap string (list (list (@cell Z)))) : @State Z Z nat :=
  mkState c g 0%nat [] fs [] [] [].

Definition demo_pool_start : gmap string (list (list (@cell Z))) :=
  st_files (LearnPredictBatch (demo_world []) "learn.txt" (demo_batch_state true)).2.

Definition demo_pool_files : gmap string (list (list (@cell Z))) :=
  st_files (run_task (demo_world []) (demo_task "a.txt")
              (demo_worker (st_cfg (demo_batch_state true)) batch_globals
                 demo_pool_start)).2.

(** The demo world with a [predTF] that returns an array of predictions:
    the object 33, which holds the label 3 at indices 0 and 1, and the
    probability 93.  No other object can be subscripted. *)
Definition tf_array_world : @World Z Z nat :=
  let W := demo_world [] in
  mkWorld (w_learn W) (w_map W)
    (λ fn args, if String.eqb fn "predTF" then answer true [] fn (33, 93) else w_pair W fn args)
    (w_one W) (w_unit W) (w_pca W) (w_splitext_root W) (w_now W) (w_uninit W)
    (λ o i, if (o =? 33)%Z && (i <? 2)%nat then Some 3 else None).

(** Raw TensorFlow only. *)
Definition tf_cfg : Config := demo_cfg false false false false false true false false.

(** Map runs over the two pixels of the demo map: raw TensorFlow with
    K-Means, and raw TensorFlow alone. *)
Definition tf_km_run : (exn + unit) * @State Z Z nat :=
  LearnPredictMap tf_array_world "learn.txt" "map.txt" (demo_state tf_km_cfg no_globals []).

Definition tf_run : (exn + unit) * @State Z Z nat :=
  LearnPredictMap tf_array_world "learn.txt" "map.txt" (demo_state tf_cfg no_globals []).

(** * Proofs *)

Section Proofs.
Context {obj label ext : Type}.
Context (W : @World obj label ext).

Implicit Types (s : @State obj label ext) (tr : list (@event obj label)).

Local Arguments processed : simpl never.

(** ** Running binds *)

Lemma bind_run {A B} (m : M A) (k : A → M B) s :
  (m ≫= k) s = match m s with
               | (inr a, s') => k a s'
               | (inl e, s') => (inl e, s')
               end.
Proof. reflexivity. Qed.

Ltac mrun :=
  unfold fmap, M_fmap in *;
  unfold call_pair, call_one, call_proc, call_learn, extcall, global, local, item, attr,
    get_cfg, set_cfg, get_globals, print, append_row, raise,
    mbind, M_bind, mret, M_ret in *; cbn in *.

Ltac mcases := repeat (case_match; simplify_eq/=).

(** ** The log *)

Lemma processed_app tr1 tr2 : processed (tr1 ++ tr2) = processed tr1 ++ processed tr2.
Proof. unfold processed. apply bind_app. Qed.

Lemma processed_call tr fn args : processed (tr ++ [Call fn args]) = processed tr.
Proof. rewrite processed_app. unfold processed at 2. cbn. by rewrite app_nil_r. Qed.

Lemma predicted_intro fn args c w p q w' :
  w_pair W fn args c w = (Some (p, q), w') → predicted W fn p q.
Proof. intros E. exists args, c, w. by rewrite E. Qed.

Lemma clustered_intro args c w p w' :
  w_one W "runKMmain" args c w = (Some p, w') → clustered W p.
Proof. intros E. exists args, c, w. by rewrite E. Qed.

(** ** The per-family sections of batch mode *)

Ltac block_off E :=
  rewrite ?E; cbn; split_and!; try done; exists []; by rewrite app_nil_r.

Ltac block_on :=
  mcases; rewrite ?processed_call; split_and!; try done;
  eexists; (split; [done|]); cbn;
  eauto 10 using predicted_intro, clustered_intro.

Lemma batch_dnntf_post A Cl R root row s :
  block_post W DNNTF row s (batch_dnntf W A Cl R root row s).
Proof.
  unfold block_post, batch_dnntf. mrun.
  destruct (dnntf_runDNNTF (dnntfDef (st_cfg s))) eqn:E; cbn; [|block_off E].
  destruct (dnntf_runSkflowDNNTF (dnntfDef (st_cfg s))) eqn:E'; cbn; block_on.
Qed.

Lemma batch_keras_post En A Cl R root row s :
  block_post W Keras row s (batch_keras W En A Cl R root row s).
Proof.
  unfold block_post, batch_keras. mrun.
  destruct (keras_runKeras (kerasDef (st_cfg s))) eqn:E; cbn; [|block_off E].
  block_on.
Qed.

Lemma batch_nn_post A Cl R root row s :
  block_post W NN row s (batch_nn W A Cl R root row s).
Proof.
  unfold block_post, batch_nn. mrun.
  destruct (nn_runNN (nnDef (st_cfg s))) eqn:E; cbn; [|block_off E].
  block_on.
Qed.

Lemma batch_svm_post En A Cl R root row s :
  block_post W SVM row s (batch_svm W En A Cl R root row s).
Proof.
  unfold block_post, batch_svm. mrun.
  destruct (svm_runSVM (svmDef (st_cfg s))) eqn:E; cbn; [|block_off E].
  block_on.
Qed.

Lemma batch_tf_post A Cl R root row s :
  block_post W TF row s (batch_tf W A Cl R root row s).
Proof.
  unfold block_post, batch_tf. mrun.
  destruct (tf_runTF (tfDef (st_cfg s))) eqn:E; cbn; [|block_off E].
  block_on.
Qed.

Lemma batch_km_post En A Cl R Aorig Rorig row s :
  block_post W KM row s (batch_km W En A Cl R Aorig Rorig row s).
Proof.
  unfold block_post, batch_km. mrun.
  destruct (km_runKM (kmDef (st_cfg s))) eqn:E; cbn; [|block_off E].
  block_on.
Qed.

Lemma enabled_clear_if b m c m' :
  enabled (clear_if b (setter m) c) m' = enabled c m'.
Proof. by destruct b, m, m'. Qed.

Lemma batch_cleared_steps c :
  clear_if (enabled c KM) (setter KM)
    (clear_if (enabled c TF) (setter TF)
       (clear_if (enabled c SVM) (setter SVM)
          (clear_if (enabled c NN) (setter NN)
             (clear_if (enabled c Keras) (setter Keras)
                (clear_if (enabled c DNNTF) (setter DNNTF) c))))) = batch_cleared c.
Proof. unfold batch_cleared. by destruct (enabled c Keras). Qed.

Lemma same_switches_refl c : same_switches c c.
Proof. by split. Qed.

Lemma same_switches_step c c1 c2 m :
  same_switches c c1 →
  c2 = clear_if (enabled c1 m) (setter m) c1 →
  same_switches c c2.
Proof.
  intros [E K] ->. split.
  - intros m'. by rewrite enabled_clear_if.
  - rewrite <- K. by destruct (enabled c1 m), m.
Qed.

Lemma block_transport c c' g g' m blk :
  same_switches c c' → g' = g →
  (if enabled c' m then block_of W c' g' m blk else blk = []) →
  if enabled c m then block_of W c g m blk else blk = [].
Proof.
  intros [E K] ->. rewrite E. destruct (enabled c m); [|done].
  destruct m; cbn; by rewrite ?K.
Qed.

(** ** One file of the batch *)

Local Arguments batch_dnntf : simpl never.
Local Arguments batch_keras : simpl never.
Local Arguments batch_nn : simpl never.
Local Arguments batch_svm : simpl never.
Local Arguments batch_tf : simpl never.
Local Arguments batch_km : simpl never.

Lemma processSingleBatch_spec f En Cl A Aorig Y sf lf s r s' :
  processSingleBatch W f En Cl A Aorig Y sf lf s = (r, s') →
  st_globals s' = st_globals s ∧ st_pool s' = st_pool s ∧
  processed (st_trace s') = processed (st_trace s) ++ [f] ∧
  match r with
  | inl _ => st_files s' = st_files s
  | inr _ =>
      st_cfg s' = batch_cleared (st_cfg s) ∧
      ∃ row, st_files s' = <[sf := default [] (st_files s !! sf) ++ [row]]> (st_files s) ∧
             row_layout W (st_cfg s) (st_globals s) f row
  end.
Proof.
  unfold processSingleBatch. rewrite bind_run. unfold print at 1.
  set (s0 := log _ s).
  assert (F0 : st_files s0 = st_files s ∧ st_globals s0 = st_globals s ∧
               st_pool s0 = st_pool s ∧ st_cfg s0 = st_cfg s ∧
               processed (st_trace s0) = processed (st_trace s) ++ [f]).
  { subst s0. unfold log. cbn [st_files st_globals st_pool st_cfg st_trace].
    split_and!; try done. by rewrite processed_app. }
  clearbody s0. destruct F0 as (Ff & Fg & Fp & Fc & Ft).
  rewrite bind_run. unfold call_pair at 1, extcall.
  destruct (w_pair W "readPredFile" _ _ _) as [[[R Rx]|] w1]; cbn;
    [|intros [= <- <-]; cbn; rewrite processed_call; by split_and!].
  rewrite bind_run. unfold call_pair at 1, extcall. cbn.
  destruct (w_pair W "preProcessNormPredData" _ _ _) as [[[R' Rorig]|] w2]; cbn;
    [|intros [= <- <-]; cbn; rewrite !processed_call; by split_and!].
  match goal with |- (_ ≫= _) ?t = _ → _ => set (s1 := t) end.
  assert (F1 : st_files s1 = st_files s ∧ st_globals s1 = st_globals s ∧
               st_pool s1 = st_pool s ∧ st_cfg s1 = st_cfg s ∧
               processed (st_trace s1) = processed (st_trace s) ++ [f]).
  { subst s1. cbn. rewrite !processed_call. by split_and!. }
  clearbody s1. clear dependent s0. destruct F1 as (Ff & Fg & Fp & Fc & Ft).
  rewrite bind_run.
  lazymatch goal with |- context [batch_dnntf W ?a ?b ?c ?d ?row ?st] =>
    pose proof (batch_dnntf_post a b c d row st) as B1 end.
  destruct (batch_dnntf _ _ _ _ _ _ s1) as [[e|row1] s2];
    destruct B1 as (B1f & B1g & B1p & B1t & B1); cbn [fst snd] in *;
    [intros [= <- <-]; split_and!; congruence|].
  destruct B1 as (C1 & b1 & -> & H1).
  rewrite bind_run.
  lazymatch goal with |- context [batch_keras W ?a ?b ?c ?d ?e ?row ?st] =>
    pose proof (batch_keras_post a b c d e row st) as B2 end.
  destruct (batch_keras _ _ _ _ _ _ _ s2) as [[e|row2] s3];
    destruct B2 as (B2f & B2g & B2p & B2t & B2); cbn [fst snd] in *;
    [intros [= <- <-]; split_and!; congruence|].
  destruct B2 as (C2 & b2 & -> & H2).
  rewrite bind_run.
  lazymatch goal with |- context [batch_nn W ?a ?b ?c ?d ?row ?st] =>
    pose proof (batch_nn_post a b c d row st) as B3 end.
  destruct (batch_nn _ _ _ _ _ _ s3) as [[e|row3] s4];
    destruct B3 as (B3f & B3g & B3p & B3t & B3); cbn [fst snd] in *;
    [intros [= <- <-]; split_and!; congruence|].
  destruct B3 as (C3 & b3 & -> & H3).
  rewrite bind_run.
  lazymatch goal with |- context [batch_svm W ?a ?b ?c ?d ?e ?row ?st] =>
    pose proof (batch_svm_post a b c d e row st) as B4 end.
  destruct (batch_svm _ _ _ _ _ _ _ s4) as [[e|row4] s5];
    destruct B4 as (B4f & B4g & B4p & B4t & B4); cbn [fst snd] in *;
    [intros [= <- <-]; split_and!; congruence|].
  destruct B4 as (C4 & b4 & -> & H4).
  rewrite bind_run.
  lazymatch goal with |- context [batch_tf W ?a ?b ?c ?d ?row ?st] =>
    pose proof (batch_tf_post a b c d row st) as B5 end.
  destruct (batch_tf _ _ _ _ _ _ s5) as [[e|row5] s6];
    destruct B5 as (B5f & B5g & B5p & B5t & B5); cbn [fst snd] in *;
    [intros [= <- <-]; split_and!; congruence|].
  destruct B5 as (C5 & b5 & -> & H5).
  rewrite bind_run.
  lazymatch goal with |- context [batch_km W ?a ?b ?c ?d ?e ?g ?row ?st] =>
    pose proof (batch_km_post a b c d e g row st) as B6 end.
  destruct (batch_km _ _ _ _ _ _ _ _ s6) as [[e|row6] s7];
    destruct B6 as (B6f & B6g & B6p & B6t & B6); cbn [fst snd] in *;
    [intros [= <- <-]; split_and!; congruence|].
  destruct B6 as (C6 & b6 & -> & H6).
  unfold append_row. intros [= <- <-].
  cbn [st_globals st_pool st_trace st_cfg st_files upd_files].
  split_and!; try congruence.
  - rewrite C6, C5, C4, C3, C2, C1, !enabled_clear_if, Fc.
    apply batch_cleared_steps.
  - eexists. split.
    { rewrite B6f, B5f, B4f, B3f, B2f, B1f, Ff. reflexivity. }
    exists (λ m, match m with
                 | DNNTF => b1 | Keras => b2 | NN => b3
                 | SVM => b4 | TF => b5 | KM => b6
                 end).
    split; [cbn; by rewrite <- !app_assoc, app_nil_r|].
    assert (S1 : same_switches (st_cfg s) (st_cfg s1)) by (rewrite Fc; apply same_switches_refl).
    pose proof (same_switches_step _ _ _ _ S1 C1) as S2.
    pose proof (same_switches_step _ _ _ _ S2 C2) as S3.
    pose proof (same_switches_step _ _ _ _ S3 C3) as S4.
    pose proof (same_switches_step _ _ _ _ S4 C4) as S5.
    pose proof (same_switches_step _ _ _ _ S5 C5) as S6.
    intros [];
      [ eapply (block_transport _ _ _ _ _ _ S1), H1
      | eapply (block_transport _ _ _ _ _ _ S2), H2
      | eapply (block_transport _ _ _ _ _ _ S3), H3
      | eapply (block_transport _ _ _ _ _ _ S4), H4
      | eapply (block_transport _ _ _ _ _ _ S5), H5
      | eapply (block_transport _ _ _ _ _ _ S6), H6 ]; congruence.
Qed.

(** ** The sequential loop *)





Lemma batch_loop_spec En Cl A Aorig Y sf lf l s r s' content :
  for_each l (batch_body W En Cl A Aorig Y sf lf) s = (r, s') →
  st_files s !! sf = Some content →
  ∃ done rows,
    processed (st_trace s') = processed (st_trace s) ++ done ∧
    done `prefix_of` filter (λ f, f ≠ lf) l ∧
    match r with inr _ => done = filter (λ f, f ≠ lf) l | inl _ => True end ∧
    st_files s' !! sf = Some (content ++ rows) ∧
    Forall (λ row, ∃ f rest, row = CStr f :: rest ∧ f ∈ l ∧ f ≠ lf) rows.
Proof.
  revert s content. induction l as [|f l IH]; intros s content.
  - intros [= <- <-] Hc. exists [], []. rewrite !app_nil_r. by split_and!.
  - cbn [for_each]. rewrite bind_run. unfold batch_body at 1.
    case_bool_decide as Hf; cbn [mret M_ret].
    2:{ rewrite filter_cons_False by (intros ?; congruence). intros E Hc.
        destruct (IH _ _ E Hc) as (done & rows & ? & ? & ? & ? & Hr).
        exists done, rows. split_and!; try done.
        eapply Forall_impl; [exact Hr|]. intros row (f' & rest & -> & ? & ?).
        exists f', rest. split_and!; try done. by right. }
    rewrite filter_cons_True by done.
    destruct (processSingleBatch _ _ _ _ _ _ _ _ _ s) as [[e|[]] s1] eqn:E1;
      apply processSingleBatch_spec in E1 as (_ & _ & Ht & E1).
    + intros [= <- <-] Hc. exists [f], []. rewrite app_nil_r.
      split_and!; try done; [|congruence].
      by apply prefix_cons, prefix_nil.
    + destruct E1 as (_ & row & Hfs & (blk & -> & _)).
      intros E Hc.
      assert (Hc1 : st_files s1 !! sf = Some (content ++ [CStr f :: concat (blk <$> batch_order)])).
      { rewrite Hfs, lookup_insert_eq, Hc. done. }
      destruct (IH _ _ E Hc1) as (done & rows & Hd & Hp & Hr & Hl & Hrows).
      exists (f :: done), ((CStr f :: concat (blk <$> batch_order)) :: rows).
      split_and!.
      * rewrite Hd, Ht. by rewrite <- app_assoc.
      * by apply prefix_cons.
      * destruct r; [done|]. by rewrite Hr.
      * rewrite Hl. by rewrite <- app_assoc.
      * constructor.
        -- eexists _, _. split_and!; try done. by left.
        -- eapply Forall_impl; [exact Hrows|]. intros row (f' & rest & -> & ? & ?).
           exists f', rest. split_and!; try done. by right.
Qed.

(** The loop that queues the tasks, lines 164-166. *)
Lemma queue_loop_spec En Cl A Aorig Y sf lf l s :
  for_each l (λ f, if bool_decide (f ≠ lf)
                   then apply_async (mkTask f En Cl A Aorig Y sf lf)
                   else mret ()) s
  = (inr (), upd_pool (st_pool s ++
       ((λ f, mkTask f En Cl A Aorig Y sf lf) <$> filter (λ f, f ≠ lf) l)) s).
Proof.
  revert s. induction l as [|f l IH]; intros s.
  - cbn. rewrite app_nil_r. by destruct s.
  - cbn [for_each]. rewrite bind_run.
    case_bool_decide;
      [rewrite filter_cons_True by done
      |rewrite filter_cons_False by (intros ?; congruence)].
    + unfold apply_async at 1. rewrite IH. cbn. by rewrite <- app_assoc.
    + cbn [mret M_ret]. apply IH.
Qed.

(** ** The calling process of batch mode *)

Local Arguments processSingleBatch : simpl never.
Local Arguments for_each : simpl never.

Lemma LearnPredictBatch_inv lf s r s' :
  LearnPredictBatch W lf s = (r, s') →
  let name := "summary" +:+ w_now W (st_world s) in
  ∃ s0,
    st_files s0 = <[name := default [] (st_files s !! name) ++ [header_row lf]]> (st_files s) ∧
    st_pool s0 = st_pool s ∧ st_cwd s0 = st_cwd s ∧ st_cfg s0 = st_cfg s ∧
    processed (st_trace s0) = processed (st_trace s) ∧
    ( (∃ e, r = inl e ∧ st_files s' = st_files s0 ∧ st_pool s' = st_pool s0 ∧
            processed (st_trace s') = processed (st_trace s0))
    ∨ (∃ En Cl A Aorig Y, sys_multiProc (sysDef (st_cfg s)) = false ∧
          for_each (filter (λ f, glob_match f = true) (st_cwd s))
            (batch_body W En Cl A Aorig Y name lf) s0 = (r, s'))
    ∨ (∃ En Cl A Aorig Y, sys_multiProc (sysDef (st_cfg s)) = true ∧ r = inr () ∧
          st_files s' = st_files s0 ∧
          processed (st_trace s') = processed (st_trace s0) ∧
          st_pool s' = (λ f, mkTask f En Cl A Aorig Y name lf) <$> batch_targets lf (st_cwd s)) ).
Proof.
  unfold LearnPredictBatch, makeHeaderSummary. mrun.
  destruct (w_learn W "readLearnFile" _ _ _) as [[[[[En Cl] A] Y]|] w1]; cbn.
  2:{ intros [= <- <-]. eexists (upd_files _ s). cbn. split_and!; try done.
      left. eexists. cbn. rewrite processed_call. by split_and!. }
  destruct (w_learn W "preProcessNormLearningData" _ _ _) as [[[[[A' Cl'] En'] Aorig]|] w2]; cbn.
  2:{ intros [= <- <-]. eexists (upd_files _ s). cbn. split_and!; try done.
      left. eexists. cbn. rewrite !processed_call. by split_and!. }
  destruct (sys_multiProc (sysDef (st_cfg s))) eqn:Emp; cbn.
  - unfold mp_Pool. destruct (sys_numCores (sysDef (st_cfg s)) <? 1)%Z; cbn.
    { intros [= <- <-]. eexists (upd_files _ s). cbn. split_and!; try done.
      left. eexists. cbn. rewrite !processed_call. by split_and!. }
    unfold glob_txt. cbn. rewrite queue_loop_spec. intros [= <- <-].
    eexists (upd_files _ s). cbn. split_and!; try done.
    right; right. exists En', Cl', A', Aorig, Y. cbn. rewrite !processed_call.
    by split_and!.
  - unfold glob_txt. cbn. intros E.
    eexists (log _ (upd_world w2 (log _ (upd_world w1 (upd_files _ s))))). cbn.
    rewrite !processed_call. split_and!; try done.
    right; left. exists En', Cl', A', Aorig, Y. split; [done|]. exact E.
Qed.

(** ** The worker pool *)

Lemma task_step_spec t fs fs' content :
  task_step W t fs fs' →
  fs !! t_summary_filename t = Some content →
  fs' = fs ∨ ∃ rest, fs' = <[t_summary_filename t := content ++ [CStr (t_f t) :: rest]]> fs.
Proof.
  intros (s & <- & <-) Hc. unfold run_task.
  destruct (processSingleBatch _ _ _ _ _ _ _ _ _ s) as [[e|[]] s1] eqn:E;
    apply processSingleBatch_spec in E as (_ & _ & _ & E); cbn.
  - by left.
  - destruct E as (_ & row & -> & (blk & -> & _)). right.
    eexists. by rewrite Hc.
Qed.

Lemma pool_join_spec (P : string → Prop) name ts fs fs' content :
  pool_join W ts fs fs' →
  Forall (λ t, t_summary_filename t = name ∧ P (t_f t)) ts →
  fs !! name = Some content →
  ∃ rows, fs' !! name = Some (content ++ rows) ∧
          Forall (λ row, ∃ f rest, row = CStr f :: rest ∧ P f) rows.
Proof.
  intros Hj. revert content. induction Hj as [fs|ts1 t ts2 fs fs1 fs2 Ht Hj IH];
    intros content Hts Hc.
  - exists []. by rewrite app_nil_r.
  - apply Forall_app in Hts as [Hts1 Hts2].
    apply Forall_cons in Hts2 as [[Hn Hp] Hts2].
    assert (Hts' : Forall (λ t, t_summary_filename t = name ∧ P (t_f t)) (ts1 ++ ts2))
      by (by apply Forall_app).
    rewrite <- Hn in Hc.
    destruct (task_step_spec _ _ _ _ Ht Hc) as [->|[rest ->]].
    + rewrite Hn in Hc. by apply IH.
    + rewrite Hn in *.
      destruct (IH (content ++ [CStr (t_f t) :: rest]) Hts') as (rows & Hl & Hr).
      { by rewrite lookup_insert_eq. }
      exists ((CStr (t_f t) :: rest) :: rows). split.
      * by rewrite Hl, <- app_assoc.
      * constructor; [by eexists _, _|done].
Qed.

Lemma block_of_length c g m blk : block_of W c g m blk → length blk = width m.
Proof.
  destruct m; cbn;
    [intros (? & ? & -> & _)|intros (? & ? & -> & _)|intros (? & ? & -> & _)
    |intros (? & ? & -> & _)|intros (? & ? & ? & -> & _)|intros (? & -> & _)]; done.
Qed.

Lemma row_layout_length c g f row :
  row_layout W c g f row → length row = row_width c.
Proof.
  intros (blk & -> & Hb).
  assert (L : ∀ m, length (blk m) = if enabled c m then width m else 0%nat).
  { intros m. specialize (Hb m).
    destruct (enabled c m); [by eapply block_of_length|by rewrite Hb]. }
  unfold row_width, batch_order. cbn.
  rewrite !length_app, !L. cbn. lia.
Qed.


Lemma queued_names (En : obj) (Cl : list label) (A Aorig Y : obj) sf lf (l : list string) :
  t_f <$> ((λ f, mkTask f En Cl A Aorig Y sf lf) <$> l) = l.
Proof. induction l as [|f l IH]; cbn; [done|]. by rewrite IH. Qed.

(** * The claims *)

(** C1 (as amended): when [processSingleBatch] returns for a file, it has
    appended exactly one row to the summary file.  The row starts with the
    file name and continues with the fields of the enabled families in the
    order DNN-TF, Keras, NN, SVM, raw TensorFlow, K-Means: label and
    confidence of the family's predictor for the first four; label,
    confidence and [tfAccur] for raw TensorFlow; the one value of
    [runKMmain] for K-Means.  So it has 1 + 2+2+2+2+3+1 fields, counting
    the enabled families only. *)
Theorem C1_summary_row_layout f En Cl A Aorig Y sf lf s s' :
  processSingleBatch W f En Cl A Aorig Y sf lf s = (inr (), s') →
  ∃ row,
    st_files s' = <[sf := default [] (st_files s !! sf) ++ [row]]> (st_files s) ∧
    row_layout W (st_cfg s) (st_globals s) f row ∧
    length row = row_width (st_cfg s).
Proof.
  intros E. apply processSingleBatch_spec in E as (_ & _ & _ & _ & row & Hf & Hl).
  exists row. split_and!; try done. by eapply row_layout_length.
Qed.

(** C6: if processing a file raises (a collaborator failed, or a name was
    unbound), the summary files are what they were before the file was
    taken up: no row, and no partial row, is written for it. *)
Theorem C6_failed_file_leaves_no_row f En Cl A Aorig Y sf lf s e s' :
  processSingleBatch W f En Cl A Aorig Y sf lf s = (inl e, s') →
  st_files s' = st_files s.
Proof.
  intros E. by apply processSingleBatch_spec in E as (_ & _ & _ & E).
Qed.



(** C7: batch mode writes the header row once, before it reads the training
    file and before any file is processed or any task queued.  In every
    summary file a run can leave, sequential or on the pool, the rows this
    run added are the header row followed by rows of processed files, and
    none of those is the header row. *)
Theorem C7_header_precedes_data_rows lf s fs :
  batch_files W lf s fs →
  ∃ rows,
    fs !! ("summary" +:+ w_now W (st_world s))
      = Some (default [] (st_files s !! ("summary" +:+ w_now W (st_world s)))
              ++ header_row lf :: rows) ∧
    Forall (data_row lf (st_cwd s)) rows ∧
    header_row lf ∉ rows.
Proof.
  unfold batch_files.
  destruct (LearnPredictBatch W lf s) as [r s'] eqn:E.
  apply LearnPredictBatch_inv in E as (s0 & Hf0 & Hp0 & Hc0 & Hcfg0 & Ht0 & E).
  set (name := "summary" +:+ w_now W (st_world s)) in *.
  set (old := default [] (st_files s !! name)) in *.
  assert (H0 : st_files s0 !! name = Some (old ++ [header_row lf]))
    by (by rewrite Hf0, lookup_insert_eq).
  intros Hfs.
  assert (∃ rows, fs !! name = Some ((old ++ [header_row lf]) ++ rows) ∧
            Forall (λ row, ∃ f rest, row = CStr f :: rest ∧
                      f ∈ batch_targets lf (st_cwd s)) rows) as (rows & Hl & Hr).
  { destruct E as [(e & -> & Hf1 & _)|[(En & Cl & A & Aorig & Y & Emp & E)
                  |(En & Cl & A & Aorig & Y & Emp & -> & Hf1 & _ & Hp1)]].
    - cbn in Hfs. subst fs. exists []. split; [|done]. by rewrite (app_nil_r (old ++ _)), Hf1.
    - rewrite Emp in Hfs.
      assert (fs = st_files s') as -> by (by destruct r).
      eapply batch_loop_spec in E as (done & rows & _ & _ & _ & Hl & Hr); [|exact H0].
      exists rows. split; [done|].
      eapply Forall_impl; [exact Hr|]. intros row (f & rest & -> & Hin & Hne).
      exists f, rest. split; [done|]. unfold batch_targets.
      by apply list_elem_of_filter.
    - rewrite Emp in Hfs.
      eapply (pool_join_spec (λ f, f ∈ batch_targets lf (st_cwd s)) name) in Hfs;
        [exact Hfs| |by rewrite Hf1].
      rewrite Hp1. apply Forall_fmap, Forall_forall. by intros f Hf. }
  exists rows. split_and!.
  - by rewrite Hl, <- app_assoc.
  - done.
  - intros Hin. eapply Forall_forall in Hr; [|exact Hin].
    destruct Hr as (f & rest & [= -> <-] & Hf).
    unfold batch_targets in Hf. apply list_elem_of_filter in Hf. tauto.
Qed.

(** ** Map mode *)

Implicit Types (e : @MapEnv obj label).

Local Arguments trainings : simpl never.
Local Arguments calls_in : simpl never.

Ltac mrun_map :=
  unfold saveMap, setitem, getitem, set_dnnDef_alwaysRetrain in *; mrun.

Lemma calls_in_snoc names tr (ev : @event obj label) :
  calls_in names (tr ++ [ev]) = calls_in names tr ++ (if named names ev then [ev] else []).
Proof. unfold calls_in. rewrite bind_app. cbn. by rewrite app_nil_r. Qed.

Lemma trainings_snoc tr (ev : @event obj label) :
  trainings (tr ++ [ev]) = trainings tr ++ (if named fitting ev then [ev] else []).
Proof. apply calls_in_snoc. Qed.

(** *** The trainings before the loop *)

Ltac train_block :=
  mrun; repeat case_match; simplify_eq/=; intros; simplify_eq/=;
  rewrite ?trainings_snoc, ?app_nil_r; cbn; by rewrite ?app_nil_r.

Lemma train_nn_spec A Cl root s o s' :
  train_nn W A Cl root s = (inr o, s') →
  st_heap s' = st_heap s ∧ st_cfg s' = st_cfg s ∧
  trainings (st_trace s') = trainings (st_trace s) ++
    when (enabled (st_cfg s) NN)
      [Call "trainNN" [AObj A; ACl Cl; AObj A; ACl Cl; AStr root]].
Proof. unfold train_nn, when. train_block. Qed.

Lemma train_dnntf_spec A Cl root s o s' :
  train_dnntf W A Cl root s = (inr o, s') →
  st_heap s' = st_heap s ∧ st_cfg s' = st_cfg s ∧
  trainings (st_trace s') = trainings (st_trace s) ++
    when (enabled (st_cfg s) DNNTF)
      [Call (if dnntf_runSkflowDNNTF (dnntfDef (st_cfg s))
             then "trainDNNTF2" else "trainDNNTF")
            [AObj A; ACl Cl; AObj A; ACl Cl; AStr root]].
Proof. unfold train_dnntf, when. train_block. Qed.

Lemma train_keras_spec En A Cl root s o s' :
  train_keras W En A Cl root s = (inr o, s') →
  st_heap s' = st_heap s ∧ st_cfg s' = st_cfg s ∧
  trainings (st_trace s') = trainings (st_trace s) ++
    when (enabled (st_cfg s) Keras)
      [Call "trainKeras" [AObj En; AObj A; ACl Cl; AObj A; ACl Cl; AStr root]].
Proof. unfold train_keras, when. train_block. Qed.

Lemma train_svm_spec A Cl root s o s' :
  train_svm W A Cl root s = (inr o, s') →
  st_heap s' = st_heap s ∧ st_cfg s' = st_cfg s ∧
  trainings (st_trace s') = trainings (st_trace s) ++
    when (enabled (st_cfg s) SVM)
      [Call "trainSVM" [AObj A; ACl Cl; AObj A; ACl Cl; AStr root]].
Proof. unfold train_svm, when. train_block. Qed.

Local Arguments train_nn : simpl never.
Local Arguments train_dnntf : simpl never.
Local Arguments train_keras : simpl never.
Local Arguments train_svm : simpl never.

Lemma map_setup_spec lf mf s e v s1 :
  map_setup W lf mf s = (inr (e, v), s1) →
  m_svmPred e = length (st_heap s) ∧ m_nnPred e = length (st_heap s) ∧
  m_kmPred e = length (st_heap s) ∧ v_tfPred v = Ref (length (st_heap s)) ∧
  v_i v = 0%nat ∧
  st_heap s1 = st_heap s ++ [w_uninit W <$> seq 0 (length (m_X e))] ∧
  st_cfg s1 = st_cfg s ∧
  trainings (st_trace s1) = trainings (st_trace s) ++ setup_trainings (st_cfg s) e.
Proof.
  unfold map_setup. rewrite bind_run. unfold call_learn at 1, extcall.
  destruct (w_learn W "readLearnFile" _ _ _) as [[[[[En Cl] A] Y]|] w1]; cbn; [|done].
  rewrite bind_run. cbn.
  destruct (w_map W "readPredMap" _ _ _) as [[[[[X Yc] R] Rx]|] w2]; cbn; [|done].
  rewrite bind_run. unfold np_empty at 1. cbn.
  rewrite bind_run. unfold call_learn at 1, extcall. cbn.
  destruct (w_learn W "preProcessNormLearningData" _ _ _) as [[[[[A' Cl'] En'] Aorig]|] w3];
    cbn; [|done].
  rewrite bind_run. unfold print at 1. cbn.
  match goal with |- (_ ≫= _) ?t = _ → _ => set (s0 := t) end.
  assert (F0 : st_heap s0 = st_heap s ++ [w_uninit W <$> seq 0 (length X)] ∧
               st_cfg s0 = st_cfg s ∧ trainings (st_trace s0) = trainings (st_trace s)).
  { subst s0. cbn. rewrite !trainings_snoc. cbn. by rewrite !app_nil_r. }
  clearbody s0. destruct F0 as (Fh & Fc & Ft).
  rewrite bind_run.
  destruct (train_nn _ _ _ _ s0) as [[?|nn] t1] eqn:E1; [done|].
  apply train_nn_spec in E1 as (H1h & H1c & H1t).
  rewrite bind_run.
  destruct (train_dnntf _ _ _ _ t1) as [[?|dnntf] t2] eqn:E2; [done|].
  apply train_dnntf_spec in E2 as (H2h & H2c & H2t).
  rewrite bind_run.
  destruct (train_keras _ _ _ _ _ t2) as [[?|keras] t3] eqn:E3; [done|].
  apply train_keras_spec in E3 as (H3h & H3c & H3t).
  rewrite bind_run.
  destruct (train_svm _ _ _ _ t3) as [[?|svm] t4] eqn:E4; [done|].
  apply train_svm_spec in E4 as (H4h & H4c & H4t).
  intros [= <- <- <-]. cbn.
  split_and!; try done; try congruence.
  rewrite H4t, H3t, H2t, H1t, Ft, H3c, H2c, H1c, Fc.
  unfold setup_trainings, full_set. cbn. by rewrite <- !app_assoc.
Qed.

(** *** The sections of the loop body *)

Ltac pixel_off := intros [= <-]; rewrite ?app_nil_r; split; [done|apply same_switches_refl].
Ltac pixel_on :=
  intros Hrun; mcases; rewrite !trainings_snoc; cbn; rewrite ?app_nil_r;
  (split; [done|by split]).

Lemma pixel_dnntf_spec e i r s s' :
  pixel_dnntf W e i r s = (inr (), s') →
  trainings (st_trace s') = trainings (st_trace s) ∧ same_switches (st_cfg s) (st_cfg s').
Proof.
  unfold pixel_dnntf. mrun_map.
  destruct (dnntf_runDNNTF (dnntfDef (st_cfg s))) eqn:E; cbn; [|pixel_off].
  destruct (dnntf_runSkflowDNNTF (dnntfDef (st_cfg s))) eqn:E'; cbn; pixel_on.
Qed.

Lemma pixel_keras_spec e i r s s' :
  pixel_keras W e i r s = (inr (), s') →
  trainings (st_trace s') = trainings (st_trace s) ∧ same_switches (st_cfg s) (st_cfg s').
Proof.
  unfold pixel_keras. mrun_map.
  destruct (dnntf_runKeras (dnntfDef (st_cfg s))) as [[]|] eqn:E; cbn;
    [|pixel_off|done].
  pixel_on.
Qed.

Lemma pixel_nn_spec e i r s s' :
  pixel_nn W e i r s = (inr (), s') →
  trainings (st_trace s') = trainings (st_trace s) ∧ same_switches (st_cfg s) (st_cfg s').
Proof.
  unfold pixel_nn. mrun_map.
  destruct (nn_runNN (nnDef (st_cfg s))) eqn:E; cbn; [|pixel_off].
  pixel_on.
Qed.

Lemma pixel_svm_spec e i r s s' :
  pixel_svm W e i r s = (inr (), s') →
  trainings (st_trace s') = trainings (st_trace s) ∧ same_switches (st_cfg s) (st_cfg s').
Proof.
  unfold pixel_svm. mrun_map.
  destruct (svm_runSVM (svmDef (st_cfg s))) eqn:E; cbn; [|pixel_off].
  pixel_on.
Qed.

Lemma pixel_tf_spec e tfPred i r s p s' :
  pixel_tf W e tfPred i r s = (inr p, s') →
  trainings (st_trace s') = trainings (st_trace s) ++
    when (enabled (st_cfg s) TF) [Call "trainTF" (full_set e)] ∧
  same_switches (st_cfg s) (st_cfg s') ∧
  if enabled (st_cfg s) TF
  then ∃ l c, predicted W "predTF" l c ∧ p = Val l
  else p = tfPred.
Proof.
  unfold pixel_tf, when, full_set. mrun_map.
  destruct (tf_runTF (tfDef (st_cfg s))) eqn:E; cbn.
  2:{ intros [= <- <-]. rewrite app_nil_r. split_and!; [done|apply same_switches_refl|done]. }
  intros Hrun; mcases; rewrite !trainings_snoc; cbn; rewrite ?app_nil_r.
  split_and!; [done|by split|eauto using predicted_intro].
Qed.

Lemma pixel_km_spec e i r rorig s s' :
  pixel_km W e i r rorig s = (inr (), s') →
  trainings (st_trace s') = trainings (st_trace s) ++
    when (enabled (st_cfg s) KM)
      [Call "runKMmain" [AObj (m_A e); ACl (m_Cl e); AObj (m_En e);
                         AObj r; AObj (m_Aorig e); AObj rorig]] ∧
  same_switches (st_cfg s) (st_cfg s').
Proof.
  unfold pixel_km, when. mrun_map.
  destruct (km_runKM (kmDef (st_cfg s))) eqn:E; cbn.
  2:{ intros [= <-]. rewrite app_nil_r. split; [done|apply same_switches_refl]. }
  intros Hrun; mcases; rewrite !trainings_snoc; cbn; rewrite ?app_nil_r.
  split; [done|by split].
Qed.

Local Arguments pixel_dnntf : simpl never.
Local Arguments pixel_keras : simpl never.
Local Arguments pixel_nn : simpl never.
Local Arguments pixel_svm : simpl never.
Local Arguments pixel_tf : simpl never.
Local Arguments pixel_km : simpl never.

Lemma same_switches_trans c1 c2 c3 :
  same_switches c1 c2 → same_switches c2 c3 → same_switches c1 c3.
Proof. intros [E1 K1] [E2 K2]. split; [intros m|]; congruence. Qed.

Lemma pixel_trainings_switches c c' e evs :
  same_switches c c' → pixel_trainings c' e evs → pixel_trainings c e evs.
Proof. intros [E _] (r & rorig & ->). exists r, rorig. by rewrite !E. Qed.

(** *** One turn of the loop *)

Lemma map_pixel_spec e v r s v' s' :
  map_pixel W e v r s = (inr v', s') →
  (∃ evs, trainings (st_trace s') = trainings (st_trace s) ++ evs ∧
          pixel_trainings (st_cfg s) e evs) ∧
  same_switches (st_cfg s) (st_cfg s') ∧
  v_i v' = S (v_i v) ∧
  if enabled (st_cfg s) TF
  then ∃ l c, predicted W "predTF" l c ∧ v_tfPred v' = Val l
  else v_tfPred v' = v_tfPred v.
Proof.
  unfold map_pixel. rewrite bind_run. unfold call_pair at 1, extcall.
  destruct (w_pair W "preProcessNormPredData" _ _ _) as [[[r' rorig]|] w1]; cbn; [|done].
  match goal with |- (_ ≫= _) ?t = _ → _ => set (s0 := t) end.
  assert (F0 : st_cfg s0 = st_cfg s ∧ trainings (st_trace s0) = trainings (st_trace s)).
  { subst s0. cbn. rewrite !trainings_snoc. cbn. by rewrite !app_nil_r. }
  clearbody s0. destruct F0 as (Fc & Ft).
  rewrite bind_run.
  destruct (pixel_dnntf _ _ _ _ s0) as [[?|[]] t1] eqn:E1; [done|].
  apply pixel_dnntf_spec in E1 as (T1 & S1).
  rewrite bind_run.
  destruct (pixel_keras _ _ _ _ t1) as [[?|[]] t2] eqn:E2; [done|].
  apply pixel_keras_spec in E2 as (T2 & S2).
  rewrite bind_run.
  destruct (pixel_nn _ _ _ _ t2) as [[?|[]] t3] eqn:E3; [done|].
  apply pixel_nn_spec in E3 as (T3 & S3).
  rewrite bind_run.
  destruct (pixel_svm _ _ _ _ t3) as [[?|[]] t4] eqn:E4; [done|].
  apply pixel_svm_spec in E4 as (T4 & S4).
  rewrite bind_run.
  destruct (pixel_tf _ _ _ _ _ t4) as [[?|tfPred] t5] eqn:E5; [done|].
  apply pixel_tf_spec in E5 as (T5 & S5 & P5).
  rewrite bind_run.
  destruct (pixel_km _ _ _ _ _ t5) as [[?|[]] t6] eqn:E6; [done|].
  apply pixel_km_spec in E6 as (T6 & S6).
  intros [= <- <-]. cbn [v_i v_tfPred].
  assert (S04 : same_switches (st_cfg s) (st_cfg t4)).
  { rewrite <- Fc. eauto using same_switches_trans. }
  assert (S05 : same_switches (st_cfg s) (st_cfg t5)) by eauto using same_switches_trans.
  split_and!.
  - eexists. split.
    + rewrite T6, T5, T4, T3, T2, T1, Ft, <- app_assoc. reflexivity.
    + exists r', rorig. destruct S04 as [E4' _], S05 as [E5' _]. by rewrite E4', E5'.
  - eauto using same_switches_trans.
  - lia.
  - destruct S04 as [E _]. rewrite E in P5. exact P5.
Qed.

Local Arguments map_pixel : simpl never.

(** *** The loop *)

Lemma map_loop_spec e R v s v' s' :
  map_loop W e v R s = (inr v', s') →
  (∃ per, trainings (st_trace s') = trainings (st_trace s) ++ concat per ∧
          length per = length R ∧
          Forall (pixel_trainings (st_cfg s) e) per) ∧
  same_switches (st_cfg s) (st_cfg s') ∧
  v_i v' = (v_i v + length R)%nat ∧
  (R = [] → v_tfPred v' = v_tfPred v) ∧
  (enabled (st_cfg s) TF = false → v_tfPred v' = v_tfPred v) ∧
  (enabled (st_cfg s) TF = true → R ≠ [] →
     ∃ l c, predicted W "predTF" l c ∧ v_tfPred v' = Val l).
Proof.
  revert v s. induction R as [|r R IH]; intros v s.
  - intros [= <- <-]. split_and!.
    + exists []. by rewrite app_nil_r.
    + apply same_switches_refl.
    + cbn. lia.
    + done.
    + done.
    + by intros _ ?.
  - cbn [map_loop]. rewrite bind_run.
    destruct (map_pixel _ _ _ _ s) as [[?|v1] s1] eqn:E1; [done|].
    apply map_pixel_spec in E1 as ((evs & T1 & P1) & S1 & I1 & F1).
    intros E2. apply IH in E2 as ((per & T2 & L2 & P2) & S2 & I2 & N2 & Off2 & On2).
    split_and!.
    + exists (evs :: per). split_and!.
      * rewrite T2, T1. cbn. by rewrite <- app_assoc.
      * cbn. by rewrite L2.
      * constructor; [done|].
        eapply Forall_impl; [exact P2|]. intros ?. by apply pixel_trainings_switches.
    + eauto using same_switches_trans.
    + cbn. lia.
    + done.
    + intros Etf. rewrite Etf in F1. rewrite Off2; [done|].
      destruct S1 as [E1 _]. by rewrite E1.
    + intros Etf _. rewrite Etf in F1. destruct R as [|r2 R].
      * rewrite N2 by done. done.
      * apply On2; [|done]. destruct S1 as [E1 _]. by rewrite E1.
Qed.

(** *** Calls a computation never makes *)

Lemma quiet_ret names {A} (a : A) : @quiet obj label ext names A (mret a).
Proof. by intros s r s' [= <- <-]. Qed.

Lemma quiet_raise names {A} err : @quiet obj label ext names A (raise err).
Proof. by intros s r s' [= <- <-]. Qed.

Lemma quiet_bind names {A B} (m : @M obj label ext A) (k : A → @M obj label ext B) :
  quiet names m → (∀ a, quiet names (k a)) → quiet names (m ≫= k).
Proof.
  intros Hm Hk s r s'. rewrite bind_run.
  destruct (m s) as [[err|a] s1] eqn:E.
  - intros [= <- <-]. by eapply Hm.
  - intros E2. apply Hk in E2. apply Hm in E. congruence.
Qed.

Lemma quiet_get_cfg names : @quiet obj label ext names Config get_cfg.
Proof. by intros s r s' [= <- <-]. Qed.

Lemma quiet_set_cfg names f : @quiet obj label ext names unit (set_cfg f).
Proof. by intros s r s' [= <- <-]. Qed.

Lemma quiet_global names {A} name (proj : Globals → option A) :
  @quiet obj label ext names A (global name proj).
Proof. unfold global. intros s r s'. mrun. by case_match; intros [= <- <-]. Qed.

Lemma quiet_local names {A} name (v : option A) : @quiet obj label ext names A (local name v).
Proof. destruct v; [apply quiet_ret|apply quiet_raise]. Qed.

Lemma quiet_attr names {A} cls name (v : option A) :
  @quiet obj label ext names A (attr cls name v).
Proof. destruct v; [apply quiet_ret|apply quiet_raise]. Qed.

Lemma quiet_item names {A} (l : list A) i : @quiet obj label ext names A (item l i).
Proof. unfold item. destruct (l !! i); [apply quiet_ret|apply quiet_raise]. Qed.

Lemma quiet_setitem names a i p : @quiet obj label ext names unit (setitem a i p).
Proof. unfold setitem. intros s r s'. repeat case_match; by intros [= <- <-]. Qed.

Lemma quiet_getitem names p i : quiet names (getitem W p i).
Proof. unfold getitem. intros s r s'. repeat case_match; by intros [= <- <-]. Qed.

Lemma quiet_as_arg names p : @quiet obj label ext names _ (as_arg p).
Proof. unfold as_arg. intros s r s'. case_match; by intros [= <- <-]. Qed.

Lemma quiet_set_dnnDef names b : @quiet obj label ext names unit (set_dnnDef_alwaysRetrain b).
Proof.
  unfold set_dnnDef_alwaysRetrain. apply quiet_bind; [apply quiet_global|].
  by intros ? s r s' [= <- <-].
Qed.

Lemma quiet_extcall names {A} fn args (f : @Ext ext A) :
  bool_decide (fn ∈ names) = false → @quiet obj label ext names A (extcall fn args f).
Proof.
  intros Hfn s r s'. unfold extcall. destruct (f _ _) as [[a|] w]; intros [= <- <-]; cbn;
    rewrite calls_in_snoc; cbn; rewrite Hfn; apply app_nil_r.
Qed.

(** A name is not in a list of names, by comparison. *)
Ltac other_name := vm_compute; reflexivity.

Ltac quiet_step :=
  first
    [ apply quiet_ret
    | apply quiet_get_cfg
    | apply quiet_set_cfg
    | apply quiet_global
    | apply quiet_local
    | apply quiet_attr
    | apply quiet_item
    | apply quiet_setitem
    | apply quiet_getitem
    | apply quiet_as_arg
    | apply quiet_set_dnnDef
    | apply quiet_extcall; other_name
    | match goal with |- quiet _ (match ?b with _ => _ end) => destruct b end
    | apply quiet_bind; [|intros ?] ].

(** The loop calls none of the training functions of NN, DNN-TF, Keras
    and SVM, whether it completes or raises. *)
Lemma map_pixel_pretrained e v r : quiet pretrained (map_pixel W e v r).
Proof.
  unfold map_pixel, pixel_dnntf, pixel_keras, pixel_nn, pixel_svm, pixel_tf, pixel_km,
    saveMap, call_pair, call_one, call_proc.
  repeat quiet_step.
Qed.

Lemma map_loop_pretrained e R v : quiet pretrained (map_loop W e v R).
Proof.
  revert v. induction R as [|r R IH]; intros v; cbn [map_loop].
  - apply quiet_ret.
  - apply quiet_bind; [apply map_pixel_pretrained|done].
Qed.

(** *** The plots after the loop *)

Lemma map_plots_spec e v : quiet fitting (map_plots W e v).
Proof. unfold map_plots, plotMaps, call_proc. repeat quiet_step. Qed.

(** *** Stores and reads through the names of line 245 *)

Lemma setitem_getitem a i p s s' :
  setitem a i p s = (inr (), s') →
  getitem W (Ref a) i s' = (inr p, s').
Proof.
  unfold setitem, getitem.
  destruct (st_heap s !! a) as [arr|] eqn:Ha; [|done].
  case_decide as Hi; [|done]. intros [= <-]. cbn.
  rewrite list_lookup_insert_eq by (eapply lookup_lt_Some; eauto).
  by rewrite list_lookup_insert_eq by done.
Qed.

(** C5 (as amended): a map run either raises before the loop is reached,
    or goes through the setup, the loop and, if the loop completes, the
    plots.  The setup makes one training call on the full training set
    for each enabled family among NN, DNN-TF (in the configured variant),
    Keras and SVM, in that order, and no fitting call for raw TensorFlow
    or K-Means.  The loop, whether it completes or raises, makes no
    training call of those four families; when it completes, its fitting
    calls are, for every spectrum of the map, one [trainTF] call on the
    full training set if raw TensorFlow is enabled and one [runKMmain]
    call if K-Means is enabled.  The plots add none. *)
Theorem C5_map_training_schedule lf mf s r3 s3 :
  LearnPredictMap W lf mf s = (r3, s3) →
  (∃ err, map_setup W lf mf s = (inl err, s3) ∧ r3 = inl err) ∨
  ∃ e v s1 r s2,
    map_setup W lf mf s = (inr (e, v), s1) ∧
    map_loop W e v (m_R e) s1 = (r, s2) ∧
    trainings (st_trace s1) = trainings (st_trace s) ++ setup_trainings (st_cfg s) e ∧
    calls_in pretrained (st_trace s2) = calls_in pretrained (st_trace s1) ∧
    match r with
    | inl err => r3 = inl err ∧ s3 = s2
    | inr v' =>
        map_plots W e v' s2 = (r3, s3) ∧
        (∃ per, trainings (st_trace s2) = trainings (st_trace s1) ++ concat per ∧
                length per = length (m_R e) ∧
                Forall (pixel_trainings (st_cfg s) e) per) ∧
        trainings (st_trace s3) = trainings (st_trace s2)
    end.
Proof.
  unfold LearnPredictMap. rewrite bind_run.
  destruct (map_setup W lf mf s) as [[err|[e v]] s1] eqn:E1.
  { intros [= <- <-]. left. by exists err. }
  pose proof (map_setup_spec _ _ _ _ _ _ E1) as (_ & _ & _ & _ & _ & _ & Hc & T1).
  rewrite bind_run.
  destruct (map_loop W e v (m_R e) s1) as [r s2] eqn:E2.
  pose proof (map_loop_pretrained _ _ _ _ _ _ E2) as Hpre.
  destruct r as [err|v'].
  { intros [= <- <-]. right. exists e, v, s1, (inl err), s2. by split_and!. }
  intros E3. right. exists e, v, s1, (inr v'), s2.
  pose proof (map_loop_spec _ _ _ _ _ _ E2) as ((per & T2 & L2 & P2) & _).
  split_and!; try done.
  - exists per. split_and!; try done. by rewrite <- Hc.
  - by eapply map_plots_spec.
Qed.

End Proofs.

(** * The PCA diagnostic and single-file mode *)

Section PcaProofs.
Context {obj label ext : Type} `{EqDecision label}.
Context (label_le : relation label) `{!∀ x y, Decision (label_le x y)}.
Context `{!PartialOrder label_le, !Total label_le}.
Context (W : @World obj label ext).
Implicit Types (s : @State obj label ext) (tr : list (@event obj label)).

(** ** [np.unique] *)

Lemma mask_changes_elem (prev : label) ar x :
  x ∈ mask_changes prev ar → x ∈ ar.
Proof.
  revert prev. induction ar as [|y ar IH]; intros prev; cbn; [done|].
  case_decide.
  - intros Hin. apply elem_of_cons. right. by eapply IH.
  - rewrite !elem_of_cons. intros [->|Hin]; [by left|right; by eapply IH].
Qed.

Lemma elem_mask_changes (prev : label) ar x :
  x ∈ ar → x = prev ∨ x ∈ mask_changes prev ar.
Proof.
  revert prev. induction ar as [|y ar IH]; intros prev; cbn; [by intros ?%elem_of_nil|].
  rewrite elem_of_cons. intros [->|Hin].
  - case_decide; [by left|right; by left].
  - destruct (IH y Hin) as [->|?].
    + case_decide; [by left|right; by left].
    + case_decide; [by right|right; by right].
Qed.

Lemma mask_changes_NoDup (prev : label) ar :
  StronglySorted label_le (prev :: ar) → NoDup (prev :: mask_changes prev ar).
Proof.
  revert prev. induction ar as [|y ar IH]; intros prev Hs; cbn.
  { apply NoDup_singleton. }
  apply StronglySorted_inv in Hs as [Hs Hall].
  specialize (IH y Hs).
  apply Forall_cons in Hall as [Hpy Hall].
  case_decide as Heq.
  - by subst.
  - apply NoDup_cons. split; [|done].
    rewrite elem_of_cons. intros [->|Hin]; [done|].
    apply mask_changes_elem in Hin.
    apply StronglySorted_inv in Hs as [_ Hy].
    eapply Forall_forall in Hy; [|exact Hin].
    apply Heq. by apply (anti_symm label_le).
Qed.

Lemma np_unique_distinct (Cl : list label) :
  length (np_unique label_le Cl) = length (remove_dups Cl).
Proof.
  apply Permutation_length, NoDup_Permutation.
  - unfold np_unique.
    pose proof (StronglySorted_merge_sort label_le Cl) as Hs.
    destruct (merge_sort label_le Cl) as [|x t]; [apply NoDup_nil_2|].
    by apply mask_changes_NoDup.
  - apply NoDup_remove_dups.
  - intros x. rewrite elem_of_remove_dups.
    transitivity (x ∈ merge_sort label_le Cl); [|by rewrite merge_sort_Permutation].
    unfold np_unique. destruct (merge_sort label_le Cl) as [|y t]; [done|].
    rewrite !elem_of_cons. split.
    + intros [->|Hin]; [by left|right; by eapply mask_changes_elem].
    + intros [->|Hin]; [by left|]. apply (elem_mask_changes y) in Hin. tauto.
Qed.

(** ** [runPCA] *)

Local Arguments model_calls : simpl never.
Local Arguments calls_of : simpl never.
Local Arguments np_unique : simpl never.
Local Arguments numPCAcomp : simpl never.

Lemma model_calls_app tr1 tr2 : model_calls (tr1 ++ tr2) = model_calls tr1 ++ model_calls tr2.
Proof. unfold model_calls. apply bind_app. Qed.

Lemma model_calls_snoc tr (ev : @event obj label) :
  model_calls (tr ++ [ev]) = model_calls tr ++ (if is_model_call ev then [ev] else []).
Proof. rewrite model_calls_app. unfold model_calls at 2. cbn. by rewrite app_nil_r. Qed.

Lemma calls_of_app fn tr1 tr2 : calls_of fn (tr1 ++ tr2) = calls_of fn tr1 ++ calls_of fn tr2.
Proof. unfold calls_of. apply bind_app. Qed.

Lemma pca_frame_refl s : pca_frame s s.
Proof. by repeat split. Qed.

Lemma pca_frame_trans s1 s2 s3 : pca_frame s1 s2 → pca_frame s2 s3 → pca_frame s1 s3.
Proof.
  intros (?&?&?&?&?&?&?&Hc1) (?&?&?&?&?&?&?&Hc2).
  split_and!; try congruence. intros fn ??. by rewrite Hc2, Hc1.
Qed.

Lemma pca_frame_print line s : pca_frame s (log (Print line) s).
Proof.
  split_and!; try done.
  - cbn. rewrite model_calls_snoc. cbn. by rewrite app_nil_r.
  - intros fn _ _. cbn. rewrite calls_of_app. unfold calls_of at 2. cbn.
    by rewrite app_nil_r.
Qed.

Lemma print_scores_frame evr idx s :
  pca_frame s (print_scores evr idx s).2 ∧
  st_world (print_scores evr idx s).2 = st_world s ∧
  calls_of "PCA" (st_trace (print_scores evr idx s).2) = calls_of "PCA" (st_trace s).
Proof.
  revert s. induction idx as [|i idx IH]; intros s; cbn [print_scores].
  { split_and!; [apply pca_frame_refl|done..]. }
  rewrite bind_run. unfold item. destruct (evr !! i) as [v|]; cbn.
  2:{ split_and!; [apply pca_frame_refl|done..]. }
  rewrite bind_run. unfold print. cbv beta iota.
  destruct (IH (log (Print [AStr " Score PC "; AInt (Z.of_nat i); AStr ": "; AObj v]) s))
    as (F & Hw & Hc).
  split_and!.
  - eapply pca_frame_trans; [apply pca_frame_print|exact F].
  - by rewrite Hw.
  - rewrite Hc. cbn. rewrite calls_of_app. unfold calls_of at 2. cbn. by rewrite app_nil_r.
Qed.

Local Arguments print_scores : simpl never.

Ltac frame_step :=
  split_and!; try done; cbn;
  [ rewrite !model_calls_snoc; cbn; by rewrite !app_nil_r
  | let fn := fresh "fn" in let H1 := fresh in let H2 := fresh in
    intros fn H1 H2; rewrite !calls_of_app; unfold calls_of at 2; cbn;
    rewrite ?(proj2 (String.eqb_neq _ _) H1), ?(proj2 (String.eqb_neq _ _) H2);
    by rewrite !app_nil_r ].

Lemma pca_frame_call fn args w s :
  fn = "PCA" ∨ fn = "pyplot" →
  pca_frame s (log (Call fn args) (upd_world w s)).
Proof. intros [->| ->]; frame_step. Qed.

Lemma calls_of_print fn line s :
  calls_of fn (st_trace (log (Print line) s)) = calls_of fn (st_trace s).
Proof. cbn. rewrite calls_of_app. unfold calls_of at 2. cbn. by rewrite app_nil_r. Qed.

Lemma runPCA_spec En Cl A Y n s r s' :
  runPCA label_le W En Cl A Y n s = (r, s') →
  pca_frame s s' ∧
  calls_of "PCA" (st_trace s')
    = calls_of "PCA" (st_trace s) ++ [[AInt (numPCAcomp label_le (st_cfg s) Cl n); AObj A]] ∧
  (pca_stateless W → st_world s' = st_world s).
Proof.
  unfold runPCA, print, get_cfg.
  repeat (rewrite bind_run; cbv beta iota).
  set (n' := numPCAcomp label_le _ Cl n).
  set (s1 := @log obj label ext (Print [AStr " Number of Principal components: "; AInt n']) _).
  assert (F1 : pca_frame s s1 ∧ calls_of "PCA" (st_trace s1) = calls_of "PCA" (st_trace s) ∧
               st_world s1 = st_world s).
  { subst s1. split_and!; [|by rewrite !calls_of_print|done].
    repeat (eapply pca_frame_trans; [|apply pca_frame_print]). apply pca_frame_refl. }
  assert (Hn : n' = numPCAcomp label_le (st_cfg s) Cl n) by done.
  clearbody s1 n'. destruct F1 as (F1 & C1 & W1).
  unfold extcall.
  pose proof (λ Hst : pca_stateless W, proj1 Hst n' A (st_cfg s1) (st_world s1)) as Hw1.
  destruct (w_pca W n' A (st_cfg s1) (st_world s1)) as [[pca|] w1]; cbn [fst snd] in *.
  2:{ intros [= <- <-]. split_and!.
      - eapply pca_frame_trans; [exact F1|]. apply pca_frame_call. by left.
      - cbn. rewrite calls_of_app, C1, Hn. done.
      - intros Hst. cbn. rewrite Hw1 by done. done. }
  set (s2 := @log obj label ext (Call "PCA" _) _).
  assert (F2 : pca_frame s s2 ∧
               calls_of "PCA" (st_trace s2) = calls_of "PCA" (st_trace s) ++ [[AInt n'; AObj A]] ∧
               (pca_stateless W → st_world s2 = st_world s)).
  { subst s2. split_and!.
    - eapply pca_frame_trans; [exact F1|]. apply pca_frame_call. by left.
    - cbn. by rewrite calls_of_app, C1.
    - intros Hst. cbn. rewrite Hw1 by done. done. }
  clearbody s2. clear dependent s1. destruct F2 as (F2 & C2 & W2).
  destruct (print_scores_frame (explained_variance_ratio_ pca)
              (seq 0 (length (components_ pca))) s2) as (F3 & W3 & C3).
  rewrite bind_run.
  destruct (print_scores _ _ s2) as [[err|[]] s3]; cbn [fst snd] in *; cbv beta iota.
  { intros [= <- <-].
    split_and!; [by eapply pca_frame_trans|congruence|intros; rewrite W3; auto]. }
  repeat (rewrite bind_run; cbv beta iota).
  set (s4 := log (Print [AStr ""]) s3).
  assert (F4 : pca_frame s s4 ∧
               calls_of "PCA" (st_trace s4) = calls_of "PCA" (st_trace s) ++ [[AInt n'; AObj A]] ∧
               (pca_stateless W → st_world s4 = st_world s)).
  { subst s4. split_and!.
    - eapply pca_frame_trans; [|apply pca_frame_print]. by eapply pca_frame_trans.
    - rewrite calls_of_print. congruence.
    - intros Hst. cbn. rewrite W3. auto. }
  clearbody s4. clear dependent s3. clear dependent s2. destruct F4 as (F4 & C4 & W4).
  subst n'.
  destruct (plot_showPCAPlots (plotDef (st_cfg s4))).
  2:{ intros [= <- <-]. by split_and!. }
  unfold call_proc, extcall.
  match goal with |- context [w_unit W "pyplot" ?args ?c ?w] =>
    pose proof (λ Hst : pca_stateless W, proj2 Hst args c w) as Hw2;
    destruct (w_unit W "pyplot" args c w) as [[[]|] w2]
  end; cbn [fst snd] in *.
  all: intros [= <- <-]; split_and!;
    [ eapply pca_frame_trans; [exact F4|]; apply pca_frame_call; by right
    | cbn; rewrite calls_of_app, C4; unfold calls_of at 3; cbn; by rewrite app_nil_r
    | intros Hst; cbn; rewrite Hw2 by done; auto ].
Qed.

(** C3: [runPCA] asks sklearn for as many components as [Cl] has distinct
    labels when [pcaDef.customNumPCAComp] is off, and for the configured
    number otherwise; this holds for every label vector, the non-empty ones
    included. *)
Theorem C3_pca_component_count En Cl A Y n s :
  numPCAcomp label_le (st_cfg s) Cl n
    = (if pca_customNumPCAComp (pcaDef (st_cfg s)) then n
       else Z.of_nat (length (remove_dups Cl))) ∧
  calls_of "PCA" (st_trace (runPCA label_le W En Cl A Y n s).2)
    = calls_of "PCA" (st_trace s)
      ++ [[AInt (numPCAcomp label_le (st_cfg s) Cl n); AObj A]].
Proof.
  split.
  - unfold numPCAcomp. destruct (pca_customNumPCAComp _); cbn; [done|].
    by rewrite np_unique_distinct.
  - destruct (runPCA label_le W En Cl A Y n s) as [r s'] eqn:E.
    by apply runPCA_spec in E as (_ & E & _).
Qed.

(** ** Runs that differ in the PCA switch *)

Lemma blind_cfg c c' :
  set_pca_runPCA false c = set_pca_runPCA false c' →
  dnntfDef c = dnntfDef c' ∧ nnDef c = nnDef c' ∧ svmDef c = svmDef c' ∧
  tfDef c = tfDef c' ∧ kerasDef c = kerasDef c' ∧ kmDef c = kmDef c' ∧
  plotDef c = plotDef c' ∧ sysDef c = sysDef c'.
Proof. intros [= _ _ ? ? ? ? ? ? ? ?]. by split_and!. Qed.

Lemma sim_ret {A} (a : A) : @sim obj label ext A (mret a) (mret a).
Proof. by intros s s' Hb. Qed.

Lemma sim_bind {A B} (m1 m2 : @M obj label ext A) (k1 k2 : A → @M obj label ext B) :
  sim m1 m2 → (∀ a, sim (k1 a) (k2 a)) → sim (m1 ≫= k1) (m2 ≫= k2).
Proof.
  intros Hm Hk s s' Hb. rewrite !bind_run.
  destruct (Hm s s' Hb) as [E1 E2].
  destruct (m1 s) as [[e|a] t], (m2 s') as [[e'|a'] t']; cbn in *; simplify_eq; [done|].
  by apply Hk.
Qed.

Lemma sim_get_cfg {B} (k1 k2 : Config → @M obj label ext B) :
  (∀ c c', set_pca_runPCA false c = set_pca_runPCA false c' → sim (k1 c) (k2 c')) →
  sim (get_cfg ≫= k1) (get_cfg ≫= k2).
Proof. intros Hk s s' Hb. rewrite !bind_run. cbn. apply Hk; [|done]. apply Hb. Qed.

Lemma sim_set_dnntf_alwaysImprove b :
  @sim obj label ext _ (set_cfg (set_dnntf_alwaysImprove b)) (set_cfg (set_dnntf_alwaysImprove b)).
Proof.
  intros s s' (Hc & ?). split; [done|]. split; [|done]. cbn.
  change (set_dnntf_alwaysImprove b (set_pca_runPCA false (st_cfg s))
          = set_dnntf_alwaysImprove b (set_pca_runPCA false (st_cfg s'))).
  by rewrite Hc.
Qed.

Lemma sim_extcall {A} fn args (f : Ext A) :
  (∀ b c w, f (set_pca_runPCA b c) w = f c w) →
  @sim obj label ext A (extcall fn args f) (extcall fn args f).
Proof.
  intros Hf s s' (Hc & Hw & Hg & Hh & Hfs & Hcwd & Hp & Ht).
  unfold extcall.
  rewrite <- (Hf false (st_cfg s)), <- (Hf false (st_cfg s')), Hc, Hw.
  destruct (f _ _) as [[a|] w']; cbn; (split; [done|]);
    split_and!; cbn; try done; rewrite !model_calls_snoc, Ht; done.
Qed.

Section switch_blind.
Context (Hign : ignores_pca_switch W).

Lemma sim_call_learn fn args : sim (call_learn W fn args) (call_learn W fn args).
Proof. apply sim_extcall. intros. apply Hign. Qed.

Lemma sim_call_pair fn args : sim (call_pair W fn args) (call_pair W fn args).
Proof. apply sim_extcall. intros. apply Hign. Qed.

Lemma sim_call_one fn args : sim (call_one W fn args) (call_one W fn args).
Proof. apply sim_extcall. intros. apply Hign. Qed.

Lemma sim_call_proc fn args :
  fn ≠ "pyplot" → sim (call_proc W fn args) (call_proc W fn args).
Proof. intros Hfn. apply sim_extcall. intros. by apply Hign. Qed.

Ltac sim_step :=
  first
    [ apply sim_ret
    | apply sim_call_pair
    | apply sim_call_learn
    | apply sim_call_one
    | apply sim_call_proc; done
    | apply sim_set_dnntf_alwaysImprove
    | apply sim_get_cfg;
      let c := fresh "c" in let c' := fresh "c'" in let Hc := fresh "Hc" in
      intros c c' Hc; apply blind_cfg in Hc as (?&?&?&?&?&?&?&?);
      repeat match goal with H : _ c = _ c' |- _ => rewrite ?H; clear H end
    | match goal with |- sim (if ?b then _ else _) (if ?b then _ else _) => destruct b end
    | apply sim_bind;
      [|let x := fresh "x" in intros x;
        repeat match goal with y : (_ * _)%type |- _ => destruct y end] ].

Lemma pca_step_on {B} (P : Config → @M obj label ext unit) (k : unit → @M obj label ext B) s :
  pca_runPCA (pcaDef (st_cfg s)) = true →
  (get_cfg ≫= λ c, (if pca_runPCA (pcaDef c) then P c else mret ()) ≫= k) s
  = (P (st_cfg s) ≫= k) s.
Proof. intros E. rewrite bind_run. unfold get_cfg. cbv beta iota. by rewrite E. Qed.

Lemma pca_step_off {B} (P : Config → @M obj label ext unit) (k : unit → @M obj label ext B) s :
  pca_runPCA (pcaDef (st_cfg s)) = false →
  (get_cfg ≫= λ c, (if pca_runPCA (pcaDef c) then P c else mret ()) ≫= k) s
  = k () s.
Proof. intros E. rewrite bind_run. unfold get_cfg. cbv beta iota. by rewrite E. Qed.

(** C8: take the collaborators to ignore the switch [pcaDef.runPCA] and
    the PCA fit and its plots to leave no hidden state behind.  Then a
    single-file run with the PCA diagnostic switched on either raises
    inside the diagnostic, before anything downstream is called, or ends
    as the run with the diagnostic switched off does: same outcome, the
    same calls of the loaders, preprocessors and model adapters with the
    same arguments (feature matrix, labels and energy axis included), and
    the same final state up to the switch and the diagnostic's own log
    entries. *)
Theorem C8_pca_feeds_nothing_downstream lf sf s :
  pca_stateless W →
  let on := LearnPredictFile label_le W lf sf (upd_cfg (set_pca_runPCA true) s) in
  let off := LearnPredictFile label_le W lf sf (upd_cfg (set_pca_runPCA false) s) in
  (on.1 = off.1 ∧ model_calls (st_trace on.2) = model_calls (st_trace off.2) ∧
   pca_blind on.2 off.2)
  ∨ (∃ err, on.1 = inl err ∧
            model_calls (st_trace on.2)
            = model_calls (st_trace s) ++ [Call "readLearnFile" [AStr lf]]).
Proof.
  intros Hst on off. subst on off. unfold LearnPredictFile.
  rewrite !bind_run.
  assert (Hb0 : pca_blind (upd_cfg (set_pca_runPCA true) s) (upd_cfg (set_pca_runPCA false) s))
    by (by split_and!).
  destruct (sim_call_learn "readLearnFile" [AStr lf] _ _ Hb0) as [E1 B1].
  assert (T1 : model_calls (st_trace (call_learn W "readLearnFile" [AStr lf]
                  (upd_cfg (set_pca_runPCA true) s)).2)
               = model_calls (st_trace s) ++ [Call "readLearnFile" [AStr lf]]).
  { unfold call_learn, extcall. case_match. case_match; cbn; by rewrite model_calls_snoc. }
  assert (C1 : pca_runPCA (pcaDef (st_cfg (call_learn W "readLearnFile" [AStr lf]
                  (upd_cfg (set_pca_runPCA true) s)).2)) = true ∧
               pca_runPCA (pcaDef (st_cfg (call_learn W "readLearnFile" [AStr lf]
                  (upd_cfg (set_pca_runPCA false) s)).2)) = false).
  { unfold call_learn, extcall. split; case_match; by case_match. }
  destruct (call_learn W "readLearnFile" [AStr lf] (upd_cfg (set_pca_runPCA true) s))
    as [[e1|[[[En Cl] A] Y]] s1];
  destruct (call_learn W "readLearnFile" [AStr lf] (upd_cfg (set_pca_runPCA false) s))
    as [[e2|d2] s2]; cbn [fst snd] in *; simplify_eq.
  { left. split_and!; try done. apply B1. }
  destruct C1 as [Con Coff].
  rewrite (pca_step_on _ _ s1 Con), (pca_step_off _ _ s2 Coff), bind_run.
  destruct (runPCA label_le W En Cl A Y _ s1) as [[err|[]] s1'] eqn:Epca;
    apply runPCA_spec in Epca as (F & _ & Hw); cbv beta iota.
  { right. exists err. split; [done|]. cbn. destruct F as (_&_&_&_&_&_&->&_). done. }
  match goal with |- context [(?m s1').1] => assert (Hsim : sim m m) end.
  { repeat sim_step. }
  assert (Hb1 : pca_blind s1' s2).
  { destruct B1 as (?&?&?&?&?&?&?&?), F as (Fc&?&?&?&?&?&?&_).
    split_and!; try congruence. rewrite Hw by done. done. }
  destruct (Hsim _ _ Hb1) as [E2 B2].
  left. split_and!; try done. apply B2.
Qed.

End switch_blind.

End PcaProofs.

(** * Further properties of the two files *)

(** ** Rules of the judgements *)

Section JudgementRules.
Context {obj label ext : Type}.
Context (W : @World obj label ext).
Implicit Types (s : @State obj label ext) (tr : list (@event obj label)).

Lemma keeps_ret {X A} (π : @State obj label ext → X) (a : A) : keeps π (mret a).
Proof. by intros s. Qed.

Lemma keeps_raise {X A} (π : @State obj label ext → X) err : keeps π (@raise obj label ext A err).
Proof. by intros s. Qed.

Lemma keeps_bind {X A B} (π : @State obj label ext → X) (m : M A) (k : A → M B) :
  keeps π m → (∀ a, keeps π (k a)) → keeps π (m ≫= k).
Proof.
  intros Hm Hk s. rewrite bind_run. specialize (Hm s).
  destruct (m s) as [[err|a] s1]; [done|]. cbn in Hm. by rewrite Hk.
Qed.

Lemma keeps_get_cfg {X} (π : @State obj label ext → X) : keeps π get_cfg.
Proof. by intros s. Qed.

Lemma keeps_global {X A} (π : @State obj label ext → X) name (proj : Globals → option A) :
  keeps π (global name proj).
Proof. intros s. unfold global, get_globals. rewrite bind_run. by destruct (proj _). Qed.

Lemma keeps_local {X A} (π : @State obj label ext → X) name (v : option A) :
  keeps π (local name v).
Proof. by destruct v. Qed.

Lemma keeps_attr {X A} (π : @State obj label ext → X) cls name (v : option A) :
  keeps π (attr cls name v).
Proof. by destruct v. Qed.

Lemma keeps_item {X A} (π : @State obj label ext → X) (l : list A) i : keeps π (item l i).
Proof. unfold item. by destruct (l !! i). Qed.

Lemma keeps_getitem {X} (π : @State obj label ext → X) p i : keeps π (getitem W p i).
Proof. intros s. unfold getitem. by repeat case_match. Qed.

Lemma keeps_as_arg {X} (π : @State obj label ext → X) p : keeps π (@as_arg obj label ext p).
Proof. intros s. unfold as_arg. by case_match. Qed.

Lemma keeps_set_cfg {X} (π : @State obj label ext → X) f :
  (∀ s, π (upd_cfg f s) = π s) → keeps π (set_cfg f).
Proof. intros H s. apply H. Qed.

Lemma keeps_print {X} (π : @State obj label ext → X) line :
  (∀ s, π (log (Print line) s) = π s) → keeps π (print line).
Proof. intros H s. apply H. Qed.

Lemma keeps_extcall {X A} (π : @State obj label ext → X) fn args (f : @Ext ext A) :
  (∀ w s, π (log (Call fn args) (upd_world w s)) = π s) → keeps π (extcall fn args f).
Proof. intros H s. unfold extcall. destruct (f _ _) as [[a|] w]; apply H. Qed.

Lemma keeps_setitem {X} (π : @State obj label ext → X) a i p :
  (∀ h s, π (upd_heap h s) = π s) → keeps π (setitem a i p).
Proof. intros H s. unfold setitem. repeat case_match; try done. apply H. Qed.

Lemma keeps_append_row {X} (π : @State obj label ext → X) name row :
  (∀ fs s, π (upd_files fs s) = π s) → keeps π (append_row name row).
Proof. intros H s. apply H. Qed.

Lemma keeps_set_dnnDef {X} (π : @State obj label ext → X) b :
  (∀ f s, π (upd_globals f s) = π s) → keeps π (set_dnnDef_alwaysRetrain b).
Proof.
  intros H. unfold set_dnnDef_alwaysRetrain. apply keeps_bind; [apply keeps_global|].
  intros ? s. apply H.
Qed.

Lemma keeps_print_scores {X} (π : @State obj label ext → X) evr idx :
  (∀ line s, π (log (Print line) s) = π s) → keeps π (print_scores evr idx).
Proof.
  intros H. induction idx as [|i idx IH]; cbn [print_scores]; [apply keeps_ret|].
  apply keeps_bind; [apply keeps_item|intros v].
  apply keeps_bind; [by apply keeps_print|done].
Qed.

Lemma keeps_for_each {X A} (π : @State obj label ext → X) (l : list A) body :
  (∀ x, keeps π (body x)) → keeps π (for_each l body).
Proof.
  intros H. induction l as [|x l IH]; cbn [for_each]; [apply keeps_ret|].
  apply keeps_bind; [apply H|done].
Qed.

(** ** Failures *)

Lemma fails_ret ok {A} (a : A) : @fails_at_call obj label ext ok A (mret a).
Proof. by intros s e s'. Qed.

Lemma fails_bind ok {A B} (m : @M obj label ext A) (k : A → @M obj label ext B) :
  fails_at_call ok m → (∀ a, fails_at_call ok (k a)) → fails_at_call ok (m ≫= k).
Proof.
  intros Hm Hk s e s'. rewrite bind_run.
  destruct (m s) as [[e1|a] s1] eqn:E.
  - intros [= <- <-]. by eapply Hm.
  - apply Hk.
Qed.

Lemma fails_get_cfg ok : @fails_at_call obj label ext ok _ get_cfg.
Proof. by intros s e s'. Qed.

Lemma fails_set_cfg ok f : @fails_at_call obj label ext ok _ (set_cfg f).
Proof. by intros s e s'. Qed.

Lemma fails_print ok line : @fails_at_call obj label ext ok _ (print line).
Proof. by intros s e s'. Qed.

Lemma fails_extcall ok {A} fn args (f : @Ext ext A) :
  @fails_at_call obj label ext ok A (extcall fn args f).
Proof.
  intros s e s'. unfold extcall. destruct (f _ _) as [[a|] w]; [done|].
  intros [= <- <-]. by eexists _, _.
Qed.

Lemma fails_item (ok : exn → Prop) {A} (l : list A) i :
  ok IndexError → @fails_at_call obj label ext ok A (item l i).
Proof. intros Hok s e s'. unfold item. destruct (l !! i); [done|]. by intros [= <- <-]. Qed.

Lemma fails_print_scores (ok : exn → Prop) evr idx :
  ok IndexError → @fails_at_call obj label ext ok _ (print_scores evr idx).
Proof.
  intros Hok. induction idx as [|i idx IH]; cbn [print_scores]; [apply fails_ret|].
  apply fails_bind; [by apply fails_item|intros v].
  apply fails_bind; [apply fails_print|done].
Qed.

Lemma fails_global (ok : exn → Prop) {A} name (proj : @Globals obj → option A) :
  ok (NameError name) → @fails_at_call obj label ext ok A (global name proj).
Proof.
  intros Hok s e s'. unfold global, get_globals. rewrite bind_run. cbv beta iota.
  destruct (proj _); [done|]. by intros [= <- <-].
Qed.

Lemma fails_append_row ok name row : @fails_at_call obj label ext ok _ (append_row name row).
Proof. by intros s e s'. Qed.

(** ** Who raises *)

Lemma within_ret names {A} (a : A) : @raises_within obj label ext names A (mret a).
Proof. by intros s fn s'. Qed.

Lemma within_bind names {A B} (m : @M obj label ext A) (k : A → @M obj label ext B) :
  raises_within names m → (∀ a, raises_within names (k a)) → raises_within names (m ≫= k).
Proof.
  intros Hm Hk s fn s'. rewrite bind_run.
  destruct (m s) as [[e1|a] s1] eqn:E.
  - intros [= -> <-]. by eapply Hm.
  - apply Hk.
Qed.

Lemma within_get_cfg names : @raises_within obj label ext names _ get_cfg.
Proof. by intros s fn s'. Qed.

Lemma within_set_cfg names f : @raises_within obj label ext names _ (set_cfg f).
Proof. by intros s fn s'. Qed.

Lemma within_print names line : @raises_within obj label ext names _ (print line).
Proof. by intros s fn s'. Qed.

Lemma within_extcall names {A} fn args (f : @Ext ext A) :
  bool_decide (fn ∈ names) = true → @raises_within obj label ext names A (extcall fn args f).
Proof.
  intros Hin%bool_decide_eq_true_1 s fn' s'. unfold extcall.
  destruct (f _ _) as [[a|] w]; [done|]. by intros [= <- <-].
Qed.

Lemma within_item names {A} (l : list A) i : @raises_within obj label ext names A (item l i).
Proof. intros s fn s'. unfold item. by destruct (l !! i). Qed.

Lemma within_print_scores names evr idx :
  @raises_within obj label ext names _ (print_scores evr idx).
Proof.
  induction idx as [|i idx IH]; cbn [print_scores]; [apply within_ret|].
  apply within_bind; [by apply within_item|intros v].
  apply within_bind; [apply within_print|done].
Qed.

End JudgementRules.

(** ** Proof steps for the judgements *)

Ltac keeps_step side :=
  first
    [ apply keeps_ret
    | apply keeps_raise
    | apply keeps_get_cfg
    | apply keeps_global
    | apply keeps_local
    | apply keeps_attr
    | apply keeps_item
    | apply keeps_getitem
    | apply keeps_as_arg
    | apply keeps_set_cfg; solve [side]
    | apply keeps_print; solve [side]
    | apply keeps_print_scores; solve [side]
    | apply keeps_extcall; solve [side]
    | apply keeps_setitem; solve [side]
    | apply keeps_append_row; solve [side]
    | apply keeps_set_dnnDef; solve [side]
    | match goal with |- keeps _ (match ?b with _ => _ end) => destruct b end
    | apply keeps_bind; [|intros ?] ].

Ltac by_fields := intros; reflexivity.

Ltac by_names :=
  intros; cbn [st_trace log upd_world upd_cfg upd_heap upd_files upd_globals];
  rewrite ?calls_in_snoc; cbn; rewrite ?app_nil_r; reflexivity.

Ltac fails_step :=
  first
    [ apply fails_ret
    | apply fails_get_cfg
    | apply fails_set_cfg
    | apply fails_print
    | apply fails_extcall
    | apply fails_append_row
    | apply fails_print_scores; done
    | apply fails_global; tauto
    | match goal with |- fails_at_call _ (match ?b with _ => _ end) => destruct b end
    | apply fails_bind; [|intros ?] ].

Ltac within_step :=
  first
    [ apply within_ret
    | apply within_get_cfg
    | apply within_set_cfg
    | apply within_print
    | apply within_print_scores
    | apply within_extcall; vm_compute; reflexivity
    | match goal with |- raises_within _ (match ?b with _ => _ end) => destruct b end
    | apply within_bind; [|intros ?] ].

Ltac in_names := apply (bool_decide_unpack _); vm_compute; exact I.

Ltac mrun_goal :=
  unfold fmap, M_fmap;
  unfold call_pair, call_one, call_proc, call_learn, extcall, global, local, item, attr,
    get_cfg, set_cfg, get_globals, print, append_row, raise,
    mbind, M_bind, mret, M_ret; cbn.

Ltac mcases := repeat (case_match; simplify_eq/=).

(** ** Single-file mode: what it leaves alone *)

Section FileModeFrame.
Context {obj label ext : Type} `{EqDecision label}.
Context (label_le : relation label) `{!∀ x y, Decision (label_le x y)}.
Context (W : @World obj label ext).
Implicit Types (s : @State obj label ext) (tr : list (@event obj label)).


End FileModeFrame.

(** ** Single-file mode: the run, call by call *)

Section FileModeRun.
Context {obj label ext : Type} `{EqDecision label}.
Context (label_le : relation label) `{!∀ x y, Decision (label_le x y)}.
Context (W : @World obj label ext).
Implicit Types (s : @State obj label ext) (tr : list (@event obj label)).

Local Arguments model_calls : simpl never.
Local Arguments calls_in : simpl never.

Ltac mrun :=
  unfold fmap, M_fmap in *;
  unfold call_pair, call_one, call_proc, call_learn, extcall, global, local, item, attr,
    get_cfg, set_cfg, get_globals, print, append_row, raise,
    mbind, M_bind, mret, M_ret in *; cbn in *.

Lemma answers_pair_intro fn args c w x w' :
  w_pair W fn args c w = (Some x, w') → answers_pair W fn args x.
Proof. intros E. exists c, w. by rewrite E. Qed.

Lemma answers_learn_intro fn args c w x w' :
  w_learn W fn args c w = (Some x, w') → answers_learn W fn args x.
Proof. intros E. exists c, w. by rewrite E. Qed.

(** One guarded section of [LearnPredictFile]: what it adds to the log. *)

Ltac file_block E :=
  revert E; clear; mrun_goal;
  repeat match goal with
  | |- context [if ?b then _ else _] => destruct b eqn:?; cbn
  end;
  intros E; simplify_eq/=; mcases; rewrite ?model_calls_snoc; cbn; rewrite ?app_nil_r;
  first
    [ by (exists []; rewrite app_nil_r)
    | eexists; split_and!; [rewrite <- ?app_assoc; reflexivity|..]; cbn;
      eauto 10 using answers_pair_intro; done
    | done ].

Lemma LearnPredictFile_spec lf sf s s' :
  LearnPredictFile label_le W lf sf s = (inr (), s') →
  ∃ En0 Cl0 A0 Y R0 Rx En Cl A Aorig R Rorig (blk : family → list (@event obj label)),
    answers_learn W "readLearnFile" [AStr lf] (En0, Cl0, A0, Y) ∧
    answers_pair W "readPredFile" [AStr sf] (R0, Rx) ∧
    answers_learn W "preProcessNormLearningData"
      [AObj A0; AObj En0; ACl Cl0; AObj Y; AInt 0] (A, Cl, En, Aorig) ∧
    answers_pair W "preProcessNormPredData"
      [AObj R0; AObj Rx; AObj En; AObj Y; AInt 0] (R, Rorig) ∧
    model_calls (st_trace s') = model_calls (st_trace s) ++
      [Call "readLearnFile" [AStr lf]; Call "readPredFile" [AStr sf];
       Call "preProcessNormLearningData" [AObj A0; AObj En0; ACl Cl0; AObj Y; AInt 0];
       Call "preProcessNormPredData" [AObj R0; AObj Rx; AObj En; AObj Y; AInt 0]] ++
      blk DNNTF ++ blk NN ++ blk SVM ++ blk TF ++ blk Keras ++
      when (plot_createTrainingDataPlot (plotDef (st_cfg s)))
        [Call "plotTrainData" [AObj A; AObj En; AObj R;
                               ABool (plot_plotAllSpectra (plotDef (st_cfg s)));
                               AStr (w_splitext_root W lf)]] ++
      blk KM ∧
    (∀ m, if enabled (st_cfg s) m
          then file_calls W (st_cfg s) (w_splitext_root W lf) En Cl A Aorig R Rorig m (blk m)
          else blk m = []) ∧
    st_cfg s' = clear_if (enabled (st_cfg s) DNNTF) (set_dnntf_alwaysImprove false) (st_cfg s).
Proof.
  unfold LearnPredictFile. rewrite bind_run. unfold call_learn at 1, extcall.
  destruct (w_learn W "readLearnFile" _ _ _) as [[[[[En0 Cl0] A0] Y]|] w1] eqn:L1; [|done].
  cbv beta iota. rewrite bind_run. unfold get_cfg at 1. cbv beta iota. rewrite bind_run.
  match goal with |- context [match ?b ?t with _ => _ end] =>
    destruct (b t) as [[?|[]] s1] eqn:E1; [done|] end.
  assert (F1 : st_cfg s1 = st_cfg s ∧
               model_calls (st_trace s1)
               = model_calls (st_trace s) ++ [Call "readLearnFile" [AStr lf]]).
  { revert E1. cbn [st_cfg log upd_world]. destruct (pca_runPCA _).
    - intros E1. apply runPCA_spec in E1 as ((Hc & _ & _ & _ & _ & _ & Hm & _) & _).
      split; [done|]. rewrite Hm. cbn. by rewrite model_calls_snoc.
    - intros [= <-]. cbn. by rewrite model_calls_snoc. }
  clear E1. destruct F1 as (C1 & T1).
  rewrite bind_run. unfold call_pair at 1, extcall.
  destruct (w_pair W "readPredFile" _ _ _) as [[[R0 Rx]|] w2] eqn:L2; [|done].
  cbv beta iota. rewrite bind_run. unfold call_learn at 1, extcall. cbn [st_cfg st_world log upd_world].
  destruct (w_learn W "preProcessNormLearningData" _ _ _)
    as [[[[[A Cl] En] Aorig]|] w3] eqn:L3; [|done].
  cbv beta iota. rewrite bind_run. unfold call_pair at 1, extcall. cbn [st_cfg st_world log upd_world].
  destruct (w_pair W "preProcessNormPredData" _ _ _) as [[[R Rorig]|] w4] eqn:L4; [|done].
  cbv beta iota.
  match goal with |- (_ ≫= _) ?t = _ → _ => set (s2 := t) end.
  assert (F2 : st_cfg s2 = st_cfg s ∧
               model_calls (st_trace s2) = model_calls (st_trace s) ++
                 [Call "readLearnFile" [AStr lf]; Call "readPredFile" [AStr sf];
                  Call "preProcessNormLearningData"
                    [AObj A0; AObj En0; ACl Cl0; AObj Y; AInt 0];
                  Call "preProcessNormPredData"
                    [AObj R0; AObj Rx; AObj En; AObj Y; AInt 0]]).
  { subst s2. cbn. rewrite !model_calls_snoc, T1. cbn. by rewrite <- !app_assoc. }
  apply answers_learn_intro in L1, L3. apply answers_pair_intro in L2, L4.
  clearbody s2. clear dependent s1. destruct F2 as (C2 & T2).
  (* DNN-TF *)
  rewrite bind_run. unfold get_cfg at 1. cbv beta iota. rewrite bind_run.
  match goal with |- context [match ?b ?t with _ => _ end] =>
    destruct (b t) as [[?|[]] s3] eqn:E3; [done|] end.
  assert (∃ b, model_calls (st_trace s3) = model_calls (st_trace s2) ++ b ∧
               (if enabled (st_cfg s2) DNNTF
                then file_calls W (st_cfg s2) (w_splitext_root W lf) En Cl A Aorig R Rorig DNNTF b
                else b = []) ∧
               st_cfg s3 = clear_if (enabled (st_cfg s2) DNNTF)
                             (set_dnntf_alwaysImprove false) (st_cfg s2))
    as (b1 & T3 & B1 & C3).
  { file_block E3. }
  clear E3.
  (* NN *)
  rewrite bind_run. unfold get_cfg at 1. cbv beta iota. rewrite bind_run.
  match goal with |- context [match ?b ?t with _ => _ end] =>
    destruct (b t) as [[?|[]] s4] eqn:E4; [done|] end.
  assert (∃ b, model_calls (st_trace s4) = model_calls (st_trace s3) ++ b ∧
               (if enabled (st_cfg s3) NN
                then file_calls W (st_cfg s3) (w_splitext_root W lf) En Cl A Aorig R Rorig NN b
                else b = []) ∧
               st_cfg s4 = st_cfg s3)
    as (b2 & T4 & B2 & C4).
  { file_block E4. }
  clear E4.
  (* SVM *)
  rewrite bind_run. unfold get_cfg at 1. cbv beta iota. rewrite bind_run.
  match goal with |- context [match ?b ?t with _ => _ end] =>
    destruct (b t) as [[?|[]] s5] eqn:E5; [done|] end.
  assert (∃ b, model_calls (st_trace s5) = model_calls (st_trace s4) ++ b ∧
               (if enabled (st_cfg s4) SVM
                then file_calls W (st_cfg s4) (w_splitext_root W lf) En Cl A Aorig R Rorig SVM b
                else b = []) ∧
               st_cfg s5 = st_cfg s4)
    as (b3 & T5 & B3 & C5).
  { file_block E5. }
  clear E5.
  (* TF *)
  rewrite bind_run. unfold get_cfg at 1. cbv beta iota. rewrite bind_run.
  match goal with |- context [match ?b ?t with _ => _ end] =>
    destruct (b t) as [[?|[]] s6] eqn:E6; [done|] end.
  assert (∃ b, model_calls (st_trace s6) = model_calls (st_trace s5) ++ b ∧
               (if enabled (st_cfg s5) TF
                then file_calls W (st_cfg s5) (w_splitext_root W lf) En Cl A Aorig R Rorig TF b
                else b = []) ∧
               st_cfg s6 = st_cfg s5)
    as (b4 & T6 & B4 & C6).
  { file_block E6. }
  clear E6.
  (* Keras *)
  rewrite bind_run. unfold get_cfg at 1. cbv beta iota. rewrite bind_run.
  match goal with |- context [match ?b ?t with _ => _ end] =>
    destruct (b t) as [[?|[]] s7] eqn:E7; [done|] end.
  assert (∃ b, model_calls (st_trace s7) = model_calls (st_trace s6) ++ b ∧
               (if enabled (st_cfg s6) Keras
                then file_calls W (st_cfg s6) (w_splitext_root W lf) En Cl A Aorig R Rorig Keras b
                else b = []) ∧
               st_cfg s7 = st_cfg s6)
    as (b5 & T7 & B5 & C7).
  { file_block E7. }
  clear E7.
  (* the plot of the training data *)
  rewrite bind_run. unfold get_cfg at 1. cbv beta iota. rewrite bind_run.
  match goal with |- context [match ?b ?t with _ => _ end] =>
    destruct (b t) as [[?|[]] s8] eqn:E8; [done|] end.
  assert (model_calls (st_trace s8) = model_calls (st_trace s7) ++
            when (plot_createTrainingDataPlot (plotDef (st_cfg s7)))
              [Call "plotTrainData" [AObj A; AObj En; AObj R;
                                     ABool (plot_plotAllSpectra (plotDef (st_cfg s7)));
                                     AStr (w_splitext_root W lf)]] ∧
          st_cfg s8 = st_cfg s7)
    as (T8 & C8).
  { unfold when. file_block E8; done. }
  clear E8.
  (* K-Means *)
  rewrite bind_run. unfold get_cfg at 1. cbv beta iota.
  intros E9.
  assert (∃ b, model_calls (st_trace s') = model_calls (st_trace s8) ++ b ∧
               (if enabled (st_cfg s8) KM
                then file_calls W (st_cfg s8) (w_splitext_root W lf) En Cl A Aorig R Rorig KM b
                else b = []) ∧
               st_cfg s' = st_cfg s8)
    as (b6 & T9 & B6 & C9).
  { file_block E9. }
  clear E9.
  assert (Sw : ∀ s0, st_cfg s0 = clear_if (enabled (st_cfg s) DNNTF)
                                   (set_dnntf_alwaysImprove false) (st_cfg s) →
               (∀ m, enabled (st_cfg s0) m = enabled (st_cfg s) m) ∧
               trainer (st_cfg s0) DNNTF = trainer (st_cfg s) DNNTF ∧
               batch_predictor (st_cfg s0) DNNTF = batch_predictor (st_cfg s) DNNTF ∧
               plotDef (st_cfg s0) = plotDef (st_cfg s)).
  { intros s0 ->. destruct (enabled (st_cfg s) DNNTF); cbn; split_and!; try done; by intros []. }
  rewrite C2 in C3.
  assert (C8' : st_cfg s8 = clear_if (enabled (st_cfg s) DNNTF)
                              (set_dnntf_alwaysImprove false) (st_cfg s)) by congruence.
  exists En0, Cl0, A0, Y, R0, Rx, En, Cl, A, Aorig, R, Rorig.
  exists (λ m, match m with
               | DNNTF => b1 | NN => b2 | SVM => b3 | TF => b4 | Keras => b5 | KM => b6
               end).
  split_and!; try done.
  - rewrite T9, T8, T7, T6, T5, T4, T3, T2.
    destruct (Sw s7) as (_ & _ & _ & ->); [congruence|].
    by rewrite <- !app_assoc.
  - intros m.
    destruct (Sw s3 C3) as (E3 & Tr3 & Pr3 & _).
    destruct m.
    + rewrite C2 in B1. exact B1.
    + rewrite C6, C5, C4, E3 in B5. exact B5.
    + rewrite E3 in B2. exact B2.
    + rewrite C4, E3 in B3. exact B3.
    + rewrite C5, C4, E3 in B4. exact B4.
    + destruct (Sw s8 C8') as (E8 & _). rewrite E8 in B6. exact B6.
  - congruence.
Qed.

End FileModeRun.

(** ** Single-file mode: adapters, loaders, failures *)

Section FileModeCalls.
Context {obj label ext : Type} `{EqDecision label}.
Context (label_le : relation label) `{!∀ x y, Decision (label_le x y)}.
Context (W : @World obj label ext).
Implicit Types (s : @State obj label ext) (tr : list (@event obj label)).

Local Arguments model_calls : simpl never.
Local Arguments calls_in : simpl never.

Lemma calls_in_app names tr1 tr2 :
  @calls_in obj label names (tr1 ++ tr2) = calls_in names tr1 ++ calls_in names tr2.
Proof. unfold calls_in. apply bind_app. Qed.

Lemma calls_in_cons names (ev : @event obj label) tr :
  calls_in names (ev :: tr) = (if named names ev then [ev] else []) ++ calls_in names tr.
Proof. done. Qed.

Lemma calls_in_nil names : @calls_in obj label names [] = [].
Proof. done. Qed.

(** A filter that lets neither the PCA fit nor the pyplot section through
    sees the log as [model_calls] shows it. *)
Lemma calls_in_model_calls names tr :
  bool_decide ("PCA" ∈ names) = false → bool_decide ("pyplot" ∈ names) = false →
  calls_in names (model_calls tr) = calls_in names tr.
Proof.
  intros H1 H2. induction tr as [|ev tr IH]; [done|].
  change (ev :: tr) with ([ev] ++ tr).
  rewrite model_calls_app, !calls_in_app, IH. f_equal.
  destruct ev as [fn args|line]; [|done].
  unfold model_calls. cbn.
  destruct (String.eqb_spec fn "PCA") as [->|]; cbn.
  { unfold calls_in. cbn. by rewrite H1. }
  destruct (String.eqb_spec fn "pyplot") as [->|]; cbn.
  { unfold calls_in. cbn. by rewrite H2. }
  done.
Qed.

Lemma file_calls_adapters c root En Cl A Aorig R Rorig m evs :
  file_calls W c root En Cl A Aorig R Rorig m evs → calls_in adapters evs = evs.
Proof.
  destruct m; cbn.
  - intros (clf & le & _ & ->). by destruct (dnntf_runSkflowDNNTF _).
  - by intros (clf & le & _ & ->).
  - by intros (clf & le & _ & ->).
  - by intros (clf & le & _ & ->).
  - by intros ->.
  - by intros ->.
Qed.

Lemma file_calls_loaders c root En Cl A Aorig R Rorig m evs :
  file_calls W c root En Cl A Aorig R Rorig m evs → calls_in loaders evs = [].
Proof.
  destruct m; cbn.
  - intros (clf & le & _ & ->). by destruct (dnntf_runSkflowDNNTF _).
  - by intros (clf & le & _ & ->).
  - by intros (clf & le & _ & ->).
  - by intros (clf & le & _ & ->).
  - by intros ->.
  - by intros ->.
Qed.

(** In a run of single-file mode that completes, the adapters are called
    family by family in the order DNN-TF, NN, SVM, raw TensorFlow, Keras,
    K-Means: for each enabled family its training function once, on the
    preprocessed training set as both training and test set, then its
    predictor once, on what the training returned and the preprocessed
    spectrum; K-Means is the one call of [runKMmain].  The adapters of a
    disabled family are not called.  [dnntfDef.alwaysImprove] is turned off
    if DNN-TF is enabled; no other attribute changes. *)
Theorem LearnPredictFile_calls lf sf s s' :
  LearnPredictFile label_le W lf sf s = (inr (), s') →
  ∃ En Cl A Aorig R Rorig (blk : family → list (@event obj label)),
    (∃ args, answers_learn W "preProcessNormLearningData" args (A, Cl, En, Aorig)) ∧
    (∃ args, answers_pair W "preProcessNormPredData" args (R, Rorig)) ∧
    calls_in adapters (st_trace s')
    = calls_in adapters (st_trace s) ++ concat (blk <$> file_order) ∧
    (∀ m, if enabled (st_cfg s) m
          then file_calls W (st_cfg s) (w_splitext_root W lf) En Cl A Aorig R Rorig m (blk m)
          else blk m = []) ∧
    st_cfg s' = clear_if (enabled (st_cfg s) DNNTF) (set_dnntf_alwaysImprove false) (st_cfg s).
Proof.
  intros E. apply LearnPredictFile_spec in E
    as (En0 & Cl0 & A0 & Y & R0 & Rx & En & Cl & A & Aorig & R & Rorig & blk
        & L1 & L2 & L3 & L4 & T & B & C).
  exists En, Cl, A, Aorig, R, Rorig, blk. split_and!; eauto.
  assert (Hb : ∀ m, calls_in adapters (blk m) = blk m).
  { intros m. specialize (B m). destruct (enabled (st_cfg s) m).
    - by eapply file_calls_adapters.
    - by rewrite B. }
  rewrite <- (calls_in_model_calls adapters (st_trace s')), T by done.
  rewrite !calls_in_app, !Hb, calls_in_model_calls by done.
  f_equal. unfold when. cbn. rewrite app_nil_r.
  by destruct (plot_createTrainingDataPlot _).
Qed.

(** In a run of single-file mode that completes, the training file is
    read, then the file to predict, and only then is anything
    preprocessed: the training data first, the spectrum to predict next,
    against the energy axis that the preprocessing of the training data
    returned and the normalisation index of the training file.  Nothing
    else is loaded or preprocessed. *)
Theorem LearnPredictFile_loading lf sf s s' :
  LearnPredictFile label_le W lf sf s = (inr (), s') →
  ∃ En0 Cl0 A0 Y R0 Rx En Cl A Aorig R Rorig,
    answers_learn W "readLearnFile" [AStr lf] (En0, Cl0, A0, Y) ∧
    answers_pair W "readPredFile" [AStr sf] (R0, Rx) ∧
    answers_learn W "preProcessNormLearningData"
      [AObj A0; AObj En0; ACl Cl0; AObj Y; AInt 0] (A, Cl, En, Aorig) ∧
    answers_pair W "preProcessNormPredData"
      [AObj R0; AObj Rx; AObj En; AObj Y; AInt 0] (R, Rorig) ∧
    calls_in loaders (st_trace s') = calls_in loaders (st_trace s) ++
      [Call "readLearnFile" [AStr lf]; Call "readPredFile" [AStr sf];
       Call "preProcessNormLearningData" [AObj A0; AObj En0; ACl Cl0; AObj Y; AInt 0];
       Call "preProcessNormPredData" [AObj R0; AObj Rx; AObj En; AObj Y; AInt 0]].
Proof.
  intros E. apply LearnPredictFile_spec in E
    as (En0 & Cl0 & A0 & Y & R0 & Rx & En & Cl & A & Aorig & R & Rorig & blk
        & L1 & L2 & L3 & L4 & T & B & C).
  exists En0, Cl0, A0, Y, R0, Rx, En, Cl, A, Aorig, R, Rorig. split_and!; try done.
  assert (Hb : ∀ m, calls_in loaders (blk m) = []).
  { intros m. specialize (B m). destruct (enabled (st_cfg s) m).
    - by eapply file_calls_loaders.
    - by rewrite B. }
  rewrite <- (calls_in_model_calls loaders (st_trace s')), T by done.
  rewrite !calls_in_app, !Hb, calls_in_model_calls by done.
  f_equal. unfold when. cbn.
  by destruct (plot_createTrainingDataPlot _).
Qed.

(** Where single-file mode can fail, in the model: at a collaborator,
    which is then the last one called, or with an IndexError while the
    PCA diagnostic prints its scores. *)
Lemma LearnPredictFile_fails lf sf s e s' :
  LearnPredictFile label_le W lf sf s = (inl e, s') →
  match e with
  | Raised fn => ∃ tr args, st_trace s' = tr ++ [Call fn args]
  | IndexError => pca_runPCA (pcaDef (st_cfg s)) = true
  | _ => False
  end.
Proof.
  unfold LearnPredictFile. rewrite bind_run. unfold call_learn at 1, extcall.
  destruct (w_learn W "readLearnFile" _ _ _) as [[[[[En0 Cl0] A0] Y]|] w1].
  2:{ intros [= <- <-]. by eexists _, _. }
  cbv beta iota. rewrite bind_run. unfold get_cfg at 1. cbv beta iota.
  cbn [st_cfg log upd_world].
  destruct (pca_runPCA (pcaDef (st_cfg s))) eqn:Epca.
  - match goal with |- ?m ?t = _ → _ =>
      assert (F : fails_at_call (λ e, e = IndexError) m) end.
    { unfold runPCA, call_learn, call_pair, call_one, call_proc. repeat fails_step. }
    intros E. apply F in E. by destruct e.
  - match goal with |- ?m ?t = _ → _ =>
      assert (F : fails_at_call (λ _, False) m) end.
    { unfold call_learn, call_pair, call_one, call_proc. repeat fails_step. }
    intros E. apply F in E. by destruct e.
Qed.

(** With the plots of the diagnostic off, [runPCA] fails in sklearn's PCA
    or with the IndexError of its score printing, and nowhere else. *)
Lemma runPCA_raises En Cl A Y n s fn s' :
  plot_showPCAPlots (plotDef (st_cfg s)) = false →
  runPCA label_le W En Cl A Y n s = (inl (Raised fn), s') → fn = "PCA".
Proof.
  intros Hshow. unfold runPCA, print, get_cfg.
  repeat (rewrite bind_run; cbv beta iota).
  unfold extcall. cbn [st_cfg st_world log].
  destruct (w_pca W _ A _ _) as [[pca|] w1]; [|by intros [= <- _]].
  cbv beta iota. rewrite bind_run.
  match goal with |- context [print_scores ?evr ?idx ?t] =>
    pose proof (keeps_print_scores st_cfg evr idx (λ _ _, eq_refl) t) as Hc;
    pose proof (within_print_scores [] evr idx t) as Hw;
    destruct (print_scores evr idx t) as [[err|[]] s3]
  end.
  { intros [= -> <-]. specialize (Hw _ _ eq_refl). by apply elem_of_nil in Hw. }
  cbn [snd st_cfg log upd_world] in Hc.
  repeat (rewrite bind_run; cbv beta iota).
  cbn [st_cfg log]. rewrite Hc, Hshow. done.
Qed.

Lemma LearnPredictFile_raises lf sf s fn s' :
  pca_runPCA (pcaDef (st_cfg s)) && plot_showPCAPlots (plotDef (st_cfg s)) = false →
  LearnPredictFile label_le W lf sf s = (inl (Raised fn), s') →
  fn ∈ file_collaborators.
Proof.
  intros Hoff. unfold LearnPredictFile. rewrite bind_run. unfold call_learn at 1, extcall.
  destruct (w_learn W "readLearnFile" _ _ _) as [[[[[En0 Cl0] A0] Y]|] w1].
  2:{ intros [= <- _]. in_names. }
  cbv beta iota. rewrite bind_run. unfold get_cfg at 1. cbv beta iota.
  cbn [st_cfg log upd_world].
  assert (Hrest : ∀ m : @M obj label ext unit,
            raises_within file_collaborators m →
            ∀ s0, m s0 = (inl (Raised fn), s') → fn ∈ file_collaborators).
  { intros m F s0 E. by eapply F. }
  destruct (pca_runPCA (pcaDef (st_cfg s))) eqn:Epca.
  - cbn [andb] in Hoff. rewrite bind_run.
    match goal with |- context [runPCA ?l ?w ?a ?b ?c ?d ?n ?t] =>
      pose proof (runPCA_raises a b c d n t) as Hpca;
      destruct (runPCA l w a b c d n t) as [[e1|[]] s2]
    end.
    { intros [= -> ->]. rewrite (Hpca fn s' Hoff eq_refl). in_names. }
    apply Hrest. unfold call_learn, call_pair, call_one, call_proc. repeat within_step.
  - rewrite bind_run. cbv beta iota.
    apply Hrest. unfold call_learn, call_pair, call_one, call_proc. repeat within_step.
Qed.

(** Single-file mode with the plots of the PCA diagnostic not drawn
    ([pcaDef.runPCA] or [plotDef.showPCAPlots] off, so that lines 62-119
    of [runPCA] are not run).  It fails only where a collaborator fails:
    the exception is the collaborator's, that collaborator is one of the
    loaders, preprocessors, adapters, [plotTrainData] or sklearn's PCA,
    and it is the last one called, so that no later stage of the run is
    started.  The one other exception is an IndexError while the PCA
    diagnostic prints its scores. *)
Theorem LearnPredictFile_failure lf sf s e s' :
  pca_runPCA (pcaDef (st_cfg s)) && plot_showPCAPlots (plotDef (st_cfg s)) = false →
  LearnPredictFile label_le W lf sf s = (inl e, s') →
  match e with
  | Raised fn =>
      fn ∈ file_collaborators ∧ ∃ tr args, st_trace s' = tr ++ [Call fn args]
  | IndexError => pca_runPCA (pcaDef (st_cfg s)) = true
  | _ => False
  end.
Proof.
  intros Hoff E. pose proof (LearnPredictFile_fails _ _ _ _ _ E) as F.
  destruct e; try done. split; [|done]. by eapply LearnPredictFile_raises.
Qed.

End FileModeCalls.

(** ** [trainAccuracy]: the run, call by call *)

Section TrainAccuracyRun.
Context {obj label ext : Type}.
Context (W : @World obj label ext) (V : @TrainWorld obj label ext).
Implicit Types (s : @State obj label ext) (tr : list (@event obj label)).

Local Arguments model_calls : simpl never.
Local Arguments calls_in : simpl never.

Ltac stage E :=
  revert E; clear; mrun_goal;
  repeat match goal with
  | |- context [if ?b then _ else _] => destruct b eqn:?; cbn
  end;
  intros E; simplify_eq/=; mcases; rewrite ?model_calls_snoc; cbn; rewrite ?app_nil_r;
  try done.

Lemma answers_subset_intro args c w x w' :
  w_formatSubset V args c w = (Some x, w') → answers_subset V args x.
Proof. intros E. exists c, w. by rewrite E. Qed.

Lemma trainAccuracy_spec pd lf tf s s' :
  trainAccuracy W V pd lf tf s = (inr (), s') →
  ∃ En0 Cl0 A0 Y A1 Cl1 En_t A_t Cl_t En Cl A Aorig A_test Cl_test En_test Aorig_test,
    let c := st_cfg s in
    let root := w_splitext_root W lf in
    let plot (A En A_test : obj) (suffix : string) :=
      when (plot_createTrainingDataPlot (plotDef c))
        [Call "plotTrainData" [AObj A; AObj En; AObj A_test;
                               ABool (plot_plotAllSpectra (plotDef c));
                               AStr (root +:+ suffix)]] in
    answers_learn W "readLearnFile" [AStr lf] (En0, Cl0, A0, Y) ∧
    (if preproc_subsetCrossValid pd
     then answers_subset V [AObj A0; ACl Cl0; AObj (preproc_percentCrossValid pd)]
            (A1, Cl1, A_t, Cl_t) ∧ En_t = En0
     else (∃ Y2, answers_learn W "readLearnFile" [AStr tf] (En_t, Cl_t, A_t, Y2)) ∧
          A1 = A0 ∧ Cl1 = Cl0) ∧
    answers_learn W "preProcessNormLearningData"
      [AObj A1; AObj En0; ACl Cl1; AObj Y; AInt 0] (A, Cl, En, Aorig) ∧
    answers_learn W "preProcessNormLearningData"
      [AObj A_t; AObj En_t; ACl Cl_t; AObj Y; AInt 0]
      (A_test, Cl_test, En_test, Aorig_test) ∧
    model_calls (st_trace s') = model_calls (st_trace s) ++
      Call "readLearnFile" [AStr lf] ::
      (if preproc_subsetCrossValid pd
       then Call "formatSubset" [AObj A0; ACl Cl0; AObj (preproc_percentCrossValid pd)]
       else Call "readLearnFile" [AStr tf]) ::
      plot A1 En0 A_t "_raw" ++
      [Call "preProcessNormLearningData" [AObj A1; AObj En0; ACl Cl1; AObj Y; AInt 0];
       Call "preProcessNormLearningData" [AObj A_t; AObj En_t; ACl Cl_t; AObj Y; AInt 0]] ++
      accuracy_trainings c root En A Cl A_test Cl_test ++
      plot A En A_test "_norm".
Proof.
  unfold trainAccuracy. rewrite bind_run. unfold call_learn at 1, extcall.
  destruct (w_learn W "readLearnFile" _ _ _) as [[[[[En0 Cl0] A0] Y]|] w1] eqn:L1; [|done].
  cbv beta iota. apply answers_learn_intro in L1.
  match goal with |- (_ ≫= _) ?t = _ → _ => set (s0 := t) end.
  assert (F0 : st_cfg s0 = st_cfg s ∧
               model_calls (st_trace s0)
               = model_calls (st_trace s) ++ [Call "readLearnFile" [AStr lf]]).
  { subst s0. cbn. by rewrite model_calls_snoc. }
  clearbody s0. destruct F0 as (C0 & T0).
  (* the test set *)
  rewrite bind_run.
  match goal with |- context [match ?b ?t with _ => _ end] =>
    destruct (b t) as [[?|[[[[A1 Cl1] En_t] Cl_t] A_t]] s1] eqn:E1; [done|] end.
  assert (F1 : st_cfg s1 = st_cfg s0 ∧
               (if preproc_subsetCrossValid pd
                then answers_subset V [AObj A0; ACl Cl0; AObj (preproc_percentCrossValid pd)]
                       (A1, Cl1, A_t, Cl_t) ∧ En_t = En0
                else (∃ Y2, answers_learn W "readLearnFile" [AStr tf] (En_t, Cl_t, A_t, Y2)) ∧
                     A1 = A0 ∧ Cl1 = Cl0) ∧
               model_calls (st_trace s1) = model_calls (st_trace s0) ++
                 [if preproc_subsetCrossValid pd
                  then Call "formatSubset"
                         [AObj A0; ACl Cl0; AObj (preproc_percentCrossValid pd)]
                  else Call "readLearnFile" [AStr tf]]).
  { stage E1; split_and!; eauto using answers_subset_intro, answers_learn_intro. }
  clear E1. destruct F1 as (C1 & S1 & T1).
  (* the plot of the raw data *)
  rewrite bind_run. unfold get_cfg at 1. cbv beta iota. rewrite bind_run.
  match goal with |- context [match ?b ?t with _ => _ end] =>
    destruct (b t) as [[?|[]] s2] eqn:E2; [done|] end.
  assert (F2 : st_cfg s2 = st_cfg s1 ∧
               model_calls (st_trace s2) = model_calls (st_trace s1) ++
                 when (plot_createTrainingDataPlot (plotDef (st_cfg s1)))
                   [Call "plotTrainData" [AObj A1; AObj En0; AObj A_t;
                      ABool (plot_plotAllSpectra (plotDef (st_cfg s1)));
                      AStr (w_splitext_root W lf +:+ "_raw")]]).
  { unfold when. stage E2. }
  clear E2. destruct F2 as (C2 & T2).
  (* preprocessing *)
  rewrite bind_run. unfold call_learn at 1, extcall.
  destruct (w_learn W "preProcessNormLearningData" _ _ _)
    as [[[[[A Cl] En] Aorig]|] w3] eqn:L3; [|done].
  apply answers_learn_intro in L3.
  cbv beta iota. rewrite bind_run. unfold call_learn at 1, extcall.
  cbn [st_cfg st_world log upd_world].
  destruct (w_learn W "preProcessNormLearningData" _ _ _)
    as [[[[[A_test Cl_test] En_test] Aorig_test]|] w4] eqn:L4; [|done].
  cbv beta iota. apply answers_learn_intro in L4.
  match goal with |- (_ ≫= _) ?t = _ → _ => set (s3 := t) end.
  assert (F3 : st_cfg s3 = st_cfg s2 ∧
               model_calls (st_trace s3) = model_calls (st_trace s2) ++
                 [Call "preProcessNormLearningData"
                    [AObj A1; AObj En0; ACl Cl1; AObj Y; AInt 0];
                  Call "preProcessNormLearningData"
                    [AObj A_t; AObj En_t; ACl Cl_t; AObj Y; AInt 0]]).
  { subst s3. cbn. rewrite !model_calls_snoc. cbn. by rewrite <- !app_assoc. }
  clearbody s3. destruct F3 as (C3 & T3).
  (* DNN-TF *)
  rewrite bind_run. unfold get_cfg at 1. cbv beta iota. rewrite bind_run.
  match goal with |- context [match ?b ?t with _ => _ end] =>
    destruct (b t) as [[?|[]] s4] eqn:E4; [done|] end.
  assert (F4 : st_cfg s4 = st_cfg s3 ∧
               model_calls (st_trace s4) = model_calls (st_trace s3) ++
                 when (enabled (st_cfg s3) DNNTF)
                   [Call (trainer (st_cfg s3) DNNTF)
                      [AObj A; ACl Cl; AObj A_test; ACl Cl_test;
                       AStr (w_splitext_root W lf)]]).
  { unfold when. stage E4. }
  clear E4. destruct F4 as (C4 & T4).
  (* Keras *)
  rewrite bind_run. unfold get_cfg at 1. cbv beta iota. rewrite bind_run.
  match goal with |- context [match ?b ?t with _ => _ end] =>
    destruct (b t) as [[?|[]] s5] eqn:E5; [done|] end.
  assert (F5 : st_cfg s5 = st_cfg s4 ∧
               model_calls (st_trace s5) = model_calls (st_trace s4) ++
                 when (enabled (st_cfg s4) Keras)
                   [Call "trainKeras"
                      [AObj En; AObj A; ACl Cl; AObj A_test; ACl Cl_test;
                       AStr (w_splitext_root W lf)]]).
  { unfold when. stage E5. }
  clear E5. destruct F5 as (C5 & T5).
  (* NN *)
  rewrite bind_run. unfold get_cfg at 1. cbv beta iota. rewrite bind_run.
  match goal with |- context [match ?b ?t with _ => _ end] =>
    destruct (b t) as [[?|[]] s6] eqn:E6; [done|] end.
  assert (F6 : st_cfg s6 = st_cfg s5 ∧
               model_calls (st_trace s6) = model_calls (st_trace s5) ++
                 when (enabled (st_cfg s5) NN)
                   [Call "trainNN"
                      [AObj A; ACl Cl; AObj A_test; ACl Cl_test;
                       AStr (w_splitext_root W lf)]]).
  { unfold when. stage E6. }
  clear E6. destruct F6 as (C6 & T6).
  (* SVM *)
  rewrite bind_run. unfold get_cfg at 1. cbv beta iota. rewrite bind_run.
  match goal with |- context [match ?b ?t with _ => _ end] =>
    destruct (b t) as [[?|[]] s7] eqn:E7; [done|] end.
  assert (F7 : st_cfg s7 = st_cfg s6 ∧
               model_calls (st_trace s7) = model_calls (st_trace s6) ++
                 when (enabled (st_cfg s6) SVM)
                   [Call "trainSVM"
                      [AObj A; ACl Cl; AObj A_test; ACl Cl_test;
                       AStr (w_splitext_root W lf)]]).
  { unfold when. stage E7. }
  clear E7. destruct F7 as (C7 & T7).
  (* raw TensorFlow *)
  rewrite bind_run. unfold get_cfg at 1. cbv beta iota. rewrite bind_run.
  match goal with |- context [match ?b ?t with _ => _ end] =>
    destruct (b t) as [[?|[]] s8] eqn:E8; [done|] end.
  assert (F8 : st_cfg s8 = st_cfg s7 ∧
               model_calls (st_trace s8) = model_calls (st_trace s7) ++
                 when (enabled (st_cfg s7) TF)
                   [Call "trainTF"
                      [AObj A; ACl Cl; AObj A_test; ACl Cl_test;
                       AStr (w_splitext_root W lf)]]).
  { unfold when. stage E8. }
  clear E8. destruct F8 as (C8 & T8).
  (* the plot of the normalised data *)
  rewrite bind_run. unfold get_cfg at 1. cbv beta iota.
  intros E9.
  assert (F9 : model_calls (st_trace s') = model_calls (st_trace s8) ++
                 when (plot_createTrainingDataPlot (plotDef (st_cfg s8)))
                   [Call "plotTrainData" [AObj A; AObj En; AObj A_test;
                      ABool (plot_plotAllSpectra (plotDef (st_cfg s8)));
                      AStr (w_splitext_root W lf +:+ "_norm")]]).
  { unfold when. stage E9. }
  clear E9.
  exists En0, Cl0, A0, Y, A1, Cl1, En_t, A_t, Cl_t, En, Cl, A, Aorig,
    A_test, Cl_test, En_test, Aorig_test.
  cbv zeta. split_and!; try done.
  rewrite F9, T8, T7, T6, T5, T4, T3, T2, T1, T0.
  rewrite C8, C7, C6, C5, C4, C3, C2, C1, C0.
  unfold accuracy_trainings. rewrite <- !app_assoc. reflexivity.
Qed.

End TrainAccuracyRun.

(** ** [trainAccuracy]: stages, test set, failures *)

Section TrainAccuracyCalls.
Context {obj label ext : Type}.
Context (W : @World obj label ext) (V : @TrainWorld obj label ext).
Implicit Types (s : @State obj label ext) (tr : list (@event obj label)).

Local Arguments model_calls : simpl never.
Local Arguments calls_in : simpl never.

(** For a view that is a filter of the log. *)

(** A statement about filtered lists of calls, by cases on the switches. *)
Ltac by_flags :=
  repeat match goal with
  | |- context [if ?b then _ else _] => destruct b
  end; reflexivity.


(** A run of [trainAccuracy] that completes goes through these stages in
    this order: the plot of the raw data (if plots are on), the
    preprocessing of the training set and then of the test set, both with
    the normalisation index of the training file, one training call for
    each enabled family in the order DNN-TF, Keras, NN, SVM, raw
    TensorFlow, each on the preprocessed training set with the
    preprocessed test set as evaluation data, and the plot of the
    normalised data.  K-Means is never run. *)
Theorem trainAccuracy_stages pd lf tf s s' :
  trainAccuracy W V pd lf tf s = (inr (), s') →
  ∃ En0 Y A1 Cl1 En_t A_t Cl_t En Cl A Aorig A_test Cl_test En_test Aorig_test,
    let c := st_cfg s in
    let root := w_splitext_root W lf in
    let plot (A En A_test : obj) (suffix : string) :=
      when (plot_createTrainingDataPlot (plotDef c))
        [Call "plotTrainData" [AObj A; AObj En; AObj A_test;
                               ABool (plot_plotAllSpectra (plotDef c));
                               AStr (root +:+ suffix)]] in
    (∃ Cl0 A0, answers_learn W "readLearnFile" [AStr lf] (En0, Cl0, A0, Y)) ∧
    answers_learn W "preProcessNormLearningData"
      [AObj A1; AObj En0; ACl Cl1; AObj Y; AInt 0] (A, Cl, En, Aorig) ∧
    answers_learn W "preProcessNormLearningData"
      [AObj A_t; AObj En_t; ACl Cl_t; AObj Y; AInt 0]
      (A_test, Cl_test, En_test, Aorig_test) ∧
    calls_in accuracy_stages (st_trace s') = calls_in accuracy_stages (st_trace s) ++
      plot A1 En0 A_t "_raw" ++
      [Call "preProcessNormLearningData" [AObj A1; AObj En0; ACl Cl1; AObj Y; AInt 0];
       Call "preProcessNormLearningData" [AObj A_t; AObj En_t; ACl Cl_t; AObj Y; AInt 0]] ++
      accuracy_trainings c root En A Cl A_test Cl_test ++
      plot A En A_test "_norm".
Proof.
  intros E. apply trainAccuracy_spec in E
    as (En0 & Cl0 & A0 & Y & A1 & Cl1 & En_t & A_t & Cl_t & En & Cl & A & Aorig
        & A_test & Cl_test & En_test & Aorig_test & L1 & S1 & L3 & L4 & T).
  exists En0, Y, A1, Cl1, En_t, A_t, Cl_t, En, Cl, A, Aorig,
    A_test, Cl_test, En_test, Aorig_test.
  cbv zeta in *. split_and!; eauto.
  rewrite <- (calls_in_model_calls accuracy_stages (st_trace s')), T by done.
  rewrite calls_in_app, calls_in_model_calls by done. f_equal.
  unfold accuracy_trainings, when, trainer.
  clear. by_flags.
Qed.

(** Where the test set comes from.  With [preprocDef.subsetCrossValid] on,
    [trainAccuracy] reads the training file and nothing else, whatever its
    outcome: the test file is never opened.  In a run that completes, the
    test set is then what [formatSubset] split off the raw training data
    at [preprocDef.percentCrossValid], on the energy axis of the training
    file; with the switch off it is the content of the test file, and
    [formatSubset] is not called. *)
Theorem trainAccuracy_test_set pd lf tf s :
  let out := trainAccuracy W V pd lf tf s in
  (preproc_subsetCrossValid pd = true →
     calls_in ["readLearnFile"] (st_trace out.2)
     = calls_in ["readLearnFile"] (st_trace s) ++ [Call "readLearnFile" [AStr lf]]) ∧
  (preproc_subsetCrossValid pd = false →
     calls_in ["formatSubset"] (st_trace out.2) = calls_in ["formatSubset"] (st_trace s)) ∧
  (out.1 = inr () →
     ∃ En0 Cl0 A0 Y A1 Cl1 En_t A_t Cl_t,
       answers_learn W "readLearnFile" [AStr lf] (En0, Cl0, A0, Y) ∧
       (if preproc_subsetCrossValid pd
        then answers_subset V [AObj A0; ACl Cl0; AObj (preproc_percentCrossValid pd)]
               (A1, Cl1, A_t, Cl_t) ∧ En_t = En0
        else (∃ Y2, answers_learn W "readLearnFile" [AStr tf] (En_t, Cl_t, A_t, Y2)) ∧
             A1 = A0 ∧ Cl1 = Cl0) ∧
       calls_in loaders (st_trace out.2) = calls_in loaders (st_trace s) ++
         [Call "readLearnFile" [AStr lf];
          if preproc_subsetCrossValid pd
          then Call "formatSubset" [AObj A0; ACl Cl0; AObj (preproc_percentCrossValid pd)]
          else Call "readLearnFile" [AStr tf];
          Call "preProcessNormLearningData" [AObj A1; AObj En0; ACl Cl1; AObj Y; AInt 0];
          Call "preProcessNormLearningData" [AObj A_t; AObj En_t; ACl Cl_t; AObj Y; AInt 0]]).
Proof.
  intros out. subst out. split_and!.
  - intros Hsub. unfold trainAccuracy. rewrite Hsub, bind_run.
    unfold call_learn at 1, extcall.
    destruct (w_learn W "readLearnFile" _ _ _) as [[[[[En0 Cl0] A0] Y]|] w1].
    2:{ cbn. by rewrite calls_in_snoc. }
    cbv beta iota.
    match goal with |- context [(?m ≫= ?k) ?t] =>
      assert (Q : keeps (λ s, calls_in ["readLearnFile"] (st_trace s)) (m ≫= k)) end.
    { unfold call_learn, call_pair, call_one, call_proc. repeat keeps_step by_names. }
    rewrite Q. cbn. by rewrite calls_in_snoc.
  - intros Hsub.
    assert (Q : keeps (λ s, calls_in ["formatSubset"] (st_trace s))
                  (trainAccuracy W V pd lf tf)).
    { unfold trainAccuracy. rewrite Hsub.
      unfold call_learn, call_pair, call_one, call_proc. repeat keeps_step by_names. }
    apply Q.
  - destruct (trainAccuracy W V pd lf tf s) as [[e|[]] s'] eqn:E; [done|]. intros _.
    apply trainAccuracy_spec in E
      as (En0 & Cl0 & A0 & Y & A1 & Cl1 & En_t & A_t & Cl_t & En & Cl & A & Aorig
          & A_test & Cl_test & En_test & Aorig_test & L1 & S1 & L3 & L4 & T).
    exists En0, Cl0, A0, Y, A1, Cl1, En_t, A_t, Cl_t.
    cbv zeta in *. split_and!; try done. cbn [snd].
    rewrite <- (calls_in_model_calls loaders (st_trace s')), T by done.
    rewrite calls_in_app, calls_in_model_calls by done. f_equal.
    unfold accuracy_trainings, when, trainer.
    clear. by_flags.
Qed.

(** [trainAccuracy] fails only where a collaborator fails, and then
    starts nothing more: the collaborator that raised is the last one
    called. *)
Theorem trainAccuracy_failure pd lf tf s e s' :
  trainAccuracy W V pd lf tf s = (inl e, s') →
  ∃ fn tr args, e = Raised fn ∧ st_trace s' = tr ++ [Call fn args].
Proof.
  assert (F : fails_at_call (λ _, False) (trainAccuracy W V pd lf tf)).
  { unfold trainAccuracy, call_learn, call_pair, call_one, call_proc. repeat fails_step. }
  intros E. apply F in E. destruct e; try done.
  destruct E as (tr & args & E). by exists fn, tr, args.
Qed.

End TrainAccuracyCalls.

(** ** One file of a batch: the run, call by call *)

Section BatchFileRun.
Context {obj label ext : Type}.
Context (W : @World obj label ext).
Implicit Types (s : @State obj label ext) (tr : list (@event obj label)).

Local Arguments model_calls : simpl never.
Local Arguments calls_in : simpl never.
Local Arguments processed : simpl never.

Ltac batch_block :=
  mrun_goal;
  repeat match goal with
  | |- context [if ?b then _ else _] => destruct b eqn:?; cbn
  end;
  intros E; simplify_eq/=; mcases; rewrite ?model_calls_snoc; cbn; rewrite ?app_nil_r;
  first
    [ by (exists []; rewrite app_nil_r)
    | eexists; split_and!; [rewrite <- ?app_assoc; reflexivity|..]; cbn;
      eauto 10 using answers_pair_intro; done ].

Lemma batch_dnntf_calls En A Cl R Aorig Rorig root row s row' s' :
  batch_dnntf W A Cl R root row s = (inr row', s') →
  ∃ b, model_calls (st_trace s') = model_calls (st_trace s) ++ b ∧
       if enabled (st_cfg s) DNNTF
       then batch_calls W (st_cfg s) (st_globals s) root En Cl A Aorig R Rorig DNNTF b
       else b = [].
Proof. unfold batch_dnntf. batch_block. Qed.

Lemma batch_keras_calls En A Cl R Aorig Rorig root row s row' s' :
  batch_keras W En A Cl R root row s = (inr row', s') →
  ∃ b, model_calls (st_trace s') = model_calls (st_trace s) ++ b ∧
       if enabled (st_cfg s) Keras
       then batch_calls W (st_cfg s) (st_globals s) root En Cl A Aorig R Rorig Keras b
       else b = [].
Proof. unfold batch_keras. batch_block. Qed.

Lemma batch_nn_calls En A Cl R Aorig Rorig root row s row' s' :
  batch_nn W A Cl R root row s = (inr row', s') →
  ∃ b, model_calls (st_trace s') = model_calls (st_trace s) ++ b ∧
       if enabled (st_cfg s) NN
       then batch_calls W (st_cfg s) (st_globals s) root En Cl A Aorig R Rorig NN b
       else b = [].
Proof. unfold batch_nn. batch_block. Qed.

Lemma batch_svm_calls En A Cl R Aorig Rorig root row s row' s' :
  batch_svm W En A Cl R root row s = (inr row', s') →
  ∃ b, model_calls (st_trace s') = model_calls (st_trace s) ++ b ∧
       if enabled (st_cfg s) SVM
       then batch_calls W (st_cfg s) (st_globals s) root En Cl A Aorig R Rorig SVM b
       else b = [].
Proof. unfold batch_svm. batch_block. Qed.

Lemma batch_tf_calls En A Cl R Aorig Rorig root row s row' s' :
  batch_tf W A Cl R root row s = (inr row', s') →
  ∃ b, model_calls (st_trace s') = model_calls (st_trace s) ++ b ∧
       if enabled (st_cfg s) TF
       then batch_calls W (st_cfg s) (st_globals s) root En Cl A Aorig R Rorig TF b
       else b = [].
Proof. unfold batch_tf. batch_block. Qed.

Lemma batch_km_calls En A Cl R Aorig Rorig root row s row' s' :
  batch_km W En A Cl R Aorig Rorig row s = (inr row', s') →
  ∃ b, model_calls (st_trace s') = model_calls (st_trace s) ++ b ∧
       if enabled (st_cfg s) KM
       then batch_calls W (st_cfg s) (st_globals s) root En Cl A Aorig R Rorig KM b
       else b = [].
Proof. unfold batch_km. batch_block. Qed.

Lemma batch_calls_transport c c' g g' root En Cl A Aorig R Rorig m b :
  same_switches c c' → g' = g →
  (if enabled c' m then batch_calls W c' g' root En Cl A Aorig R Rorig m b else b = []) →
  if enabled c m then batch_calls W c g root En Cl A Aorig R Rorig m b else b = [].
Proof.
  intros [E K] ->. rewrite E. destruct (enabled c m); [|done].
  destruct m; cbn; by rewrite ?K.
Qed.

Local Arguments batch_dnntf : simpl never.
Local Arguments batch_keras : simpl never.
Local Arguments batch_nn : simpl never.
Local Arguments batch_svm : simpl never.
Local Arguments batch_tf : simpl never.
Local Arguments batch_km : simpl never.

Lemma processSingleBatch_run f En Cl A Aorig Y sf lf s s' :
  processSingleBatch W f En Cl A Aorig Y sf lf s = (inr (), s') →
  ∃ R0 Rx R Rorig (blk : family → list (@event obj label)),
    answers_pair W "readPredFile" [AStr f] (R0, Rx) ∧
    answers_pair W "preProcessNormPredData"
      [AObj R0; AObj Rx; AObj En; AObj Y; AInt 0] (R, Rorig) ∧
    model_calls (st_trace s') = model_calls (st_trace s) ++
      [Call "readPredFile" [AStr f];
       Call "preProcessNormPredData" [AObj R0; AObj Rx; AObj En; AObj Y; AInt 0]] ++
      concat (blk <$> batch_order) ∧
    ∀ m, if enabled (st_cfg s) m
         then batch_calls W (st_cfg s) (st_globals s) (w_splitext_root W lf)
                En Cl A Aorig R Rorig m (blk m)
         else blk m = [].
Proof.
  unfold processSingleBatch. rewrite bind_run. unfold print at 1. cbv beta iota.
  rewrite bind_run. unfold call_pair at 1, extcall. cbn [st_cfg st_world log upd_world].
  destruct (w_pair W "readPredFile" _ _ _) as [[[R0 Rx]|] w1] eqn:L1; [|done].
  apply answers_pair_intro in L1.
  cbv beta iota. rewrite bind_run. unfold call_pair at 1, extcall.
  cbn [st_cfg st_world log upd_world].
  destruct (w_pair W "preProcessNormPredData" _ _ _) as [[[R Rorig]|] w2] eqn:L2; [|done].
  apply answers_pair_intro in L2.
  cbv beta iota.
  match goal with |- (_ ≫= _) ?t = _ → _ => set (s1 := t) end.
  assert (F1 : st_cfg s1 = st_cfg s ∧ st_globals s1 = st_globals s ∧
               model_calls (st_trace s1) = model_calls (st_trace s) ++
                 [Call "readPredFile" [AStr f];
                  Call "preProcessNormPredData"
                    [AObj R0; AObj Rx; AObj En; AObj Y; AInt 0]]).
  { subst s1. cbn. rewrite !model_calls_snoc. cbn. by rewrite app_nil_r, <- !app_assoc. }
  clearbody s1. destruct F1 as (Fc & Fg & Ft).
  set (root := w_splitext_root W lf).
  rewrite bind_run.
  destruct (batch_dnntf _ _ _ _ _ _ s1) as [[?|row1] s2] eqn:E1; [done|].
  match type of E1 with batch_dnntf W ?x0 ?x1 ?x2 ?x3 ?x4 ?st = _ =>
    pose proof (batch_dnntf_post W x0 x1 x2 x3 x4 st) as P1 end.
  rewrite E1 in P1.
  destruct P1 as (_ & G1 & _ & _ & C1 & _). cbn [fst snd] in *.
  apply (batch_dnntf_calls En A Cl R Aorig Rorig) in E1 as (b1 & T1 & B1).
  rewrite bind_run.
  destruct (batch_keras _ _ _ _ _ _ _ s2) as [[?|row2] s3] eqn:E2; [done|].
  match type of E2 with batch_keras W ?x0 ?x1 ?x2 ?x3 ?x4 ?x5 ?st = _ =>
    pose proof (batch_keras_post W x0 x1 x2 x3 x4 x5 st) as P2 end.
  rewrite E2 in P2.
  destruct P2 as (_ & G2 & _ & _ & C2 & _). cbn [fst snd] in *.
  apply (batch_keras_calls En A Cl R Aorig Rorig) in E2 as (b2 & T2 & B2).
  rewrite bind_run.
  destruct (batch_nn _ _ _ _ _ _ s3) as [[?|row3] s4] eqn:E3; [done|].
  match type of E3 with batch_nn W ?x0 ?x1 ?x2 ?x3 ?x4 ?st = _ =>
    pose proof (batch_nn_post W x0 x1 x2 x3 x4 st) as P3 end.
  rewrite E3 in P3.
  destruct P3 as (_ & G3 & _ & _ & C3 & _). cbn [fst snd] in *.
  apply (batch_nn_calls En A Cl R Aorig Rorig) in E3 as (b3 & T3 & B3).
  rewrite bind_run.
  destruct (batch_svm _ _ _ _ _ _ _ s4) as [[?|row4] s5] eqn:E4; [done|].
  match type of E4 with batch_svm W ?x0 ?x1 ?x2 ?x3 ?x4 ?x5 ?st = _ =>
    pose proof (batch_svm_post W x0 x1 x2 x3 x4 x5 st) as P4 end.
  rewrite E4 in P4.
  destruct P4 as (_ & G4 & _ & _ & C4 & _). cbn [fst snd] in *.
  apply (batch_svm_calls En A Cl R Aorig Rorig) in E4 as (b4 & T4 & B4).
  rewrite bind_run.
  destruct (batch_tf _ _ _ _ _ _ s5) as [[?|row5] s6] eqn:E5; [done|].
  match type of E5 with batch_tf W ?x0 ?x1 ?x2 ?x3 ?x4 ?st = _ =>
    pose proof (batch_tf_post W x0 x1 x2 x3 x4 st) as P5 end.
  rewrite E5 in P5.
  destruct P5 as (_ & G5 & _ & _ & C5 & _). cbn [fst snd] in *.
  apply (batch_tf_calls En A Cl R Aorig Rorig) in E5 as (b5 & T5 & B5).
  rewrite bind_run.
  destruct (batch_km _ _ _ _ _ _ _ _ s6) as [[?|row6] s7] eqn:E6; [done|].
  apply (batch_km_calls En A Cl R Aorig Rorig (w_splitext_root W lf)) in E6 as (b6 & T6 & B6).
  unfold append_row. intros [= <-]. cbn [st_trace upd_files].
  exists R0, Rx, R, Rorig,
    (λ m, match m with
          | DNNTF => b1 | Keras => b2 | NN => b3 | SVM => b4 | TF => b5 | KM => b6
          end).
  split_and!; try done.
  - rewrite T6, T5, T4, T3, T2, T1, Ft. cbn. by rewrite <- !app_assoc, app_nil_r.
  - assert (S1 : same_switches (st_cfg s) (st_cfg s1))
      by (rewrite Fc; apply same_switches_refl).
    pose proof (same_switches_step _ _ _ _ S1 C1) as S2.
    pose proof (same_switches_step _ _ _ _ S2 C2) as S3.
    pose proof (same_switches_step _ _ _ _ S3 C3) as S4.
    pose proof (same_switches_step _ _ _ _ S4 C4) as S5.
    pose proof (same_switches_step _ _ _ _ S5 C5) as S6.
    intros [];
      [ eapply (batch_calls_transport _ _ _ _ _ _ _ _ _ _ _ _ _ S1), B1
      | eapply (batch_calls_transport _ _ _ _ _ _ _ _ _ _ _ _ _ S2), B2
      | eapply (batch_calls_transport _ _ _ _ _ _ _ _ _ _ _ _ _ S3), B3
      | eapply (batch_calls_transport _ _ _ _ _ _ _ _ _ _ _ _ _ S4), B4
      | eapply (batch_calls_transport _ _ _ _ _ _ _ _ _ _ _ _ _ S5), B5
      | eapply (batch_calls_transport _ _ _ _ _ _ _ _ _ _ _ _ _ S6), B6 ]; congruence.
Qed.

End BatchFileRun.

(** ** Batch mode: the calls *)

Section BatchCalls.
Context {obj label ext : Type}.
Context (W : @World obj label ext).
Implicit Types (s : @State obj label ext) (tr : list (@event obj label)).

Local Arguments model_calls : simpl never.
Local Arguments calls_in : simpl never.
Local Arguments processed : simpl never.
Local Arguments processSingleBatch : simpl never.
Local Arguments for_each : simpl never.

Lemma batch_calls_adapters c g root En Cl A Aorig R Rorig m evs :
  batch_calls W c g root En Cl A Aorig R Rorig m evs → calls_in adapters evs = evs.
Proof.
  destruct m; cbn.
  - intros (clf & le & _ & ->). by destruct (dnntf_runSkflowDNNTF _).
  - by intros (model & le & mk & _ & _ & ->).
  - by intros (clf & le & _ & ->).
  - by intros (clf & le & _ & ->).
  - by intros ->.
  - by intros ->.
Qed.

(** For one file of a batch that is processed to the end, the adapters
    are called family by family in the order DNN-TF, Keras, NN, SVM, raw
    TensorFlow, K-Means: every enabled family is trained again, on the
    training set as both training and test set, and then asked for its
    prediction of the file's spectrum.  The Keras predictor is given the
    module-level [model_keras], which must be bound, and not the model
    that the training call just returned. *)
Theorem processSingleBatch_calls f En Cl A Aorig Y sf lf s s' :
  processSingleBatch W f En Cl A Aorig Y sf lf s = (inr (), s') →
  ∃ R Rorig (blk : family → list (@event obj label)),
    (∃ args, answers_pair W "preProcessNormPredData" args (R, Rorig)) ∧
    calls_in adapters (st_trace s')
    = calls_in adapters (st_trace s) ++ concat (blk <$> batch_order) ∧
    ∀ m, if enabled (st_cfg s) m
         then batch_calls W (st_cfg s) (st_globals s) (w_splitext_root W lf)
                En Cl A Aorig R Rorig m (blk m)
         else blk m = [].
Proof.
  intros E. apply processSingleBatch_run in E as (R0 & Rx & R & Rorig & blk & L1 & L2 & T & B).
  exists R, Rorig, blk. split_and!; eauto.
  assert (Hb : ∀ m, calls_in adapters (blk m) = blk m).
  { intros m. specialize (B m). destruct (enabled (st_cfg s) m).
    - by eapply batch_calls_adapters.
    - by rewrite B. }
  rewrite <- (calls_in_model_calls adapters (st_trace s')), T by done.
  rewrite !calls_in_app, calls_in_model_calls by done. f_equal.
  cbn. rewrite !calls_in_app, !Hb. done.
Qed.

(** The names a file of a batch needs and its function does not bind.
    With Keras enabled and no [model_keras] in the module, or with raw
    TensorFlow enabled and no [tfAccur], the processing of every file
    fails, whatever the collaborators answer, and the file gets no row:
    the files are left as they were. *)
Theorem processSingleBatch_unbound_names f En Cl A Aorig Y sf lf s :
  (enabled (st_cfg s) Keras = true ∧ g_model_keras (st_globals s) = None) ∨
  (enabled (st_cfg s) TF = true ∧ g_tfAccur (st_globals s) = None) →
  ∃ e, (processSingleBatch W f En Cl A Aorig Y sf lf s).1 = inl e ∧
       st_files (processSingleBatch W f En Cl A Aorig Y sf lf s).2 = st_files s.
Proof.
  intros Hun.
  destruct (processSingleBatch W f En Cl A Aorig Y sf lf s) as [[e|[]] s'] eqn:E.
  { exists e. split; [done|]. by apply processSingleBatch_spec in E as (_ & _ & _ & E). }
  exfalso. pose proof E as E'.
  apply processSingleBatch_run in E as (R0 & Rx & R & Rorig & blk & _ & _ & _ & B).
  apply processSingleBatch_spec in E' as (_ & _ & _ & _ & row & _ & (blk' & _ & B')).
  destruct Hun as [[Hk Hg]|[Ht Hg]].
  - specialize (B Keras). rewrite Hk in B. cbn in B.
    destruct B as (? & ? & ? & _ & Hg' & _). congruence.
  - specialize (B' TF). rewrite Ht in B'. cbn in B'.
    destruct B' as (? & ? & ? & _ & _ & Hg'). congruence.
Qed.

(** ** The training calls of a sequential batch *)

Lemma batch_calls_trainings c g root En Cl A Aorig R Rorig m evs :
  batch_calls W c g root En Cl A Aorig R Rorig m evs →
  calls_in batch_stages evs =
    match m with
    | DNNTF => [Call (trainer c DNNTF) (train_on_itself A Cl root)]
    | Keras => [Call "trainKeras" (AObj En :: train_on_itself A Cl root)]
    | NN => [Call "trainNN" (train_on_itself A Cl root)]
    | SVM => [Call "trainSVM" (train_on_itself A Cl root)]
    | TF => [Call "trainTF" (train_on_itself A Cl root)]
    | KM => []
    end.
Proof.
  destruct m; cbn.
  - intros (clf & le & _ & ->). by destruct (dnntf_runSkflowDNNTF _).
  - by intros (model & le & mk & _ & _ & ->).
  - by intros (clf & le & _ & ->).
  - by intros (clf & le & _ & ->).
  - by intros ->.
  - by intros ->.
Qed.

Lemma processSingleBatch_trainings f En Cl A Aorig Y sf lf s s' :
  processSingleBatch W f En Cl A Aorig Y sf lf s = (inr (), s') →
  calls_in batch_stages (st_trace s') = calls_in batch_stages (st_trace s) ++
    batch_trainings (st_cfg s) (w_splitext_root W lf) En A Cl.
Proof.
  intros E. apply processSingleBatch_run in E as (R0 & Rx & R & Rorig & blk & L1 & L2 & T & B).
  rewrite <- (calls_in_model_calls batch_stages (st_trace s')), T by done.
  rewrite !calls_in_app, calls_in_model_calls by done. f_equal.
  cbn. rewrite !calls_in_app. unfold batch_trainings, when.
  repeat match goal with
  | |- context [calls_in batch_stages (blk ?m)] =>
      let H := fresh in
      pose proof (B m) as H; destruct (enabled (st_cfg s) m);
      [apply batch_calls_trainings in H; rewrite H|rewrite H, calls_in_nil]; clear H
  end.
  all: unfold calls_in; cbn; by rewrite ?app_nil_r.
Qed.

Lemma same_switches_cleared c : same_switches c (batch_cleared c).
Proof.
  unfold batch_cleared, same_switches, clear_if.
  destruct (enabled c KM), (enabled c TF), (enabled c SVM), (enabled c NN),
    (enabled c DNNTF); split; try done; by intros [].
Qed.

Lemma batch_trainings_switches c c' root En A Cl :
  same_switches c c' →
  batch_trainings c' root En A Cl = @batch_trainings obj label c root En A Cl.
Proof. intros [E K]. unfold batch_trainings, trainer. by rewrite !E, K. Qed.

Lemma batch_loop_trainings En Cl A Aorig Y sf lf l s s' :
  for_each l (batch_body W En Cl A Aorig Y sf lf) s = (inr (), s') →
  calls_in batch_stages (st_trace s') = calls_in batch_stages (st_trace s) ++
    concat (replicate (length (filter (λ f, f ≠ lf) l))
              (batch_trainings (st_cfg s) (w_splitext_root W lf) En A Cl)).
Proof.
  revert s. induction l as [|f l IH]; intros s.
  - intros [= <-]. cbn. by rewrite app_nil_r.
  - unfold for_each; fold (@for_each obj label ext string). rewrite bind_run.
    unfold batch_body at 1. case_bool_decide as Hf.
    + rewrite filter_cons_True by done.
      destruct (processSingleBatch _ _ _ _ _ _ _ _ _ s) as [[e|[]] s1] eqn:E1; [done|].
      intros E2. apply IH in E2. rewrite E2.
      pose proof E1 as E1'. apply processSingleBatch_trainings in E1'. rewrite E1'.
      apply processSingleBatch_spec in E1 as (_ & _ & _ & Hc & _).
      rewrite Hc, (batch_trainings_switches _ _ _ _ _ _ (same_switches_cleared _)).
      cbn. by rewrite <- app_assoc.
    + rewrite filter_cons_False by (intros ?; congruence). cbn [mret M_ret].
      apply IH.
Qed.

(** In a sequential batch that completes, the training file is read and
    preprocessed once, and then every enabled family among DNN-TF, Keras,
    NN, SVM and raw TensorFlow is trained once for every file processed,
    each time on that one preprocessed training set. *)
Theorem LearnPredictBatch_retrains lf s s' :
  sys_multiProc (sysDef (st_cfg s)) = false →
  LearnPredictBatch W lf s = (inr (), s') →
  ∃ En0 Cl0 A0 Y En Cl A Aorig,
    answers_learn W "readLearnFile" [AStr lf] (En0, Cl0, A0, Y) ∧
    answers_learn W "preProcessNormLearningData"
      [AObj A0; AObj En0; ACl Cl0; AObj Y; AInt 0] (A, Cl, En, Aorig) ∧
    calls_in batch_stages (st_trace s') = calls_in batch_stages (st_trace s) ++
      [Call "readLearnFile" [AStr lf];
       Call "preProcessNormLearningData" [AObj A0; AObj En0; ACl Cl0; AObj Y; AInt 0]] ++
      concat (replicate (length (batch_targets lf (st_cwd s)))
                (batch_trainings (st_cfg s) (w_splitext_root W lf) En A Cl)).
Proof.
  intros Hmp. unfold LearnPredictBatch, makeHeaderSummary.
  rewrite bind_run. cbv beta iota. rewrite bind_run. unfold append_row at 1. cbv beta iota.
  rewrite bind_run. unfold call_learn at 1, extcall. cbn [st_cfg st_world upd_files].
  destruct (w_learn W "readLearnFile" _ _ _) as [[[[[En0 Cl0] A0] Y]|] w1] eqn:L1; [|done].
  apply answers_learn_intro in L1.
  cbv beta iota. rewrite bind_run. unfold call_learn at 1, extcall.
  cbn [st_cfg st_world upd_files log upd_world].
  destruct (w_learn W "preProcessNormLearningData" _ _ _)
    as [[[[[A Cl] En] Aorig]|] w2] eqn:L2; [|done].
  apply answers_learn_intro in L2.
  cbv beta iota. rewrite bind_run. unfold get_cfg at 1. cbv beta iota.
  cbn [st_cfg st_world upd_files log upd_world]. rewrite Hmp.
  rewrite bind_run. unfold glob_txt at 1. cbv beta iota.
  cbn [st_cwd upd_files log upd_world].
  intros E. apply (batch_loop_trainings En Cl A Aorig Y) in E.
  exists En0, Cl0, A0, Y, En, Cl, A, Aorig. split_and!; try done.
  rewrite E. cbn [st_trace st_cfg log upd_world upd_files].
  rewrite !calls_in_snoc. cbn. by rewrite <- !app_assoc.
Qed.

End BatchCalls.

(** ** Batch mode: the rows of the summary file *)

Section BatchRows.
Context {obj label ext : Type}.
Context (W : @World obj label ext).
Implicit Types (s : @State obj label ext) (tr : list (@event obj label)).

Local Arguments model_calls : simpl never.
Local Arguments calls_in : simpl never.
Local Arguments processed : simpl never.
Local Arguments processSingleBatch : simpl never.
Local Arguments for_each : simpl never.

Lemma removelast_cons {A} (x : A) l : l ≠ [] → removelast (x :: l) = x :: removelast l.
Proof. by destruct l. Qed.

Lemma batch_loop_rows En Cl A Aorig Y sf lf l s r s' content :
  for_each l (batch_body W En Cl A Aorig Y sf lf) s = (r, s') →
  st_files s !! sf = Some content →
  ∃ done rows,
    processed (st_trace s') = processed (st_trace s) ++ done ∧
    st_files s' = <[sf := content ++ rows]> (st_files s) ∧
    match r with
    | inr _ => done = filter (λ f, f ≠ lf) l ∧ row_name <$> rows = Some <$> done
    | inl _ => done ≠ [] ∧ row_name <$> rows = Some <$> removelast done
    end.
Proof.
  revert s content. induction l as [|f l IH]; intros s content.
  - intros [= <- <-] Hc. exists [], []. rewrite !app_nil_r, insert_id by done. by split_and!.
  - unfold for_each; fold (@for_each obj label ext string). rewrite bind_run.
    unfold batch_body at 1. case_bool_decide as Hf; cbn [mret M_ret].
    2:{ rewrite filter_cons_False by (intros ?; congruence). apply IH. }
    rewrite filter_cons_True by done.
    destruct (processSingleBatch _ _ _ _ _ _ _ _ _ s) as [[e|[]] s1] eqn:E1;
      apply processSingleBatch_spec in E1 as (_ & _ & Ht & E1).
    + intros [= <- <-] Hc. exists [f], []. rewrite app_nil_r, E1, insert_id by done.
      by split_and!.
    + destruct E1 as (_ & row & Hfs & (blk & -> & _)).
      intros E Hc. rewrite Hc in Hfs. cbn [default] in Hfs.
      assert (Hc1 : st_files s1 !! sf
                    = Some (content ++ [CStr f :: concat (blk <$> batch_order)])).
      { by rewrite Hfs, lookup_insert_eq. }
      destruct (IH _ _ E Hc1) as (done & rows & Hd & Hl & Hr).
      exists (f :: done), ((CStr f :: concat (blk <$> batch_order)) :: rows).
      split_and!.
      * rewrite Hd, Ht. by rewrite <- app_assoc.
      * rewrite Hl, Hfs, insert_insert_eq. by rewrite <- app_assoc.
      * destruct r as [e|[]].
        -- destruct Hr as [Hne Hr]. split; [done|].
           rewrite removelast_cons by done. cbn. by rewrite Hr.
        -- destruct Hr as [-> Hr]. split; [done|]. cbn. by rewrite Hr.
Qed.

(** In sequential mode the summary file gets, after the header, one row
    per processed file, in the order [glob] lists the files.  If the
    batch completes these are all the [*.txt] files but the training
    file; if it is cut short by an exception, they are the files before
    the one that failed.  No other file is written. *)
Theorem LearnPredictBatch_rows lf s r s' :
  sys_multiProc (sysDef (st_cfg s)) = false →
  LearnPredictBatch W lf s = (r, s') →
  let name := "summary" +:+ w_now W (st_world s) in
  let fs0 := st_files (makeHeaderSummary name lf s).2 in
  ∃ rows,
    st_files s' = <[name := default [] (fs0 !! name) ++ rows]> fs0 ∧
    row_name <$> rows
    = Some <$> match r with
               | inr _ => batch_targets lf (st_cwd s)
               | inl _ => removelast (submitted s s')
               end.
Proof.
  intros Hmp E name fs0.
  apply LearnPredictBatch_inv in E as (s0 & Hf0 & Hp0 & Hc0 & Hcfg0 & Ht0 & E).
  fold name in Hf0, E.
  assert (Hfs0 : fs0 = st_files s0) by (by rewrite Hf0).
  assert (H0 : fs0 !! name = Some (default [] (st_files s !! name) ++ [header_row lf])).
  { by rewrite Hfs0, Hf0, lookup_insert_eq. }
  rewrite H0. cbn [default]. unfold submitted. rewrite Hmp.
  destruct E as [(e & -> & Hf1 & _ & Ht1)|[(En & Cl & A & Aorig & Y & _ & E)
                |(En & Cl & A & Aorig & Y & Emp & _)]]; [| |congruence].
  - exists []. rewrite app_nil_r, insert_id, Hf1, Hfs0 by done. split; [done|].
    by rewrite Ht1, Ht0, drop_ge.
  - eapply batch_loop_rows in E as (done & rows & Hd & Hl & Hr); [|by rewrite <- Hfs0].
    exists rows. rewrite Hl, Hfs0. split; [done|].
    rewrite Hd, Ht0, drop_app_length.
    destruct r as [e|[]]; [by destruct Hr|]. destruct Hr as [-> Hr]. by rewrite Hr.
Qed.

(** ** The worker pool *)

Lemma pool_join_rows name ts fs fs' content :
  pool_join W ts fs fs' →
  Forall (λ t, t_summary_filename t = name) ts →
  fs !! name = Some content →
  ∃ rows, fs' = <[name := content ++ rows]> fs ∧
          row_name <$> rows ⊆+ Some <$> (t_f <$> ts).
Proof.
  intros Hj. revert content. induction Hj as [fs|ts1 t ts2 fs fs1 fs2 Ht Hj IH];
    intros content Hts Hc.
  - exists []. by rewrite app_nil_r, insert_id.
  - apply Forall_app in Hts as [Hts1 Hts2].
    apply Forall_cons in Hts2 as [Hn Hts2].
    assert (Hts' : Forall (λ t, t_summary_filename t = name) (ts1 ++ ts2))
      by (by apply Forall_app).
    rewrite <- Hn in Hc.
    destruct (task_step_spec _ _ _ _ _ Ht Hc) as [->|[rest ->]].
    + rewrite Hn in Hc. destruct (IH _ Hts' Hc) as (rows & Hl & Hr).
      exists rows. split; [done|]. etrans; [exact Hr|].
      rewrite !fmap_app, !fmap_cons. apply submseteq_app; [done|]. by apply submseteq_cons.
    + rewrite Hn in *.
      destruct (IH (content ++ [CStr (t_f t) :: rest]) Hts') as (rows & Hl & Hr).
      { by rewrite lookup_insert_eq. }
      exists ((CStr (t_f t) :: rest) :: rows). split.
      * by rewrite Hl, insert_insert_eq, <- app_assoc.
      * rewrite !fmap_app, !fmap_cons. cbn [row_name].
        rewrite <- Permutation_middle. apply submseteq_skip.
        by rewrite <- !fmap_app.
Qed.

(** With [multiProc], a file whose processing raises does not stop the
    batch: the calling process never sees the exception.  The summary
    file ends up with the header and, in some order, at most one row for
    each [*.txt] file other than the training file: the rows of the files
    whose processing completed. *)
Theorem LearnPredictBatch_pool_rows lf s fs :
  sys_multiProc (sysDef (st_cfg s)) = true →
  batch_files W lf s fs →
  let name := "summary" +:+ w_now W (st_world s) in
  let fs0 := st_files (makeHeaderSummary name lf s).2 in
  (∀ e, (LearnPredictBatch W lf s).1 = inl e →
     e = Raised "readLearnFile" ∨ e = Raised "preProcessNormLearningData" ∨
     ∃ msg, e = ValueError msg) ∧
  ∃ rows,
    fs = <[name := default [] (fs0 !! name) ++ rows]> fs0 ∧
    row_name <$> rows ⊆+ Some <$> batch_targets lf (st_cwd s).
Proof.
  intros Hmp Hfs name fs0. split.
  { clear Hfs. intros e. unfold LearnPredictBatch, makeHeaderSummary.
    rewrite bind_run. cbv beta iota. rewrite bind_run. unfold append_row at 1. cbv beta iota.
    rewrite bind_run. unfold call_learn at 1, extcall. cbn [st_cfg st_world upd_files].
    destruct (w_learn W "readLearnFile" _ _ _) as [[[[[En0 Cl0] A0] Y]|] w1].
    2:{ cbn. intros [= <-]. by left. }
    cbv beta iota. rewrite bind_run. unfold call_learn at 1, extcall.
    cbn [st_cfg st_world upd_files log upd_world].
    destruct (w_learn W "preProcessNormLearningData" _ _ _) as [[[[[A Cl] En] Aorig]|] w2].
    2:{ cbn. intros [= <-]. right. by left. }
    cbv beta iota. rewrite bind_run. unfold get_cfg at 1. cbv beta iota.
    cbn [st_cfg st_world upd_files log upd_world]. rewrite Hmp.
    rewrite bind_run. unfold get_cfg at 1. cbv beta iota. rewrite bind_run.
    unfold mp_Pool. cbn [st_cfg st_world upd_files log upd_world].
    destruct (sys_numCores _ <? 1)%Z.
    { cbn. intros [= <-]. right. right. by eexists. }
    cbv beta iota. rewrite bind_run. unfold glob_txt at 1. cbv beta iota.
    by rewrite queue_loop_spec. }
  revert Hfs. unfold batch_files.
  destruct (LearnPredictBatch W lf s) as [r s'] eqn:E.
  apply LearnPredictBatch_inv in E as (s0 & Hf0 & Hp0 & Hc0 & Hcfg0 & Ht0 & E).
  fold name in Hf0, E.
  assert (Hfs0 : fs0 = st_files s0) by (by rewrite Hf0).
  assert (H0 : fs0 !! name = Some (default [] (st_files s !! name) ++ [header_row lf])).
  { by rewrite Hfs0, Hf0, lookup_insert_eq. }
  rewrite H0. cbn [default]. rewrite Hmp.
  destruct E as [(e & -> & Hf1 & _ & _)|[(En & Cl & A & Aorig & Y & Emp & _)
                |(En & Cl & A & Aorig & Y & _ & -> & Hf1 & _ & Hp1)]]; [|congruence|].
  - intros ->. exists []. rewrite app_nil_r, insert_id, Hf1, Hfs0 by done.
    split; [done|]. apply submseteq_nil_l.
  - intros Hj.
    eapply (pool_join_rows name) in Hj as (rows & Hl & Hr).
    + exists rows. rewrite Hl, Hf1, <- Hfs0. split; [done|].
      rewrite Hp1, queued_names in Hr. exact Hr.
    + rewrite Hp1. apply Forall_fmap, Forall_forall. by intros f Hf.
    + by rewrite Hf1, <- Hfs0.
Qed.

End BatchRows.

(** ** One file of a batch: failures *)

Section BatchFailures.
Context {obj label ext : Type}.
Context (W : @World obj label ext).
Implicit Types (s : @State obj label ext) (tr : list (@event obj label)).

(** What can go wrong with one file of a batch: a collaborator raises,
    and then it is the last one called, the sections after it are not
    run; or the Keras section finds no [model_keras], or the raw
    TensorFlow section no [tfAccur].  Nothing else. *)
Theorem processSingleBatch_failure f En Cl A Aorig Y sf lf s e s' :
  processSingleBatch W f En Cl A Aorig Y sf lf s = (inl e, s') →
  match e with
  | Raised fn => ∃ tr args, st_trace s' = tr ++ [Call fn args]
  | NameError name => name = "model_keras" ∨ name = "tfAccur"
  | _ => False
  end.
Proof.
  assert (F : fails_at_call (λ e, e = NameError "model_keras" ∨ e = NameError "tfAccur")
                (processSingleBatch W f En Cl A Aorig Y sf lf)).
  { unfold processSingleBatch, batch_dnntf, batch_keras, batch_nn, batch_svm, batch_tf,
      batch_km, call_pair, call_one, call_proc.
    repeat fails_step. }
  intros E. apply F in E. destruct e; try done; destruct E as [E|E]; try done.
  - injection E as ->. by left.
  - injection E as ->. by right.
Qed.

End BatchFailures.

(** ** Map mode: the sections of the loop body *)

Section MapSectionRuns.
Context {obj label ext : Type}.
Context (W : @World obj label ext).
Implicit Types (s : @State obj label ext) (tr : list (@event obj label)).
Implicit Types (e : @MapEnv obj label).

Local Arguments model_calls : simpl never.
Local Arguments calls_in : simpl never.

Lemma ret_bind {A B} (a : A) (k : A → @M obj label ext B) s : (mret a ≫= k) s = k a s.
Proof. done. Qed.

Lemma global_run {A} name (proj : @Globals obj → option A) s :
  @global obj label ext A name proj s
  = match proj (st_globals s) with
    | Some v => (inr v, s)
    | None => (inl (NameError name), s)
    end.
Proof. unfold global, get_globals. rewrite bind_run. by destruct (proj _). Qed.

Lemma setitem_inv a i p s s' :
  @setitem obj label ext a i p s = (inr (), s') →
  ∃ arr, st_heap s !! a = Some arr ∧ (i < length arr)%nat ∧
         s' = upd_heap (<[a := <[i := p]> arr]> (st_heap s)) s.
Proof.
  unfold setitem. destruct (st_heap s !! a) as [arr|]; [|done].
  case_decide; [|done]. intros [= <-]. by exists arr.
Qed.

Lemma saveMap_inv e m pv i s s' :
  saveMap W e (map_name m) pv i s = (inr (), s') →
  ∃ p x y w, getitem W pv i s = (inr p, s) ∧
             m_X e !! i = Some x ∧ m_Y e !! i = Some y ∧
             s' = log (map_entry e m p x y) (upd_world w s).
Proof.
  unfold saveMap. rewrite bind_run.
  destruct (getitem W pv i s) as [[?|p] s1] eqn:G; [done|].
  assert (s1 = s) as ->.
  { revert G. unfold getitem. repeat case_match; congruence. }
  rewrite bind_run. unfold item at 1. destruct (m_X e !! i) as [x|]; [|done].
  cbv beta iota. cbn [mret M_ret]. rewrite bind_run. unfold item at 1.
  destruct (m_Y e !! i) as [y|]; [|done]. cbv beta iota. cbn [mret M_ret].
  unfold call_proc, extcall. destruct (w_unit W "saveMap" _ _ _) as [[[]|] w]; [|done].
  intros [= <-]. by exists p, x, y, w.
Qed.

Lemma getitem_written a i p arr s :
  st_heap s !! a = Some arr → (i < length arr)%nat →
  getitem W (Ref a) i (upd_heap (<[a := <[i := p]> arr]> (st_heap s)) s)
  = (inr p, upd_heap (<[a := <[i := p]> arr]> (st_heap s)) s).
Proof.
  intros Ha Hi. unfold getitem. cbn.
  rewrite list_lookup_insert_eq by (eapply lookup_lt_Some; eauto).
  by rewrite list_lookup_insert_eq.
Qed.

Lemma pixel_nn_run e i r s s' :
  pixel_nn W e i r s = (inr (), s') →
  st_globals s' = st_globals s ∧
  st_cfg s' = clear_if (enabled (st_cfg s) NN) (set_nn_alwaysRetrain false) (st_cfg s) ∧
  if enabled (st_cfg s) NN
  then ∃ clf le p q x y arr,
         m_nn e = Some (clf, le) ∧
         answers_pair W "predNN"
           [AObj clf; AObj (m_A e); ACl (m_Cl e); AObj r; AObj le] (p, q) ∧
         m_X e !! i = Some x ∧ m_Y e !! i = Some y ∧
         st_heap s !! m_nnPred e = Some arr ∧ (i < length arr)%nat ∧
         st_heap s' = <[m_nnPred e := <[i := p]> arr]> (st_heap s) ∧
         model_calls (st_trace s') = model_calls (st_trace s) ++
           [Call "predNN" [AObj clf; AObj (m_A e); ACl (m_Cl e); AObj r; AObj le];
            map_entry e NN p x y]
  else st_heap s' = st_heap s ∧ model_calls (st_trace s') = model_calls (st_trace s).
Proof.
  unfold pixel_nn. rewrite bind_run. unfold get_cfg at 1. cbv beta iota. cbn [enabled].
  destruct (nn_runNN (nnDef (st_cfg s))) eqn:En; [|by intros [= <-]].
  destruct (m_nn e) as [[clf le]|]; [|done].
  cbn [local fmap option_fmap option_map fst snd]. rewrite !ret_bind.
  rewrite bind_run. unfold call_pair at 1, extcall.
  destruct (w_pair W "predNN" _ _ _) as [[[p q]|] w1] eqn:L; [|done].
  apply answers_pair_intro in L. cbv beta iota.
  rewrite bind_run.
  match goal with |- context [setitem ?a ?i ?p ?t] =>
    destruct (setitem a i p t) as [[?|[]] s1] eqn:S1; [done|] end.
  apply setitem_inv in S1 as (arr & Ha & Hi & ->). cbn [st_heap log upd_world] in Ha.
  rewrite bind_run.
  match goal with |- context [saveMap W e ?n ?pv ?i ?t] =>
    destruct (saveMap W e n pv i t) as [[?|[]] s2] eqn:S2; [done|] end.
  apply (saveMap_inv e NN) in S2 as (p' & x & y & w2 & G & Hx & Hy & ->).
  rewrite getitem_written in G by done. injection G as <-.
  unfold set_cfg. intros [= <-]. cbn.
  split_and!; try done.
  exists clf, le, p, q, x, y, arr. split_and!; try done.
  rewrite !model_calls_snoc. cbn. by rewrite <- !app_assoc.
Qed.

Lemma pixel_svm_run e i r s s' :
  pixel_svm W e i r s = (inr (), s') →
  st_globals s' = st_globals s ∧
  st_cfg s' = clear_if (enabled (st_cfg s) SVM) (set_svm_alwaysRetrain false) (st_cfg s) ∧
  if enabled (st_cfg s) SVM
  then ∃ clf le p q x y arr,
         m_svm e = Some (clf, le) ∧
         answers_pair W "predSVM"
           [AObj clf; AObj (m_A e); ACl (m_Cl e); AObj (m_En e); AObj r; AObj le] (p, q) ∧
         m_X e !! i = Some x ∧ m_Y e !! i = Some y ∧
         st_heap s !! m_svmPred e = Some arr ∧ (i < length arr)%nat ∧
         st_heap s' = <[m_svmPred e := <[i := p]> arr]> (st_heap s) ∧
         model_calls (st_trace s') = model_calls (st_trace s) ++
           [Call "predSVM"
              [AObj clf; AObj (m_A e); ACl (m_Cl e); AObj (m_En e); AObj r; AObj le];
            map_entry e SVM p x y]
  else st_heap s' = st_heap s ∧ model_calls (st_trace s') = model_calls (st_trace s).
Proof.
  unfold pixel_svm. rewrite bind_run. unfold get_cfg at 1. cbv beta iota. cbn [enabled].
  destruct (svm_runSVM (svmDef (st_cfg s))) eqn:En; [|by intros [= <-]].
  destruct (m_svm e) as [[clf le]|]; [|done].
  cbn [local fmap option_fmap option_map fst snd]. rewrite !ret_bind.
  rewrite bind_run. unfold call_pair at 1, extcall.
  destruct (w_pair W "predSVM" _ _ _) as [[[p q]|] w1] eqn:L; [|done].
  apply answers_pair_intro in L. cbv beta iota.
  rewrite bind_run.
  match goal with |- context [setitem ?a ?i ?p ?t] =>
    destruct (setitem a i p t) as [[?|[]] s1] eqn:S1; [done|] end.
  apply setitem_inv in S1 as (arr & Ha & Hi & ->). cbn [st_heap log upd_world] in Ha.
  rewrite bind_run.
  match goal with |- context [saveMap W e ?n ?pv ?i ?t] =>
    destruct (saveMap W e n pv i t) as [[?|[]] s2] eqn:S2; [done|] end.
  apply (saveMap_inv e SVM) in S2 as (p' & x & y & w2 & G & Hx & Hy & ->).
  rewrite getitem_written in G by done. injection G as <-.
  unfold set_cfg. intros [= <-]. cbn.
  split_and!; try done.
  exists clf, le, p, q, x, y, arr. split_and!; try done.
  rewrite !model_calls_snoc. cbn. by rewrite <- !app_assoc.
Qed.

Lemma pixel_km_run e i r rorig s s' :
  pixel_km W e i r rorig s = (inr (), s') →
  st_globals s' = st_globals s ∧
  st_cfg s' = clear_if (enabled (st_cfg s) KM) (set_km_plotKM false) (st_cfg s) ∧
  if enabled (st_cfg s) KM
  then ∃ p x y arr,
         m_X e !! i = Some x ∧ m_Y e !! i = Some y ∧
         st_heap s !! m_kmPred e = Some arr ∧ (i < length arr)%nat ∧
         st_heap s' = <[m_kmPred e := <[i := p]> arr]> (st_heap s) ∧
         model_calls (st_trace s') = model_calls (st_trace s) ++
           [Call "runKMmain" [AObj (m_A e); ACl (m_Cl e); AObj (m_En e);
                              AObj r; AObj (m_Aorig e); AObj rorig];
            map_entry e KM p x y]
  else st_heap s' = st_heap s ∧ model_calls (st_trace s') = model_calls (st_trace s).
Proof.
  unfold pixel_km. rewrite bind_run. unfold get_cfg at 1. cbv beta iota. cbn [enabled].
  destruct (km_runKM (kmDef (st_cfg s))) eqn:En; [|by intros [= <-]].
  rewrite bind_run. unfold set_cfg at 1. cbv beta iota.
  rewrite bind_run. unfold call_one at 1, extcall.
  destruct (w_one W "runKMmain" _ _ _) as [[p|] w1] eqn:L; [|done].
  cbv beta iota.
  rewrite bind_run.
  match goal with |- context [setitem ?a ?i ?p ?t] =>
    destruct (setitem a i p t) as [[?|[]] s1] eqn:S1; [done|] end.
  apply setitem_inv in S1 as (arr & Ha & Hi & ->). cbn [st_heap log upd_world upd_cfg] in Ha.
  intros S2.
  apply (saveMap_inv e KM) in S2 as (p' & x & y & w2 & G & Hx & Hy & ->).
  rewrite getitem_written in G by done. injection G as <-.
  cbn. split_and!; try done.
  exists p, x, y, arr. split_and!; try done.
  rewrite !model_calls_snoc. cbn. by rewrite <- !app_assoc.
Qed.

Lemma pixel_tf_run e tfPred i r s pv s' :
  pixel_tf W e tfPred i r s = (inr pv, s') →
  st_globals s' = st_globals s ∧ st_heap s' = st_heap s ∧
  st_cfg s' = clear_if (enabled (st_cfg s) TF) (set_tf_alwaysRetrain false) (st_cfg s) ∧
  if enabled (st_cfg s) TF
  then ∃ l q p x y,
         answers_pair W "predTF"
           [AObj (m_A e); ACl (m_Cl e); AObj r; AStr (m_learnFileRoot e)] (l, q) ∧
         pv = Val l ∧ w_getitem W l i = Some p ∧
         m_X e !! i = Some x ∧ m_Y e !! i = Some y ∧
         model_calls (st_trace s') = model_calls (st_trace s) ++
           [Call "trainTF" [AObj (m_A e); ACl (m_Cl e); AObj (m_A e); ACl (m_Cl e);
                            AStr (m_learnFileRoot e)];
            Call "predTF" [AObj (m_A e); ACl (m_Cl e); AObj r; AStr (m_learnFileRoot e)];
            map_entry e TF p x y]
  else pv = tfPred ∧ model_calls (st_trace s') = model_calls (st_trace s).
Proof.
  unfold pixel_tf. rewrite bind_run. unfold get_cfg at 1. cbv beta iota. cbn [enabled].
  destruct (tf_runTF (tfDef (st_cfg s))) eqn:En; [|by intros [= <- <-]].
  rewrite bind_run. unfold call_proc at 1, extcall.
  destruct (w_unit W "trainTF" _ _ _) as [[[]|] w0]; [|done].
  cbv beta iota. rewrite bind_run. unfold call_pair at 1, extcall.
  cbn [st_cfg st_world log upd_world].
  destruct (w_pair W "predTF" _ _ _) as [[[l q]|] w1] eqn:L; [|done].
  apply answers_pair_intro in L. cbv beta iota.
  rewrite bind_run.
  match goal with |- context [saveMap W e ?n ?pv ?i ?t] =>
    destruct (saveMap W e n pv i t) as [[?|[]] s2] eqn:S2; [done|] end.
  apply (saveMap_inv e TF) in S2 as (p & x & y & w2 & G & Hx & Hy & ->).
  unfold getitem in G. destruct (w_getitem W l i) as [p'|] eqn:Hg; [|done].
  injection G as <-.
  rewrite bind_run. unfold set_cfg at 1. cbv beta iota. intros [= <- <-]. cbn.
  split_and!; try done.
  exists l, q, p', x, y. split_and!; try done.
  rewrite !model_calls_snoc. cbn. by rewrite <- !app_assoc.
Qed.

Lemma pixel_keras_run e i r s s' :
  pixel_keras W e i r s = (inr (), s') →
  st_globals s' = st_globals s ∧ st_cfg s' = st_cfg s ∧
  is_Some (dnntf_runKeras (dnntfDef (st_cfg s))) ∧
  if map_runs (st_cfg s) Keras
  then ∃ model le kerasPred p q x y arr,
         m_keras e = Some (model, le) ∧
         g_kerasPred (st_globals s) = Some kerasPred ∧
         answers_pair W "predKeras"
           [AObj model; AObj le; AObj r; ACl (m_Cl e)] (p, q) ∧
         m_X e !! i = Some x ∧ m_Y e !! i = Some y ∧
         st_heap s !! kerasPred = Some arr ∧ (i < length arr)%nat ∧
         st_heap s' = <[kerasPred := <[i := p]> arr]> (st_heap s) ∧
         model_calls (st_trace s') = model_calls (st_trace s) ++
           [Call "predKeras" [AObj model; AObj le; AObj r; ACl (m_Cl e)];
            map_entry e Keras p x y]
  else st_heap s' = st_heap s ∧ model_calls (st_trace s') = model_calls (st_trace s).
Proof.
  unfold pixel_keras. rewrite bind_run. unfold get_cfg at 1. cbv beta iota. cbn [map_runs].
  destruct (dnntf_runKeras (dnntfDef (st_cfg s))) as [[]|] eqn:En; [| |done];
    cbn [attr]; rewrite ret_bind.
  2:{ intros [= <-]. rewrite bool_decide_eq_false_2 by done. by split_and!. }
  rewrite bool_decide_eq_true_2 by done.
  destruct (m_keras e) as [[model le]|]; [|done].
  cbn [local fmap option_fmap option_map fst snd]. rewrite !ret_bind.
  rewrite bind_run. unfold call_pair at 1, extcall.
  destruct (w_pair W "predKeras" _ _ _) as [[[p q]|] w1] eqn:L; [|done].
  apply answers_pair_intro in L. cbv beta iota.
  rewrite bind_run, global_run. cbn [st_globals log upd_world].
  destruct (g_kerasPred (st_globals s)) as [kp|] eqn:Hk; [|done]. cbv beta iota.
  rewrite bind_run.
  match goal with |- context [setitem ?a ?i ?p ?t] =>
    destruct (setitem a i p t) as [[?|[]] s1] eqn:S1; [done|] end.
  apply setitem_inv in S1 as (arr & Ha & Hi & ->). cbn [st_heap log upd_world] in Ha.
  rewrite bind_run, global_run. cbn [st_globals log upd_world upd_heap].
  rewrite Hk. cbv beta iota.
  intros S2.
  apply (saveMap_inv e Keras) in S2 as (p' & x & y & w2 & G & Hx & Hy & ->).
  rewrite getitem_written in G by done. injection G as <-.
  cbn. split_and!; try done.
  exists model, le, kp, p, q, x, y, arr. split_and!; try done.
  rewrite !model_calls_snoc. cbn. by rewrite <- !app_assoc.
Qed.

Lemma pixel_dnntf_run e i r s s' :
  pixel_dnntf W e i r s = (inr (), s') →
  st_cfg s' = st_cfg s ∧
  if enabled (st_cfg s) DNNTF
  then ∃ cl x0 le dnntfPred d p q x y arr,
         g_cl_dnntf (st_globals s) = Some cl ∧
         m_dnntf e = Some (x0, le) ∧
         g_dnntfPred (st_globals s) = Some dnntfPred ∧
         g_dnnDef (st_globals s) = Some d ∧
         answers_pair W (batch_predictor (st_cfg s) DNNTF)
           [AObj cl; AObj le; AObj r; ACl (m_Cl e)] (p, q) ∧
         m_X e !! i = Some x ∧ m_Y e !! i = Some y ∧
         st_heap s !! dnntfPred = Some arr ∧ (i < length arr)%nat ∧
         st_heap s' = <[dnntfPred := <[i := p]> arr]> (st_heap s) ∧
         st_globals s' = set_g_dnnDef (Some (Some false)) (st_globals s) ∧
         model_calls (st_trace s') = model_calls (st_trace s) ++
           [Call (batch_predictor (st_cfg s) DNNTF)
              [AObj cl; AObj le; AObj r; ACl (m_Cl e)];
            map_entry e DNNTF p x y]
  else st_globals s' = st_globals s ∧ st_heap s' = st_heap s ∧
       model_calls (st_trace s') = model_calls (st_trace s).
Proof.
  unfold pixel_dnntf. rewrite bind_run. unfold get_cfg at 1. cbv beta iota. cbn [enabled].
  destruct (dnntf_runDNNTF (dnntfDef (st_cfg s))) eqn:En; [|by intros [= <-]].
  rewrite bind_run. unfold get_cfg at 1. cbv beta iota. rewrite bind_run.
  match goal with |- context [match ?b ?t with _ => _ end] =>
    destruct (b t) as [[?|[p q]] s1] eqn:E1; [done|] end.
  assert (∃ cl x0 le w1, g_cl_dnntf (st_globals s) = Some cl ∧
            m_dnntf e = Some (x0, le) ∧
            answers_pair W (batch_predictor (st_cfg s) DNNTF)
              [AObj cl; AObj le; AObj r; ACl (m_Cl e)] (p, q) ∧
            s1 = log (Call (batch_predictor (st_cfg s) DNNTF)
                        [AObj cl; AObj le; AObj r; ACl (m_Cl e)]) (upd_world w1 s))
    as (cl & x0 & le & w1 & Hcl & Hle & L & ->).
  { revert E1. cbn [batch_predictor].
    destruct (dnntf_runSkflowDNNTF (dnntfDef (st_cfg s))); cbn [negb];
      rewrite bind_run, global_run;
      (destruct (g_cl_dnntf (st_globals s)) as [cl|]; [|done]); cbv beta iota;
      (destruct (m_dnntf e) as [[x0 le]|]; [|done]);
      cbn [local fmap option_fmap option_map fst snd]; rewrite ret_bind;
      unfold call_pair, extcall;
      match goal with |- context [w_pair W ?fn ?args ?c ?w] =>
        destruct (w_pair W fn args c w) as [[[p' q']|] w1] eqn:L; [|done]
      end;
      apply answers_pair_intro in L; intros [= <- <- <-];
      by exists cl, x0, le, w1. }
  clear E1. cbv beta iota.
  rewrite bind_run, global_run. cbn [st_globals log upd_world].
  destruct (g_dnntfPred (st_globals s)) as [dp|] eqn:Hd; [|done]. cbv beta iota.
  rewrite bind_run.
  match goal with |- context [setitem ?a ?i ?p ?t] =>
    destruct (setitem a i p t) as [[?|[]] s1] eqn:S1; [done|] end.
  apply setitem_inv in S1 as (arr & Ha & Hi & ->). cbn [st_heap log upd_world] in Ha.
  rewrite bind_run, global_run. cbn [st_globals log upd_world upd_heap].
  rewrite Hd. cbv beta iota.
  rewrite bind_run.
  match goal with |- context [saveMap W e ?n ?pv ?i ?t] =>
    destruct (saveMap W e n pv i t) as [[?|[]] s2] eqn:S2; [done|] end.
  apply (saveMap_inv e DNNTF) in S2 as (p' & x & y & w2 & G & Hx & Hy & ->).
  rewrite getitem_written in G by done. injection G as <-.
  unfold set_dnnDef_alwaysRetrain. rewrite bind_run, global_run.
  cbn [st_globals log upd_world upd_heap].
  destruct (g_dnnDef (st_globals s)) as [d|] eqn:Hdef; [|done]. cbv beta iota.
  intros [= <-]. cbn.
  split_and!; try done.
  exists cl, x0, le, dp, d, p, q, x, y, arr. split_and!; try done.
  rewrite !model_calls_snoc.
  destruct (dnntf_runSkflowDNNTF (dnntfDef (st_cfg s))); cbn; by rewrite <- !app_assoc.
Qed.

End MapSectionRuns.

(** ** Map mode: one turn of the loop *)

Section MapTurnRun.
Context {obj label ext : Type}.
Context (W : @World obj label ext).
Implicit Types (s : @State obj label ext) (tr : list (@event obj label)).
Implicit Types (e : @MapEnv obj label).

Local Arguments model_calls : simpl never.
Local Arguments calls_in : simpl never.
Local Arguments pixel_dnntf : simpl never.
Local Arguments pixel_keras : simpl never.
Local Arguments pixel_nn : simpl never.
Local Arguments pixel_svm : simpl never.
Local Arguments pixel_tf : simpl never.
Local Arguments pixel_km : simpl never.

Lemma same_sections_refl c : same_sections c c.
Proof. by split_and!. Qed.

Lemma same_sections_trans c1 c2 c3 :
  same_sections c1 c2 → same_sections c2 c3 → same_sections c1 c3.
Proof. intros (R1 & E1 & P1) (R2 & E2 & P2). split_and!; intros; congruence. Qed.

Lemma same_sections_clear c b f :
  f = set_nn_alwaysRetrain false ∨ f = set_svm_alwaysRetrain false ∨
  f = set_tf_alwaysRetrain false ∨ f = set_km_plotKM false →
  same_sections c (clear_if b f c).
Proof.
  intros Hf. destruct b; [|apply same_sections_refl].
  destruct Hf as [->|[->|[->| ->]]]; split_and!; try done; by intros [].
Qed.

Lemma calls_in_one names fn (args : list (@arg obj label)) :
  calls_in names [Call fn args] = if bool_decide (fn ∈ names) then [Call fn args] else [].
Proof. unfold calls_in. cbn. by rewrite app_nil_r. Qed.

(** A filter of the log that follows the log through [model_calls]. *)
Lemma calls_in_delta names s s' evs :
  bool_decide ("PCA" ∈ names) = false → bool_decide ("pyplot" ∈ names) = false →
  model_calls (st_trace s') = model_calls (st_trace s) ++ evs →
  calls_in names (st_trace s') = calls_in names (st_trace s) ++ calls_in names evs.
Proof.
  intros H1 H2 E.
  by rewrite <- (calls_in_model_calls names (st_trace s')), E, calls_in_app,
    calls_in_model_calls.
Qed.

Lemma section_off c e g i x y m p s s' :
  map_runs c m = false → st_heap s' = st_heap s →
  model_calls (st_trace s') = model_calls (st_trace s) →
  section_run c e g i x y m p s s'.
Proof.
  intros Hoff Hh Ht. unfold section_run, store. rewrite Hoff. split_and!; try done.
  rewrite (calls_in_delta map_log s s' []) by (by rewrite ?app_nil_r). done.
Qed.

Lemma section_on c e g i r m a arr pre p x y s s' :
  map_runs c m = true → target e g m = Some a →
  st_heap s !! a = Some arr →
  st_heap s' = <[a := <[i := p]> arr]> (st_heap s) →
  m_X e !! i = Some x → m_Y e !! i = Some y →
  calls_in map_log pre = [] →
  model_calls (st_trace s') = model_calls (st_trace s) ++ pre ++ [map_entry e m p x y] →
  section_run c e g i (default r (m_X e !! i)) (default r (m_Y e !! i)) m p s s'.
Proof.
  intros Hon Ht Ha Hh Hx Hy Hpre Htr. unfold section_run, store. rewrite Hon, Ht, Hx, Hy.
  split_and!; try done.
  - by rewrite (list_lookup_total_correct _ _ _ Ha).
  - rewrite (calls_in_delta map_log s s' _ eq_refl eq_refl Htr), calls_in_app, Hpre.
    by destruct m.
Qed.

Lemma map_pixel_run e v r s v' s' :
  map_pixel W e v r s = (inr v', s') →
  let c := st_cfg s in
  let g := st_globals s in
  let i := v_i v in
  v_i v' = S i ∧ v_type v' = 1 ∧
  st_cfg s' = pixel_cleared c ∧
  st_globals s' = (if enabled c DNNTF then set_g_dnnDef (Some (Some false)) g else g) ∧
  map_names_bound c e g ∧
  ∃ val x y,
    (∀ m, map_runs c m = true → m_X e !! i = Some x ∧ m_Y e !! i = Some y) ∧
    st_heap s' = pixel_heap c e g i val (st_heap s) ∧
    calls_in map_log (st_trace s') = calls_in map_log (st_trace s) ++
      Call "preProcessNormPredData"
        [AObj r; AObj (m_Rx e); AObj (m_En e); AObj (m_YnormXind e); AInt (v_type v)]
      :: map_entries c e val x y ∧
    if enabled c TF
    then ∃ l, v_tfPred v' = Val l ∧ w_getitem W l i = Some (val TF)
    else v_tfPred v' = v_tfPred v.
Proof.
  intros E c g i. revert E. unfold map_pixel. fold i.
  rewrite bind_run. unfold call_pair at 1, extcall.
  destruct (w_pair W "preProcessNormPredData" _ _ _) as [[[r' rorig]|] w1]; [|done].
  cbv beta iota.
  match goal with |- (_ ≫= _) ?t = _ → _ => set (s0 := t) end.
  assert (F0 : st_cfg s0 = c ∧ st_globals s0 = g ∧ st_heap s0 = st_heap s ∧
               calls_in map_log (st_trace s0) = calls_in map_log (st_trace s) ++
                 [Call "preProcessNormPredData"
                    [AObj r; AObj (m_Rx e); AObj (m_En e); AObj (m_YnormXind e);
                     AInt (v_type v)]]).
  { subst s0. cbn. by rewrite calls_in_snoc. }
  clearbody s0. destruct F0 as (C0 & G0 & H0 & T0).
  (* DNN-TF *)
  rewrite bind_run.
  destruct (pixel_dnntf W e i r' s0) as [[?|[]] s1] eqn:E1; [done|].
  apply pixel_dnntf_run in E1 as (C1 & B1). rewrite C0, G0 in B1.
  (* Keras *)
  rewrite bind_run.
  destruct (pixel_keras W e i r' s1) as [[?|[]] s2] eqn:E2; [done|].
  apply pixel_keras_run in E2 as (G2 & C2 & K2 & B2). rewrite C1, C0 in K2, B2.
  (* NN *)
  rewrite bind_run.
  destruct (pixel_nn W e i r' s2) as [[?|[]] s3] eqn:E3; [done|].
  apply pixel_nn_run in E3 as (G3 & C3 & B3). rewrite C2, C1, C0 in C3, B3.
  assert (S3 : same_sections c (st_cfg s3)) by (rewrite C3; apply same_sections_clear; tauto).
  (* SVM *)
  rewrite bind_run.
  destruct (pixel_svm W e i r' s3) as [[?|[]] s4] eqn:E4; [done|].
  apply pixel_svm_run in E4 as (G4 & C4 & B4).
  assert (S4 : same_sections c (st_cfg s4)).
  { rewrite C4. eapply same_sections_trans; [exact S3|]. apply same_sections_clear. tauto. }
  (* raw TensorFlow *)
  rewrite bind_run.
  destruct (pixel_tf W e (v_tfPred v) i r' s4) as [[?|pv] s5] eqn:E5; [done|].
  apply pixel_tf_run in E5 as (G5 & H5 & C5 & B5).
  assert (S5 : same_sections c (st_cfg s5)).
  { rewrite C5. eapply same_sections_trans; [exact S4|]. apply same_sections_clear. tauto. }
  (* K-Means *)
  rewrite bind_run.
  destruct (pixel_km W e i r' rorig s5) as [[?|[]] s6] eqn:E6; [done|].
  apply pixel_km_run in E6 as (G6 & C6 & B6).
  intros [= <- <-]. cbn [v_i v_type v_tfPred].
  destruct S3 as (_ & En3 & _), S4 as (_ & En4 & _), S5 as (_ & En5 & _).
  rewrite En3 in C4, B4. rewrite En4 in C5, B5. rewrite En5 in C6, B6.
  split_and!.
  - lia.
  - done.
  - unfold pixel_cleared. by rewrite C6, C5, C4, C3.
  - rewrite G6, G5, G4, G3, G2.
    destruct (enabled c DNNTF); [|tauto].
    by destruct B1 as (?&?&?&?&?&?&?&?&?&?&?&?&?&?&?&?&?&?&?&?&?&?).
  - split_and!.
    + done.
    + intros Hd. rewrite Hd in B1.
      destruct B1 as (?&?&?&?&?&?&?&?&?&?&->&?&->&->&?). by split_and!.
    + intros Hk. rewrite Hk in B2.
      destruct B2 as (?&?&?&?&?&?&?&?&->&Hkp&?). split; [done|].
      assert (g_kerasPred (st_globals s1) = g_kerasPred g) as <-; [|by rewrite Hkp].
      destruct (enabled c DNNTF); [|by destruct B1 as (-> & _)].
      by destruct B1 as (?&?&?&?&?&?&?&?&?&?&?&?&?&?&?&?&?&?&?&?&->&?).
  - set (xd := default r (m_X e !! i)). set (yd := default r (m_Y e !! i)).
    assert (G1 : g_dnntfPred (st_globals s1) = g_dnntfPred g ∧
                 g_kerasPred (st_globals s1) = g_kerasPred g).
    { destruct (enabled c DNNTF); [|by destruct B1 as (-> & _)].
      by destruct B1 as (?&?&?&?&?&?&?&?&?&?&?&?&?&?&?&?&?&?&?&?&->&?). }
    destruct G1 as [Gd Gk].
    assert (∃ p, section_run c e g i xd yd DNNTF p s0 s1) as (p1 & U1).
    { destruct (enabled c DNNTF) eqn:Hon.
      - destruct B1 as (cl&x0&le&dp&d&p&q&x&y&arr&?&?&Hdp&?&?&Hx&Hy&Ha&Hi&Hh&?&Htr).
        exists p. eapply (section_on _ _ _ _ _ DNNTF dp arr [_]); try done.
        rewrite calls_in_one. unfold batch_predictor.
        by destruct (dnntf_runSkflowDNNTF (dnntfDef c)).
      - exists r. destruct B1 as (_ & Hh & Htr). by apply section_off. }
    assert (∃ p, section_run c e g i xd yd Keras p s1 s2) as (p2 & U2).
    { destruct (map_runs c Keras) eqn:Hon.
      - destruct B2 as (model&le&kp&p&q&x&y&arr&?&Hkp&?&Hx&Hy&Ha&Hi&Hh&Htr).
        exists p. eapply (section_on _ _ _ _ _ Keras kp arr [_]); try done;
          [cbn; by rewrite <- Gk|by rewrite calls_in_one].
      - exists r. destruct B2 as (Hh & Htr). by apply section_off. }
    assert (∃ p, section_run c e g i xd yd NN p s2 s3) as (p3 & U3).
    { destruct (enabled c NN) eqn:Hon.
      - destruct B3 as (clf&le&p&q&x&y&arr&?&?&Hx&Hy&Ha&Hi&Hh&Htr).
        exists p. eapply (section_on _ _ _ _ _ NN _ arr [_]); try done.
        by rewrite calls_in_one.
      - exists r. destruct B3 as (Hh & Htr). by apply section_off. }
    assert (∃ p, section_run c e g i xd yd SVM p s3 s4) as (p4 & U4).
    { destruct (enabled c SVM) eqn:Hon.
      - destruct B4 as (clf&le&p&q&x&y&arr&?&?&Hx&Hy&Ha&Hi&Hh&Htr).
        exists p. eapply (section_on _ _ _ _ _ SVM _ arr [_]); try done.
        by rewrite calls_in_one.
      - exists r. destruct B4 as (Hh & Htr). by apply section_off. }
    assert (∃ p, section_run c e g i xd yd TF p s4 s5 ∧
                 if enabled c TF
                 then ∃ l, pv = Val l ∧ w_getitem W l i = Some p
                 else pv = v_tfPred v) as (p5 & U5 & V5).
    { destruct (enabled c TF) eqn:Hon.
      - destruct B5 as (l&q&p&x&y&?&->&Hg&Hx&Hy&Htr).
        exists p. split; [|by exists l].
        unfold section_run, store. cbn [map_runs target]. subst xd yd.
        rewrite Hon, Hx, Hy. split_and!; try done.
        by rewrite (calls_in_delta map_log s4 s5 _ eq_refl eq_refl Htr).
      - exists r. destruct B5 as (-> & Htr). split; [|done]. by apply section_off. }
    assert (∃ p, section_run c e g i xd yd KM p s5 s6) as (p6 & U6).
    { destruct (enabled c KM) eqn:Hon.
      - destruct B6 as (p&x&y&arr&Hx&Hy&Ha&Hi&Hh&Htr).
        exists p. eapply (section_on _ _ _ _ _ KM _ arr [_]); try done.
        by rewrite calls_in_one.
      - exists r. destruct B6 as (Hh & Htr). by apply section_off. }
    exists (λ m, match m with
                 | DNNTF => p1 | Keras => p2 | NN => p3 | SVM => p4 | TF => p5 | KM => p6
                 end), xd, yd.
    destruct U1 as (Hh1 & Ht1 & Hl1), U2 as (Hh2 & Ht2 & Hl2), U3 as (Hh3 & Ht3 & Hl3),
      U4 as (Hh4 & Ht4 & Hl4), U5 as (Hh5 & Ht5 & Hl5), U6 as (Hh6 & Ht6 & Hl6).
    split_and!.
    + by intros [].
    + unfold pixel_heap. cbn [foldl map_order].
      rewrite Hh6, Hh5, Hh4, Hh3, Hh2, Hh1, H0. reflexivity.
    + rewrite Ht6, Ht5, Ht4, Ht3, Ht2, Ht1, T0. rewrite <- !app_assoc. cbn [app].
      do 2 f_equal. unfold map_entries, map_order.
      rewrite !filter_cons, filter_nil.
      repeat match goal with
      | |- context [decide (map_runs c ?m = true)] =>
          destruct (map_runs c m); [rewrite (decide_True (P := true = true)) by done
                                   |rewrite (decide_False (P := false = true)) by done]
      end; reflexivity.
    + exact V5.
Qed.

End MapTurnRun.

(** ** Map mode: the loop *)

Section MapLoopRun.
Context {obj label ext : Type}.
Context (W : @World obj label ext).
Implicit Types (s : @State obj label ext) (tr : list (@event obj label)).
Implicit Types (e : @MapEnv obj label).

Local Arguments model_calls : simpl never.
Local Arguments calls_in : simpl never.
Local Arguments map_pixel : simpl never.
Local Arguments pixel_heap : simpl never.
Local Arguments map_entries : simpl never.

Lemma same_sections_pixel c : same_sections c (pixel_cleared c).
Proof.
  unfold pixel_cleared.
  repeat (eapply same_sections_trans; [|apply same_sections_clear; tauto]).
  apply same_sections_refl.
Qed.

Lemma pixel_cleared_idemp c : pixel_cleared (pixel_cleared c) = pixel_cleared c.
Proof.
  unfold pixel_cleared.
  destruct (enabled c KM) eqn:E1, (enabled c TF) eqn:E2, (enabled c SVM) eqn:E3,
    (enabled c NN) eqn:E4; cbn in *; rewrite ?E1, ?E2, ?E3, ?E4; reflexivity.
Qed.

Lemma map_entries_sections c c' e (val : family → obj) x y :
  same_sections c c' → map_entries c' e val x y = map_entries c e val x y.
Proof.
  intros (Hr & _). unfold map_entries. f_equal.
  apply list_filter_iff. intros m. by rewrite Hr.
Qed.

Lemma target_dnnDef e (g : @Globals obj) d m : target e (set_g_dnnDef d g) m = target e g m.
Proof. by destruct m. Qed.

Lemma pixel_heap_sections c c' e g g' i (val : family → obj) h :
  same_sections c c' → (∀ m, target e g' m = target e g m) →
  pixel_heap c' e g' i val h = pixel_heap c e g i val h.
Proof.
  intros (Hr & _) Ht. unfold pixel_heap, map_order, store. cbn [foldl].
  by rewrite !Hr, !Ht.
Qed.

Lemma loop_heap_sections c c' e g g' i (pxs : list (@Pixel obj)) h :
  same_sections c c' → (∀ m, target e g' m = target e g m) →
  loop_heap c' e g' i pxs h = loop_heap c e g i pxs h.
Proof.
  intros Hs Ht. revert i h. induction pxs as [|[[val x] y] pxs IH]; intros i h; [done|].
  cbn [loop_heap]. by rewrite IH, (pixel_heap_sections c c' e g g').
Qed.

Lemma loop_log_sections c c' e ty R (pxs : list (@Pixel obj)) :
  same_sections c c' → loop_log c' e ty R pxs = loop_log c e ty R pxs.
Proof.
  intros Hs. revert ty pxs. induction R as [|r R IH]; intros ty [|[[val x] y] pxs]; try done.
  cbn [loop_log]. by rewrite IH, (map_entries_sections c c').
Qed.

Lemma map_loop_run e R v s v' s' :
  map_loop W e v R s = (inr v', s') →
  let c := st_cfg s in
  let g := st_globals s in
  v_i v' = (v_i v + length R)%nat ∧
  st_cfg s' = loop_cleared R c ∧
  st_globals s' = loop_globals R c g ∧
  (R ≠ [] → map_names_bound c e g) ∧
  ∃ pxs : list Pixel,
    length pxs = length R ∧
    (∀ k val x y m, pxs !! k = Some (val, x, y) → map_runs c m = true →
       m_X e !! (v_i v + k)%nat = Some x ∧ m_Y e !! (v_i v + k)%nat = Some y) ∧
    st_heap s' = loop_heap c e g (v_i v) pxs (st_heap s) ∧
    calls_in map_log (st_trace s')
    = calls_in map_log (st_trace s) ++ loop_log c e (v_type v) R pxs.
Proof.
  revert v s. induction R as [|r R IH]; intros v s.
  - intros [= <- <-]. cbn. split_and!; [lia|done|done|done|].
    exists []. split_and!; try done. by rewrite app_nil_r.
  - cbn [map_loop]. rewrite bind_run.
    destruct (map_pixel W e v r s) as [[?|v1] s1] eqn:E1; [done|].
    apply map_pixel_run in E1
      as (I1 & Ty1 & C1 & G1 & N1 & val & x & y & L1 & H1 & T1 & _).
    intros E2. apply IH in E2 as (I2 & C2 & G2 & N2 & pxs & Lp & Lk & H2 & T2).
    pose proof (same_sections_pixel (st_cfg s)) as Hs.
    assert (Ht : ∀ m, target e (st_globals s1) m = target e (st_globals s) m).
    { intros m. rewrite G1. destruct (enabled _ DNNTF); [apply target_dnnDef|done]. }
    split_and!.
    + rewrite I2, I1. cbn. lia.
    + rewrite C2, C1. cbn. destruct R; [done|]. apply pixel_cleared_idemp.
    + rewrite G2, G1, C1. unfold loop_globals.
      destruct Hs as (_ & Hen & _). rewrite Hen. destruct R; [done|].
      by destruct (enabled (st_cfg s) DNNTF).
    + done.
    + exists ((val, x, y) :: pxs). split_and!.
      * cbn. by rewrite Lp.
      * intros [|k] val' x' y' m; cbn.
        -- intros [= <- <- <-] Hm. rewrite Nat.add_0_r. by apply (L1 m).
        -- intros Hk Hm. replace (v_i v + S k)%nat with (v_i v1 + k)%nat by lia.
           eapply (Lk k val' x' y' m); [exact Hk|]. rewrite C1.
           destruct Hs as (Hr & _). by rewrite Hr.
      * cbn [loop_heap]. rewrite H2, H1, C1, I1.
        by apply loop_heap_sections.
      * rewrite T2, T1, Ty1, C1. cbn [loop_log].
        rewrite (loop_log_sections _ _ _ _ _ _ Hs). by rewrite <- !app_assoc.
Qed.

End MapLoopRun.

(** ** Map mode: setup, loop and plots *)

Section MapStages.
Context {obj label ext : Type}.
Context (W : @World obj label ext).
Implicit Types (s : @State obj label ext) (tr : list (@event obj label)).
Implicit Types (e : @MapEnv obj label).

Local Arguments model_calls : simpl never.
Local Arguments calls_in : simpl never.
Local Arguments map_pixel : simpl never.
Local Arguments pixel_heap : simpl never.
Local Arguments map_entries : simpl never.

Lemma keeps_np_empty {X} (π : @State obj label ext → X) n :
  (∀ h s, π (upd_heap h s) = π s) → keeps π (np_empty W n).
Proof. intros H s. apply H. Qed.

Lemma train_keras_result En A Cl root s o s' :
  train_keras W En A Cl root s = (inr o, s') →
  is_Some o ↔ enabled (st_cfg s) Keras = true.
Proof.
  unfold train_keras. mrun_goal. destruct (keras_runKeras _); intros E; simplify_eq/=;
    mcases; (split; intros H; try done; try (by eexists); try (by destruct H)).
Qed.

Lemma map_setup_env lf mf s e v s1 :
  map_setup W lf mf s = (inr (e, v), s1) →
  m_mapFile e = mf ∧ answers_map W [AStr mf] (m_X e, m_Y e, m_R e, m_Rx e) ∧
  v_type v = 0 ∧ (is_Some (m_keras e) ↔ enabled (st_cfg s) Keras = true).
Proof.
  unfold map_setup. rewrite bind_run. unfold call_learn at 1, extcall.
  destruct (w_learn W "readLearnFile" _ _ _) as [[[[[En Cl] A] Y]|] w1]; cbn; [|done].
  rewrite bind_run. cbn.
  destruct (w_map W "readPredMap" _ _ _) as [[[[[X Yc] R] Rx]|] w2] eqn:Lm; cbn; [|done].
  assert (Am : answers_map W [AStr mf] (X, Yc, R, Rx)).
  { eexists _, _. by rewrite Lm. }
  clear Lm.
  rewrite bind_run. unfold np_empty at 1. cbn.
  rewrite bind_run. unfold call_learn at 1, extcall. cbn.
  destruct (w_learn W "preProcessNormLearningData" _ _ _) as [[[[[A' Cl'] En'] Aorig]|] w3];
    cbn; [|done].
  rewrite bind_run. unfold print at 1. cbn.
  match goal with |- (_ ≫= _) ?t = _ → _ => set (s0 := t) end.
  assert (F0 : st_cfg s0 = st_cfg s) by done.
  clearbody s0.
  rewrite bind_run.
  destruct (train_nn _ _ _ _ s0) as [[?|nn] t1] eqn:E1; [done|].
  apply train_nn_spec in E1 as (_ & H1c & _).
  rewrite bind_run.
  destruct (train_dnntf _ _ _ _ t1) as [[?|dnntf] t2] eqn:E2; [done|].
  apply train_dnntf_spec in E2 as (_ & H2c & _).
  rewrite bind_run.
  destruct (train_keras _ _ _ _ _ t2) as [[?|keras] t3] eqn:E3; [done|].
  apply train_keras_result in E3.
  rewrite bind_run.
  destruct (train_svm _ _ _ _ t3) as [[?|svm] t4] eqn:E4; [done|].
  intros [= <- <- <-]. cbn. split_and!; try done.
  by rewrite E3, H2c, H1c, F0.
Qed.

Lemma map_setup_keeps lf mf :
  keeps (λ s, (st_cfg s, st_globals s, st_files s, st_pool s, st_cwd s,
               calls_in map_log (st_trace s), calls_in ["plotMaps"] (st_trace s)))
    (map_setup W lf mf).
Proof.
  assert (K : keeps (λ s : State, (st_cfg s, st_globals s, st_files s, st_pool s, st_cwd s))
                (map_setup W lf mf)).
  { unfold map_setup, train_nn, train_dnntf, train_keras, train_svm.
    unfold fmap, M_fmap, call_learn, call_pair, call_one, call_proc.
    repeat first [apply keeps_np_empty; by_fields | keeps_step by_fields]. }
  assert (Q : keeps (λ s : State, calls_in map_log (st_trace s)) (map_setup W lf mf)).
  { unfold map_setup, train_nn, train_dnntf, train_keras, train_svm.
    unfold fmap, M_fmap, call_learn, call_pair, call_one, call_proc.
    repeat first [apply keeps_np_empty; by_names | keeps_step by_names]. }
  assert (P : keeps (λ s : State, calls_in ["plotMaps"] (st_trace s)) (map_setup W lf mf)).
  { unfold map_setup, train_nn, train_dnntf, train_keras, train_svm.
    unfold fmap, M_fmap, call_learn, call_pair, call_one, call_proc.
    repeat first [apply keeps_np_empty; by_names | keeps_step by_names]. }
  intros s. specialize (K s). specialize (Q s). specialize (P s). cbv beta in *.
  rewrite !pair_eq in K. rewrite !pair_eq. tauto.
Qed.

Lemma map_plots_keeps e v :
  keeps (λ s, (st_cfg s, st_globals s, st_files s, st_pool s, st_cwd s, st_heap s,
               calls_in map_log (st_trace s)))
    (map_plots W e v).
Proof.
  assert (K : keeps (λ s : State, (st_cfg s, st_globals s, st_files s, st_pool s, st_cwd s,
                                   st_heap s))
                (map_plots W e v)).
  { unfold map_plots, plotMaps, call_proc. repeat keeps_step by_fields. }
  assert (Q : keeps (λ s : State, calls_in map_log (st_trace s)) (map_plots W e v)).
  { unfold map_plots, plotMaps, call_proc. repeat keeps_step by_names. }
  intros s. specialize (K s). specialize (Q s). cbv beta in *.
  rewrite !pair_eq in K. rewrite !pair_eq. tauto.
Qed.

(** The stages of a map run that completes. *)
Lemma LearnPredictMap_stages lf mf s s' :
  LearnPredictMap W lf mf s = (inr (), s') →
  ∃ e v s1 v' s2,
    map_setup W lf mf s = (inr (e, v), s1) ∧
    map_loop W e v (m_R e) s1 = (inr v', s2) ∧
    map_plots W e v' s2 = (inr (), s').
Proof.
  unfold LearnPredictMap. rewrite bind_run.
  destruct (map_setup W lf mf s) as [[?|[e v]] s1] eqn:E1; [done|].
  rewrite bind_run.
  destruct (map_loop W e v (m_R e) s1) as [[?|v'] s2] eqn:E2; [done|].
  intros E3. by exists e, v, s1, v', s2.
Qed.

End MapStages.

(** ** Map mode: the run *)

Section MapRunProofs.
Context {obj label ext : Type}.
Context (W : @World obj label ext).
Implicit Types (s : @State obj label ext) (tr : list (@event obj label)).
Implicit Types (e : @MapEnv obj label).

Local Arguments model_calls : simpl never.
Local Arguments calls_in : simpl never.
Local Arguments map_pixel : simpl never.
Local Arguments pixel_heap : simpl never.
Local Arguments map_entries : simpl never.

Lemma map_entries_saves c e (val : family → obj) x y :
  calls_in ["saveMap"] (map_entries c e val x y) = map_entries c e val x y ∧
  calls_in ["preProcessNormPredData"] (map_entries c e val x y) = [].
Proof.
  unfold map_entries. induction (filter _ map_order) as [|m l [IH1 IH2]]; [done|].
  cbn [fmap list_fmap]. rewrite !calls_in_cons, IH1, IH2. done.
Qed.

Lemma loop_log_saves c e ty R (pxs : list (@Pixel obj)) :
  length pxs = length R →
  calls_in ["saveMap"] (loop_log c e ty R pxs)
  = concat ((λ '(val, x, y), map_entries c e val x y) <$> pxs).
Proof.
  revert ty pxs. induction R as [|r R IH]; intros ty [|[[val x] y] pxs]; try done.
  intros [= Hl]. cbn [loop_log fmap list_fmap concat].
  rewrite calls_in_cons, calls_in_app, IH by done.
  by rewrite (proj1 (map_entries_saves _ _ _ _ _)).
Qed.

Lemma loop_log_prep c e ty R (pxs : list (@Pixel obj)) :
  length pxs = length R →
  calls_in ["preProcessNormPredData"] (loop_log c e ty R pxs)
  = imap (λ k r, Call "preProcessNormPredData"
                   [AObj r; AObj (m_Rx e); AObj (m_En e); AObj (m_YnormXind e);
                    AInt (match k with O => ty | S _ => 1 end)]) R.
Proof.
  revert ty pxs. induction R as [|r R IH]; intros ty [|[[val x] y] pxs]; try done.
  intros [= Hl]. cbn [loop_log imap].
  rewrite calls_in_cons, calls_in_app, IH by done.
  rewrite (proj2 (map_entries_saves _ _ _ _ _)). cbn. f_equal.
  apply imap_ext. by intros [|k] r' _.
Qed.

(** A filter of a filter. *)
Lemma calls_in_sub names names' tr :
  (∀ fn, fn ∈ names → fn ∈ names') →
  @calls_in obj label names (calls_in names' tr) = calls_in names tr.
Proof.
  intros Hsub. induction tr as [|ev tr IH]; [done|].
  rewrite !calls_in_cons, calls_in_app, IH. f_equal.
  destruct ev as [fn args|line]; [|done]. cbn.
  destruct (decide (fn ∈ names')) as [Hin|Hin].
  - rewrite (bool_decide_eq_true_2 _ Hin). unfold calls_in. cbn. by rewrite app_nil_r.
  - rewrite (bool_decide_eq_false_2 _ Hin).
    rewrite bool_decide_eq_false_2; [done|]. intros ?. by apply Hin, Hsub.
Qed.

Lemma calls_in_via names names' s s' evs :
  (∀ fn, fn ∈ names → fn ∈ names') →
  calls_in names' (st_trace s') = calls_in names' (st_trace s) ++ evs →
  calls_in names (st_trace s') = calls_in names (st_trace s) ++ calls_in names evs.
Proof.
  intros Hsub E.
  by rewrite <- (calls_in_sub names names' (st_trace s')), E, calls_in_app, calls_in_sub.
Qed.

Lemma map_log_saves fn : fn ∈ ["saveMap"] → fn ∈ @map_log.
Proof. intros ->%list_elem_of_singleton. by apply (bool_decide_unpack _). Qed.

Lemma map_log_prep fn : fn ∈ ["preProcessNormPredData"] → fn ∈ @map_log.
Proof. intros ->%list_elem_of_singleton. by apply (bool_decide_unpack _). Qed.

(** A map run that completes, in one statement. *)
Lemma LearnPredictMap_run lf mf s s' :
  LearnPredictMap W lf mf s = (inr (), s') →
  let c := st_cfg s in
  let g := st_globals s in
  ∃ e (pxs : list Pixel),
    m_mapFile e = mf ∧ answers_map W [AStr mf] (m_X e, m_Y e, m_R e, m_Rx e) ∧
    (is_Some (m_keras e) ↔ enabled c Keras = true) ∧
    st_cfg s' = loop_cleared (m_R e) c ∧
    st_globals s' = loop_globals (m_R e) c g ∧
    (m_R e ≠ [] → map_names_bound c e g) ∧
    length pxs = length (m_R e) ∧
    (∀ k val x y m, pxs !! k = Some (val, x, y) → map_runs c m = true →
       m_X e !! k = Some x ∧ m_Y e !! k = Some y) ∧
    calls_in map_log (st_trace s')
    = calls_in map_log (st_trace s) ++ loop_log c e 0 (m_R e) pxs ∧
    m_nnPred e = length (st_heap s) ∧ m_svmPred e = length (st_heap s) ∧
    m_kmPred e = length (st_heap s) ∧
    st_heap s' = loop_heap c e g 0 pxs
                   (st_heap s ++ [w_uninit W <$> seq 0 (length (m_X e))]).
Proof.
  intros E. apply LearnPredictMap_stages in E as (e & v & s1 & v' & s2 & E1 & E2 & E3).
  pose proof (map_setup_env _ _ _ _ _ _ _ E1) as (Hmf & Hmap & Hty & Hk).
  pose proof (map_setup_spec _ _ _ _ _ _ _ E1) as (As & An & Ak & _ & Hi & Hh1 & _).
  pose proof (map_setup_keeps W lf mf s) as K1. rewrite E1 in K1. cbn [snd] in K1.
  rewrite !pair_eq in K1. destruct K1 as ((((((C1 & G1) & _) & _) & _) & T1) & _).
  pose proof (map_plots_keeps W e v' s2) as K3. rewrite E3 in K3. cbn [snd] in K3.
  rewrite !pair_eq in K3. destruct K3 as ((((((C3 & G3) & _) & _) & _) & H3) & T3).
  apply map_loop_run in E2 as (_ & C2 & G2 & N2 & pxs & Lp & Lk & H2 & T2).
  rewrite C1, G1 in *. rewrite Hi, Hty in *.
  intros c g. subst c g. exists e, pxs.
  split_and!; try done;
    [congruence|congruence|by rewrite T3, T2, T1|by rewrite H3, H2, Hh1].
Qed.

(** The map output of a run that completes: for every spectrum of the
    map, in the order of the file, one entry for each section of the loop
    that runs, in the order DNN-TF, Keras, NN, SVM, raw TensorFlow,
    K-Means, under the section's name and at the coordinates the map file
    gives for that index.  No pixel is skipped and none is written twice.
    The Keras section runs on [dnntfDef.runKeras], the others on the
    switch of their family. *)
Theorem LearnPredictMap_entries lf mf s s' :
  LearnPredictMap W lf mf s = (inr (), s') →
  ∃ e (pxs : list Pixel),
    m_mapFile e = mf ∧ answers_map W [AStr mf] (m_X e, m_Y e, m_R e, m_Rx e) ∧
    length pxs = length (m_R e) ∧
    (∀ k val x y m, pxs !! k = Some (val, x, y) → map_runs (st_cfg s) m = true →
       m_X e !! k = Some x ∧ m_Y e !! k = Some y) ∧
    calls_in ["saveMap"] (st_trace s') = calls_in ["saveMap"] (st_trace s) ++
      concat ((λ '(val, x, y), map_entries (st_cfg s) e val x y) <$> pxs).
Proof.
  intros E. apply LearnPredictMap_run in E
    as (e & pxs & Hmf & Hmap & _ & _ & _ & _ & Lp & Lk & T & _).
  exists e, pxs. split_and!; try done.
  rewrite (calls_in_via ["saveMap"] map_log s s' _ map_log_saves T).
  by rewrite loop_log_saves.
Qed.

(** Every spectrum of the map is preprocessed once, in the order of the
    file; the first with [type] 0 and all later ones with [type] 1. *)
Theorem LearnPredictMap_preprocessing lf mf s s' :
  LearnPredictMap W lf mf s = (inr (), s') →
  ∃ X Y R Rx En YnormXind,
    answers_map W [AStr mf] (X, Y, R, Rx) ∧
    calls_in ["preProcessNormPredData"] (st_trace s')
    = calls_in ["preProcessNormPredData"] (st_trace s) ++
      imap (λ k r, Call "preProcessNormPredData"
                     [AObj r; AObj Rx; AObj En; AObj YnormXind; AInt (type_of_turn k)]) R.
Proof.
  intros E. apply LearnPredictMap_run in E
    as (e & pxs & Hmf & Hmap & _ & _ & _ & _ & Lp & Lk & T & _).
  exists (m_X e), (m_Y e), (m_R e), (m_Rx e), (m_En e), (m_YnormXind e). split; [done|].
  rewrite (calls_in_via ["preProcessNormPredData"] map_log s s' _ map_log_prep T).
  by rewrite loop_log_prep.
Qed.

(** A map with more spectra than coordinates cannot be processed: if a
    run completes and any section of the loop runs, the map file gave at
    least as many X and as many Y coordinates as spectra. *)
Theorem LearnPredictMap_bounds lf mf s s' m :
  map_runs (st_cfg s) m = true →
  LearnPredictMap W lf mf s = (inr (), s') →
  ∃ X Y R Rx,
    answers_map W [AStr mf] (X, Y, R, Rx) ∧
    (length R ≤ length X)%nat ∧ (length R ≤ length Y)%nat.
Proof.
  intros Hm E. apply LearnPredictMap_run in E
    as (e & pxs & Hmf & Hmap & _ & _ & _ & _ & Lp & Lk & T & _).
  exists (m_X e), (m_Y e), (m_R e), (m_Rx e). split; [done|].
  destruct (m_R e) as [|r R] eqn:HR using rev_ind; [cbn; lia|]. clear IHR.
  rewrite length_app in *. cbn in *.
  destruct (lookup_lt_is_Some_2 pxs (length R)) as [[[val x] y] Hp]; [lia|].
  destruct (Lk _ _ _ _ m Hp Hm) as [Hx Hy].
  apply lookup_lt_Some in Hx, Hy. lia.
Qed.

(** The names the map loop needs and its function does not bind: if a
    run over a map that is not empty completes, then [dnntfDef] has an
    attribute [runKeras]; if DNN-TF is enabled, [cl_dnntf], [dnntfPred]
    and [dnnDef] are module globals; and if [dnntfDef.runKeras] is on,
    then [kerasDef.runKeras] is on too (the model was trained) and
    [kerasPred] is a module global. *)
Theorem LearnPredictMap_names lf mf s s' :
  LearnPredictMap W lf mf s = (inr (), s') →
  ∃ X Y R Rx,
    answers_map W [AStr mf] (X, Y, R, Rx) ∧
    (R ≠ [] →
       is_Some (dnntf_runKeras (dnntfDef (st_cfg s))) ∧
       (enabled (st_cfg s) DNNTF = true →
          is_Some (g_cl_dnntf (st_globals s)) ∧ is_Some (g_dnntfPred (st_globals s)) ∧
          is_Some (g_dnnDef (st_globals s))) ∧
       (dnntf_runKeras (dnntfDef (st_cfg s)) = Some true →
          enabled (st_cfg s) Keras = true ∧ is_Some (g_kerasPred (st_globals s)))).
Proof.
  intros E. apply LearnPredictMap_run in E
    as (e & pxs & Hmf & Hmap & Hk & _ & _ & N & _).
  exists (m_X e), (m_Y e), (m_R e), (m_Rx e). split; [done|].
  intros HR. destruct (N HR) as (N1 & N2 & N3). split_and!; try done.
  intros Hrk. destruct N3 as [N3 N4].
  { cbn. by rewrite Hrk, bool_decide_eq_true_2. }
  split; [by apply Hk|done].
Qed.

(** ** What a map run leaves of the configuration *)

Lemma map_loop_keeps {X} (π : @State obj label ext → X) e R v :
  (∀ v r, keeps π (map_pixel W e v r)) → keeps π (map_loop W e v R).
Proof.
  intros H. revert v. induction R as [|r R IH]; intros v; cbn [map_loop]; [apply keeps_ret|].
  apply keeps_bind; [apply H|done].
Qed.

(** What a map run does to the configuration: whatever its outcome, it
    changes at most [nnDef.alwaysRetrain], [svmDef.alwaysRetrain],
    [tfDef.alwaysRetrain] and [kmDef.plotKM].  A run that completes over
    a map that is not empty has turned off, for each enabled family among
    NN, SVM, raw TensorFlow and K-Means, that family's flag of the four,
    and no other; over an empty map it changes nothing.  The flag of
    DNN-TF is never assigned: the loop assigns [dnnDef.alwaysRetrain], an
    attribute of another name, in the module's globals. *)
Theorem LearnPredictMap_flags lf mf s :
  let out := LearnPredictMap W lf mf s in
  but_map_flags (st_cfg out.2) = but_map_flags (st_cfg s) ∧
  (out.1 = inr () →
     ∃ X Y R Rx,
       answers_map W [AStr mf] (X, Y, R, Rx) ∧
       st_cfg out.2 = loop_cleared R (st_cfg s) ∧
       st_globals out.2 = loop_globals R (st_cfg s) (st_globals s)).
Proof.
  intros out. subst out.
  assert (K : keeps (λ s, (st_files s, st_pool s, but_map_flags (st_cfg s)))
                (LearnPredictMap W lf mf)).
  { unfold LearnPredictMap. apply keeps_bind; [|intros [e v]; apply keeps_bind; [|intros v']].
    - unfold map_setup, train_nn, train_dnntf, train_keras, train_svm.
      unfold fmap, M_fmap, call_learn, call_pair, call_one, call_proc.
      repeat first [apply keeps_np_empty; by_fields | keeps_step by_fields].
    - apply map_loop_keeps. intros v0 r.
      unfold map_pixel, pixel_dnntf, pixel_keras, pixel_nn, pixel_svm, pixel_tf, pixel_km,
        saveMap, call_pair, call_one, call_proc.
      repeat keeps_step by_fields.
    - unfold map_plots, plotMaps, call_proc. repeat keeps_step by_fields. }
  specialize (K s). cbv beta in K. rewrite !pair_eq in K. destruct K as (_ & Kc).
  split; [done|].
  destruct (LearnPredictMap W lf mf s) as [[?|[]] s'] eqn:E; [done|]. intros _.
  apply LearnPredictMap_run in E as (e & pxs & Hmf & Hmap & _ & C & G & _).
  by exists (m_X e), (m_Y e), (m_R e), (m_Rx e).
Qed.

End MapRunProofs.

(** ** Map mode: the shared array *)

Section MapArrayProofs.
Context {obj label ext : Type}.
Context (W : @World obj label ext).
Implicit Types (s : @State obj label ext) (tr : list (@event obj label)).
Implicit Types (e : @MapEnv obj label).

Local Arguments model_calls : simpl never.
Local Arguments calls_in : simpl never.
Local Arguments map_pixel : simpl never.
Local Arguments map_entries : simpl never.

Lemma written_length c i (pxs : list (@Pixel obj)) arr :
  length (written c i pxs arr) = length arr.
Proof.
  revert i arr. induction pxs as [|[[val x] y] pxs IH]; intros i arr; [done|].
  cbn [written]. rewrite IH. destruct (last_writer c); [apply length_insert|done].
Qed.

Lemma written_outside c i (pxs : list (@Pixel obj)) arr j :
  (j < i ∨ i + length pxs ≤ j)%nat → written c i pxs arr !! j = arr !! j.
Proof.
  revert i arr. induction pxs as [|[[val x] y] pxs IH]; intros i arr Hj; [done|].
  cbn [written]. rewrite IH by (cbn in Hj; lia).
  destruct (last_writer c); [|done]. apply list_lookup_insert_ne. cbn in Hj. lia.
Qed.

Lemma written_lookup c i (pxs : list (@Pixel obj)) arr k val x y m :
  last_writer c = Some m → pxs !! k = Some (val, x, y) → (i + k < length arr)%nat →
  written c i pxs arr !! (i + k)%nat = Some (val m).
Proof.
  intros Hm. revert i arr k. induction pxs as [|[[val' x'] y'] pxs IH]; intros i arr k; [done|].
  cbn [written]. rewrite Hm. destruct k as [|k]; cbn.
  - intros [= -> -> ->] Hi. rewrite Nat.add_0_r in *.
    rewrite written_outside by lia. by apply list_lookup_insert_eq.
  - intros Hk Hi. replace (i + S k)%nat with (S i + k)%nat by lia.
    apply IH; [done|]. rewrite length_insert. lia.
Qed.

Lemma written_none c i (pxs : list (@Pixel obj)) arr :
  last_writer c = None → written c i pxs arr = arr.
Proof.
  intros Hn. revert i arr. induction pxs as [|[[val x] y] pxs IH]; intros i arr; [done|].
  cbn [written]. by rewrite Hn, IH.
Qed.

(** The stores of a turn when the DNN-TF and Keras sections are off and
    the three names hold the address of the last array of the heap. *)
Lemma pixel_heap_shared c e g i (val : family → obj) h arr :
  map_runs c DNNTF = false → map_runs c Keras = false →
  m_nnPred e = length h → m_svmPred e = length h → m_kmPred e = length h →
  pixel_heap c e g i val (h ++ [arr])
  = h ++ [match last_writer c with
          | Some m => <[i := val m]> arr
          | None => arr
          end].
Proof.
  intros Hd Hk Hn Hs Hm. unfold pixel_heap, map_order, store, last_writer. cbn [foldl].
  rewrite Hd, Hk. cbn [map_runs target]. rewrite Hn, Hs, Hm.
  assert (Hw : ∀ a p, <[length h := <[i := p]> ((h ++ [a]) !!! length h)]> (h ++ [a])
                      = h ++ [<[i := p]> a]).
  { intros a p.
    rewrite (list_lookup_total_correct (h ++ [a]) (length h) a)
      by (by rewrite lookup_app_r, Nat.sub_diag).
    rewrite insert_app_r_alt, Nat.sub_diag by done. done. }
  destruct (enabled c NN), (enabled c SVM), (enabled c TF), (enabled c KM);
    rewrite ?Hw, ?list_insert_insert_eq; reflexivity.
Qed.

Lemma loop_heap_shared c e g i (pxs : list (@Pixel obj)) h arr :
  map_runs c DNNTF = false → map_runs c Keras = false →
  m_nnPred e = length h → m_svmPred e = length h → m_kmPred e = length h →
  loop_heap c e g i pxs (h ++ [arr]) = h ++ [written c i pxs arr].
Proof.
  intros Hd Hk Hn Hs Hm. revert i arr.
  induction pxs as [|[[val x] y] pxs IH]; intros i arr; [done|].
  cbn [loop_heap written]. by rewrite pixel_heap_shared, IH.
Qed.

(** Memory against sink.  Take the DNN-TF and Keras sections off, so that
    the loop stores into the one array of line 245 only.  After a run
    that completes, that array (the one new array of the heap) has as
    many cells as the map has coordinates, and for every pixel it holds
    the value that was written to the map output for the last enabled
    family among NN, SVM and K-Means: what an earlier one of them
    predicted for the pixel is in the map output and nowhere in memory.
    The cells beyond the last spectrum, and all cells if none of the three
    is enabled, are as [np.empty] left them. *)
Theorem LearnPredictMap_array lf mf s s' :
  enabled (st_cfg s) DNNTF = false →
  dnntf_runKeras (dnntfDef (st_cfg s)) = Some false →
  LearnPredictMap W lf mf s = (inr (), s') →
  ∃ e (pxs : list Pixel) arr,
    answers_map W [AStr mf] (m_X e, m_Y e, m_R e, m_Rx e) ∧
    length pxs = length (m_R e) ∧
    calls_in ["saveMap"] (st_trace s') = calls_in ["saveMap"] (st_trace s) ++
      concat ((λ '(val, x, y), map_entries (st_cfg s) e val x y) <$> pxs) ∧
    st_heap s' = st_heap s ++ [arr] ∧
    length arr = length (m_X e) ∧
    (∀ k val x y m, pxs !! k = Some (val, x, y) → last_writer (st_cfg s) = Some m →
       arr !! k = Some (val m)) ∧
    (∀ k, (length (m_R e) ≤ k < length (m_X e))%nat → arr !! k = Some (w_uninit W k)) ∧
    (last_writer (st_cfg s) = None → arr = w_uninit W <$> seq 0 (length (m_X e))).
Proof.
  intros Hd Hk E. apply LearnPredictMap_run in E
    as (e & pxs & Hmf & Hmap & _ & _ & _ & _ & Lp & Lk & T & An & As & Am & H).
  rewrite loop_heap_shared in H
    by (try done; cbn [map_runs]; by rewrite ?Hk, ?bool_decide_eq_false_2).
  set (arr0 := w_uninit W <$> seq 0 (length (m_X e))) in *.
  assert (L0 : length arr0 = length (m_X e)) by (subst arr0; by rewrite length_fmap, length_seq).
  exists e, pxs, (written (st_cfg s) 0 pxs arr0). split_and!; try done.
  - rewrite (calls_in_via ["saveMap"] map_log s s' _ map_log_saves T).
    by rewrite loop_log_saves.
  - by rewrite written_length.
  - intros k val x y m Hp Hm.
    assert (Hrun : map_runs (st_cfg s) m = true).
    { revert Hm. unfold last_writer.
      destruct (enabled (st_cfg s) KM) eqn:?, (enabled (st_cfg s) SVM) eqn:?,
        (enabled (st_cfg s) NN) eqn:?; intros [= <-]; done. }
    destruct (Lk _ _ _ _ m Hp Hrun) as [Hx _]. apply lookup_lt_Some in Hx.
    apply (written_lookup _ 0 pxs arr0 k val x y m Hm Hp). lia.
  - intros k Hk'. rewrite written_outside by lia.
    subst arr0. rewrite list_lookup_fmap, lookup_seq_lt by lia. done.
  - apply written_none.
Qed.

End MapArrayProofs.

(** ** Map mode: the plots *)

Section MapPlotsProofs.
Context {obj label ext : Type}.
Context (W : @World obj label ext).
Implicit Types (s : @State obj label ext) (tr : list (@event obj label)).
Implicit Types (e : @MapEnv obj label).

Local Arguments model_calls : simpl never.
Local Arguments calls_in : simpl never.

Ltac plot_stage E :=
  revert E; clear; unfold plotMaps, as_arg, when, map_plot; mrun_goal;
  repeat match goal with
  | |- context [if ?b then _ else _] => destruct b eqn:?; cbn
  end;
  intros E; simplify_eq/=; mcases; rewrite ?calls_in_snoc; cbn; rewrite ?app_nil_r;
  try done.

(** The plots after the loop, when the DNN-TF section is off. *)
Lemma map_plots_run e v s s' :
  enabled (st_cfg s) DNNTF = false →
  map_plots W e v s = (inr (), s') →
  ∃ tfPred,
    calls_in ["plotMaps"] (st_trace s') = calls_in ["plotMaps"] (st_trace s) ++
      when (nn_plotMap (nnDef (st_cfg s)) && enabled (st_cfg s) NN)
        [map_plot e (AList (default [] (st_heap s !! m_nnPred e)))
           "Deep Neural networks - sklearn"] ++
      when (svm_plotMap (svmDef (st_cfg s)) && enabled (st_cfg s) SVM)
        [map_plot e (AList (default [] (st_heap s !! m_svmPred e))) "SVM"] ++
      when (tf_plotMap (tfDef (st_cfg s)) && enabled (st_cfg s) TF)
        [map_plot e tfPred "TensorFlow"] ++
      when (km_plotMap (kmDef (st_cfg s)) && enabled (st_cfg s) KM)
        [map_plot e (AList (default [] (st_heap s !! m_kmPred e))) "K-Means Prediction"].
Proof.
  intros Hd. unfold map_plots. rewrite bind_run. unfold get_cfg at 1. cbv beta iota.
  cbn [enabled] in Hd. rewrite Hd, andb_false_r. rewrite ret_bind.
  (* NN *)
  rewrite bind_run. unfold get_cfg at 1. cbv beta iota. rewrite bind_run.
  match goal with |- context [match ?b ?t with _ => _ end] =>
    destruct (b t) as [[?|[]] s1] eqn:E1; [done|] end.
  assert (F1 : st_cfg s1 = st_cfg s ∧ st_heap s1 = st_heap s ∧
               calls_in ["plotMaps"] (st_trace s1) = calls_in ["plotMaps"] (st_trace s) ++
                 when (nn_plotMap (nnDef (st_cfg s)) && enabled (st_cfg s) NN)
                   [map_plot e (AList (default [] (st_heap s !! m_nnPred e)))
                      "Deep Neural networks - sklearn"]).
  { plot_stage E1. }
  clear E1. destruct F1 as (C1 & H1 & T1).
  (* SVM *)
  rewrite bind_run. unfold get_cfg at 1. cbv beta iota. rewrite bind_run.
  match goal with |- context [match ?b ?t with _ => _ end] =>
    destruct (b t) as [[?|[]] s2] eqn:E2; [done|] end.
  assert (F2 : st_cfg s2 = st_cfg s1 ∧ st_heap s2 = st_heap s1 ∧
               calls_in ["plotMaps"] (st_trace s2) = calls_in ["plotMaps"] (st_trace s1) ++
                 when (svm_plotMap (svmDef (st_cfg s1)) && enabled (st_cfg s1) SVM)
                   [map_plot e (AList (default [] (st_heap s1 !! m_svmPred e))) "SVM"]).
  { plot_stage E2. }
  clear E2. destruct F2 as (C2 & H2 & T2).
  (* raw TensorFlow *)
  rewrite bind_run. unfold get_cfg at 1. cbv beta iota. rewrite bind_run.
  match goal with |- context [match ?b ?t with _ => _ end] =>
    destruct (b t) as [[?|[]] s3] eqn:E3; [done|] end.
  assert (F3 : st_cfg s3 = st_cfg s2 ∧ st_heap s3 = st_heap s2 ∧
               ∃ tfPred,
               calls_in ["plotMaps"] (st_trace s3) = calls_in ["plotMaps"] (st_trace s2) ++
                 when (tf_plotMap (tfDef (st_cfg s2)) && enabled (st_cfg s2) TF)
                   [map_plot e tfPred "TensorFlow"]).
  { plot_stage E3; (split_and!; [done..|]); try (by eexists); exists (AStr "");
      by rewrite ?app_nil_r. }
  clear E3. destruct F3 as (C3 & H3 & tfPred & T3).
  (* K-Means *)
  unfold get_cfg at 1. rewrite bind_run. cbv beta iota.
  intros E4.
  assert (F4 : calls_in ["plotMaps"] (st_trace s') = calls_in ["plotMaps"] (st_trace s3) ++
                 when (km_plotMap (kmDef (st_cfg s3)) && enabled (st_cfg s3) KM)
                   [map_plot e (AList (default [] (st_heap s3 !! m_kmPred e)))
                      "K-Means Prediction"]).
  { plot_stage E4. }
  exists tfPred. rewrite F4, T3, T2, T1, H3, H2, H1, C3, C2, C1.
  by rewrite <- !app_assoc.
Qed.

Lemma loop_cleared_plots {A} (R : list A) c :
  enabled (loop_cleared R c) DNNTF = enabled c DNNTF ∧
  nn_plotMap (nnDef (loop_cleared R c)) && enabled (loop_cleared R c) NN
  = nn_plotMap (nnDef c) && enabled c NN ∧
  svm_plotMap (svmDef (loop_cleared R c)) && enabled (loop_cleared R c) SVM
  = svm_plotMap (svmDef c) && enabled c SVM ∧
  tf_plotMap (tfDef (loop_cleared R c)) && enabled (loop_cleared R c) TF
  = tf_plotMap (tfDef c) && enabled c TF ∧
  km_plotMap (kmDef (loop_cleared R c)) && enabled (loop_cleared R c) KM
  = km_plotMap (kmDef c) && enabled c KM.
Proof.
  destruct R; [done|].
  by destruct c as [? ? [[] ? ?] [[] ? ?] [[] ? ? ?] ? [[] ? ?] ? ?].
Qed.

(** The maps that are plotted.  With the DNN-TF and Keras sections off,
    a run that completes calls [plotMaps] for each of NN, SVM, raw
    TensorFlow and K-Means that is enabled and has its [plotMap] flag on,
    in that order, and the maps plotted for NN, for SVM and for K-Means
    are one and the same array, the one of line 245. *)
Theorem LearnPredictMap_plots lf mf s s' :
  enabled (st_cfg s) DNNTF = false →
  dnntf_runKeras (dnntfDef (st_cfg s)) = Some false →
  LearnPredictMap W lf mf s = (inr (), s') →
  ∃ e arr tfPred,
    answers_map W [AStr mf] (m_X e, m_Y e, m_R e, m_Rx e) ∧
    st_heap s' = st_heap s ++ [arr] ∧
    calls_in ["plotMaps"] (st_trace s') = calls_in ["plotMaps"] (st_trace s) ++
      when (nn_plotMap (nnDef (st_cfg s)) && enabled (st_cfg s) NN)
        [map_plot e (AList arr) "Deep Neural networks - sklearn"] ++
      when (svm_plotMap (svmDef (st_cfg s)) && enabled (st_cfg s) SVM)
        [map_plot e (AList arr) "SVM"] ++
      when (tf_plotMap (tfDef (st_cfg s)) && enabled (st_cfg s) TF)
        [map_plot e tfPred "TensorFlow"] ++
      when (km_plotMap (kmDef (st_cfg s)) && enabled (st_cfg s) KM)
        [map_plot e (AList arr) "K-Means Prediction"].
Proof.
  intros Hd Hk E.
  apply LearnPredictMap_stages in E as (e & v & s1 & v' & s2 & E1 & E2 & E3).
  pose proof (map_setup_env _ _ _ _ _ _ _ E1) as (Hmf & Hmap & Hty & _).
  pose proof (map_setup_spec _ _ _ _ _ _ _ E1) as (As & An & Ak & _ & Hi & Hh1 & _).
  pose proof (map_setup_keeps W lf mf s) as K1. rewrite E1 in K1. cbn [snd] in K1.
  rewrite !pair_eq in K1. destruct K1 as ((((((C1 & G1) & _) & _) & _) & _) & P1).
  assert (P2 : calls_in ["plotMaps"] (st_trace s2) = calls_in ["plotMaps"] (st_trace s1)).
  { assert (K : keeps (λ s : State, calls_in ["plotMaps"] (st_trace s))
                  (map_loop W e v (m_R e))).
    { apply map_loop_keeps. intros v0 r.
      unfold map_pixel, pixel_dnntf, pixel_keras, pixel_nn, pixel_svm, pixel_tf, pixel_km,
        saveMap, call_pair, call_one, call_proc.
      repeat keeps_step by_names. }
    specialize (K s1). by rewrite E2 in K. }
  pose proof (map_plots_keeps W e v' s2) as K3. rewrite E3 in K3. cbn [snd] in K3.
  rewrite !pair_eq in K3. destruct K3 as ((((((_ & _) & _) & _) & _) & H3) & _).
  apply map_loop_run in E2 as (_ & C2 & _ & _ & pxs & _ & _ & H2 & _).
  rewrite C1, G1, Hi, Hh1 in *.
  rewrite loop_heap_shared in H2
    by (try done; cbn [map_runs]; by rewrite ?Hk, ?bool_decide_eq_false_2).
  destruct (loop_cleared_plots (m_R e) (st_cfg s)) as (Ld & Ln & Ls & Lt & Lm).
  apply map_plots_run in E3 as (tfPred & T3); [|by rewrite C2, Ld].
  rewrite C2, Ln, Ls, Lt, Lm, H2, An, As, Ak in T3.
  rewrite lookup_app_r, Nat.sub_diag in T3 by done. cbn [lookup list_lookup default] in T3.
  eexists e, _, tfPred. split_and!; [done|by rewrite H3, H2|].
  by rewrite T3, P2, P1.
Qed.

End MapPlotsProofs.

(** ** The groups of the score plots *)

Section ScorePlotProofs.
Context {label : Type} `{EqDecision label}.
Context (label_le : relation label) `{!∀ x y, Decision (label_le x y)}.
Context `{!PartialOrder label_le, !Total label_le}.

Lemma collect_labels_spec (Cl acc : list label) :
  NoDup acc →
  NoDup (collect_labels Cl acc) ∧
  (∀ x, x ∈ collect_labels Cl acc ↔ x ∈ acc ∨ x ∈ Cl) ∧
  ∃ new, collect_labels Cl acc = acc ++ new ∧ new `sublist_of` Cl.
Proof.
  revert acc. induction Cl as [|x Cl IH]; intros acc Hnd; cbn [collect_labels].
  { split_and!; [done| |].
    - intros x. rewrite elem_of_nil. tauto.
    - exists []. by rewrite app_nil_r. }
  unfold in1d_invert. case_bool_decide as Hx.
  - destruct (IH (acc ++ [x])) as (N & El & new & E & Hsub).
    { apply NoDup_app. split_and!; [done| |apply NoDup_singleton].
      intros y Hy ->%list_elem_of_singleton. done. }
    split_and!; [done| |].
    + intros y. rewrite El, elem_of_app, list_elem_of_singleton, elem_of_cons. tauto.
    + exists (x :: new). rewrite E, <- app_assoc. split; [done|]. by apply sublist_skip.
  - destruct (IH acc Hnd) as (N & El & new & E & Hsub).
    split_and!; [done| |].
    + intros y. rewrite El, elem_of_cons.
      split; [tauto|]. intros [?|[->|?]]; [tauto| |tauto].
      left. destruct (decide (x ∈ acc)); [done|contradiction].
    + exists new. split; [done|]. by apply sublist_cons.
Qed.

Lemma np_where_eq_first (ar : list label) x i k :
  ar !! k = Some x → (∀ j, (j < k)%nat → ar !! j ≠ Some x) →
  np_where_eq ar x i !! 0%nat = Some (i + k)%nat.
Proof.
  revert i k. induction ar as [|y ar IH]; intros i k; [done|].
  destruct k as [|k]; cbn.
  - intros [= ->] _. rewrite decide_True by done. cbn. f_equal. lia.
  - intros Hk Hfirst. rewrite decide_False.
    2:{ intros ->. by apply (Hfirst 0%nat); [lia|]. }
    cbn. rewrite (IH (S i) k Hk).
    + f_equal. lia.
    + intros j Hj. apply (Hfirst (S j)). lia.
Qed.

Lemma first_index (ar : list label) x :
  x ∈ ar → ∃ k, ar !! k = Some x ∧ ∀ j, (j < k)%nat → ar !! j ≠ Some x.
Proof.
  induction ar as [|y ar IH]; [by intros ?%elem_of_nil|].
  destruct (decide (y = x)) as [->|Hne].
  - intros _. exists 0%nat. split; [done|]. intros j ?. lia.
  - rewrite elem_of_cons. intros [->|Hin]; [done|].
    destruct (IH Hin) as (k & Hk & Hfirst). exists (S k). split; [done|].
    intros [|j] Hj; cbn; [congruence|]. apply Hfirst. lia.
Qed.

Lemma score_labels_elem (Cl : list label) x : x ∈ score_labels Cl ↔ x ∈ Cl.
Proof.
  destruct (collect_labels_spec Cl []) as (_ & El & _); [apply NoDup_nil_2|].
  unfold score_labels. rewrite El, elem_of_nil.
  split; [by intros [[]|?]|by right].
Qed.

Lemma score_labels_length (Cl : list label) :
  length (score_labels Cl) = length (np_unique label_le Cl).
Proof.
  destruct (collect_labels_spec Cl []) as (N & _); [apply NoDup_nil_2|].
  pose proof (np_unique_distinct label_le Cl) as Hu. rewrite Hu.
  apply Permutation_length, NoDup_Permutation.
  - done.
  - apply NoDup_remove_dups.
  - intros x. by rewrite score_labels_elem, elem_of_remove_dups.
Qed.

Lemma collect_labels_snoc (Cl acc : list label) x :
  collect_labels (Cl ++ [x]) acc
  = if decide (x ∈ collect_labels Cl acc) then collect_labels Cl acc
    else collect_labels Cl acc ++ [x].
Proof.
  revert acc. induction Cl as [|y Cl IH]; intros acc; cbn [collect_labels app].
  - unfold in1d_invert. case_bool_decide; destruct (decide (x ∈ acc)); done.
  - apply IH.
Qed.

(** The first loop, sample by sample: a label is appended when it is met
    for the first time. *)
Lemma score_labels_snoc (Cl : list label) x :
  score_labels (Cl ++ [x])
  = if decide (x ∈ Cl) then score_labels Cl else score_labels Cl ++ [x].
Proof.
  unfold score_labels. rewrite collect_labels_snoc.
  pose proof (score_labels_elem Cl x) as El. unfold score_labels in El.
  destruct (decide (x ∈ collect_labels Cl [])), (decide (x ∈ Cl)); first [tauto|done].
Qed.

Lemma score_labels_first (Cl : list label) l1 x l2 :
  score_labels Cl = l1 ++ x :: l2 →
  ∃ c1 c2, Cl = c1 ++ x :: c2 ∧ (x ∉ c1) ∧ (∀ y, y ∈ l1 ↔ y ∈ c1).
Proof.
  revert l1 x l2. induction Cl as [|z Cl IH] using rev_ind; intros l1 x l2.
  { unfold score_labels. cbn. by destruct l1. }
  rewrite score_labels_snoc. destruct (decide (z ∈ Cl)) as [Hz|Hz].
  - intros E. destruct (IH _ _ _ E) as (c1 & c2 & -> & Hx & Hl).
    exists c1, (c2 ++ [z]). by rewrite <- app_assoc.
  - destruct l2 as [|w l2 _] using rev_ind.
    + intros [<- <-]%app_inj_tail. exists Cl, []. split_and!; [done|done|].
      intros y. apply score_labels_elem.
    + rewrite app_comm_cons, app_assoc. intros [E <-]%app_inj_tail.
      destruct (IH _ _ _ E) as (c1 & c2 & -> & Hx & Hl).
      exists c1, (c2 ++ [z]). by rewrite <- app_assoc.
Qed.

Lemma score_colors_bound (Cl : list label) :
  score_colors label_le Cl
  = match Cl with [] => None | _ => Some (seq 0 (length (np_unique label_le Cl))) end.
Proof.
  unfold score_colors. generalize (seq 0 (length (np_unique label_le Cl))). intros c.
  destruct Cl as [|x Cl] using rev_ind; [done|].
  rewrite foldl_app. cbn. by destruct Cl.
Qed.

Lemma zip_seq_imap (l : list label) n :
  zip (seq n (length l)) l = imap (λ i x, ((n + i)%nat, x)) l.
Proof.
  revert n. induction l as [|y l IH]; intros n; [done|].
  cbn. rewrite Nat.add_0_r. f_equal. rewrite (IH (S n)).
  apply imap_ext. intros i z _. cbn. f_equal. lia.
Qed.

(** The labels of the score plots are the distinct labels of [Cl], each
    once, in the order in which they first occur: the labels listed
    before [x] are exactly those that occur in [Cl] before the first
    [x].  There are as many as [np.unique(Cl)] has entries, so that the
    [zip] of line 93, which runs over [range(ind.shape[0])], drops none:
    over a [Cl] that is not empty the groups plotted are these labels,
    numbered from 0 in that order.  Over an empty [Cl] the second loop
    never assigns [colors], and line 93 raises UnboundLocalError. *)
Theorem score_labels_distinct (Cl : list label) :
  NoDup (score_labels Cl) ∧
  (∀ x, x ∈ score_labels Cl ↔ x ∈ Cl) ∧
  (∀ l1 x l2, score_labels Cl = l1 ++ x :: l2 →
     ∃ c1 c2, Cl = c1 ++ x :: c2 ∧ (x ∉ c1) ∧ (∀ y, y ∈ l1 ↔ y ∈ c1)) ∧
  length (score_labels Cl) = length (np_unique label_le Cl) ∧
  score_groups label_le Cl
  = match Cl with
    | [] => inl (UnboundLocalError "colors")
    | _ => inr (imap (λ i x, (i, x)) (score_labels Cl))
    end.
Proof.
  destruct (collect_labels_spec Cl []) as (N & _); [apply NoDup_nil_2|].
  split_and!.
  - exact N.
  - apply score_labels_elem.
  - apply score_labels_first.
  - exact (score_labels_length Cl).
  - unfold score_groups. rewrite score_colors_bound.
    destruct Cl as [|x Cl]; [done|]. f_equal.
    rewrite <- score_labels_length. generalize (score_labels (x :: Cl)). intros l.
    rewrite (zip_seq_imap l 0), snd_zip.
    + done.
    + rewrite length_seq, length_imap. lia.
Qed.

(** The index computed for each sample is always found (line 89 raises no
    IndexError), it is the position of the sample's label among the
    labels of the score plots, and it is below the number of groups: every
    sample is in exactly one of the groups that are plotted. *)
Theorem score_index_total (Cl : list label) :
  ∃ Cl_ind,
    score_index Cl = Some Cl_ind ∧ length Cl_ind = length Cl ∧
    ∀ i x, Cl !! i = Some x →
      ∃ k, Cl_ind !! i = Some k ∧ score_labels Cl !! k = Some x ∧
           (k < length (np_unique label_le Cl))%nat ∧
           ∀ j, group_mask Cl_ind j !! i = Some (bool_decide (k = j)).
Proof.
  pose proof (score_labels_elem Cl) as El.
  pose proof (score_labels_length Cl) as L.
  assert (Hall : ∀ x, x ∈ Cl → ∃ k, np_where_eq (score_labels Cl) x 0 !! 0%nat = Some k ∧
                                    score_labels Cl !! k = Some x).
  { intros x Hx. apply El in Hx. destruct (first_index _ _ Hx) as (k & Hk & Hfirst).
    exists k. split; [|done]. by rewrite (np_where_eq_first _ _ 0 k Hk Hfirst). }
  unfold score_index.
  destruct (mapM (λ x, np_where_eq (score_labels Cl) x 0 !! 0%nat) Cl) as [ind|] eqn:E.
  2:{ exfalso. apply mapM_None in E. apply Exists_exists in E as (x & Hx & Hn).
      destruct (Hall x Hx) as (k & Hk & _). congruence. }
  exists ind. split; [done|]. apply mapM_Some in E.
  split; [symmetry; by eapply Forall2_length|].
  intros i x Hi.
  destruct (Forall2_lookup_l _ _ _ _ _ E Hi) as (k & Hk & Hw).
  exists k. destruct (Hall x) as (k' & Hk' & Hl); [by eapply list_elem_of_lookup_2|].
  assert (k' = k) as -> by congruence.
  split_and!; try done.
  - rewrite <- L. by eapply lookup_lt_Some.
  - intros j. unfold group_mask. by rewrite list_lookup_fmap, Hk.
Qed.

(** Without a custom count, the number of components [runPCA] asks for
    is at most the number of samples, and at least one unless there is
    no sample at all. *)
Theorem numPCAcomp_bounds (c : Config) (Cl : list label) n :
  pca_customNumPCAComp (pcaDef c) = false →
  (0 ≤ numPCAcomp label_le c Cl n ≤ Z.of_nat (length Cl))%Z ∧
  (Cl ≠ [] → (1 ≤ numPCAcomp label_le c Cl n)%Z).
Proof.
  intros Hc. unfold numPCAcomp. rewrite Hc. cbn [negb].
  pose proof (np_unique_distinct label_le Cl) as Hu. rewrite Hu.
  assert (Hle : (length (remove_dups Cl) ≤ length Cl)%nat).
  { apply submseteq_length, NoDup_submseteq; [apply NoDup_remove_dups|].
    intros x. by rewrite elem_of_remove_dups. }
  split; [lia|].
  intros Hne. destruct Cl as [|x Cl]; [done|].
  assert (x ∈ remove_dups (x :: Cl)) as Hin by (apply elem_of_remove_dups; by left).
  destruct (remove_dups (x :: Cl)); [by apply elem_of_nil in Hin|]. cbn. lia.
Qed.

End ScorePlotProofs.

(** * The claims at concrete inputs *)

(** With every family enabled the row has the name and twelve fields, in
    the order of [batch_order]. *)
Lemma C1_witness :
  ∃ row,
    st_files (demo_file [] (demo_state all_cfg batch_globals [])).2
      = <["sum.csv" := [row]]> ∅ ∧
    row_layout (demo_world []) all_cfg batch_globals "a.txt" row ∧
    length row = 13%nat.
Proof.
  apply (C1_summary_row_layout (demo_world []) "a.txt" 1 [1; 2] 2 3 4 "sum.csv" "learn.txt"
           (demo_state all_cfg batch_globals [])).
  vm_compute. reflexivity.
Defined.

(** C1 as stated fails.  With K-Means alone enabled the row is the file
    name and one field, fewer than the two or three per family the claim
    counts; with Keras and NN enabled, the Keras pair (5, 95) comes before
    the NN pair (1, 91), while the claim lists generic-NN before Keras. *)
Lemma C1_counterexample :
  (demo_file [] (demo_state km_cfg no_globals [])).1 = inr () ∧
  st_files (demo_file [] (demo_state km_cfg no_globals [])).2 !! "sum.csv"
    = Some [[CStr "a.txt"; CObj 6]] ∧
  n_enabled km_cfg = 1%nat ∧
  ¬ claimed_row_width km_cfg [CStr "a.txt"; CObj 6] ∧
  st_files (demo_file [] (demo_state keras_nn_cfg batch_globals [])).2 !! "sum.csv"
    = Some [[CStr "a.txt"; CObj 5; CObj 95; CObj 1; CObj 91]].
Proof.
  split_and!; try (vm_compute; reflexivity).
  unfold claimed_row_width. vm_compute. lia.
Defined.

(** [predSVM] raises after DNN-TF, Keras and NN have predicted: nothing
    is written. *)
Lemma C6_witness :
  (demo_file ["predSVM"] (demo_state all_cfg batch_globals [])).1 = inl (Raised "predSVM") ∧
  st_files (demo_file ["predSVM"] (demo_state all_cfg batch_globals [])).2 = ∅.
Proof.
  split; [vm_compute; reflexivity|].
  apply (C6_failed_file_leaves_no_row (demo_world ["predSVM"]) "a.txt" 1 [1; 2] 2 3 4
           "sum.csv" "learn.txt" (demo_state all_cfg batch_globals []) (Raised "predSVM")).
  vm_compute. reflexivity.
Defined.

(** Two labels out of four are repeated: three components. *)
Lemma C3_witness :
  numPCAcomp Z.le (demo_cfg true false false false false false false false) [3; 1; 3; 2] 7 = 3 ∧
  calls_of "PCA"
    (st_trace (runPCA Z.le (demo_world []) 20 [3; 1; 3; 2] 10 30 7
                 (demo_state (demo_cfg true false false false false false false false)
                    no_globals [])).2)
  = [[AInt 3; AObj 10]].
Proof.
  exact (C3_pca_component_count Z.le (demo_world []) 20 [3; 1; 3; 2] 10 30 7
           (demo_state (demo_cfg true false false false false false false false)
              no_globals [])).
Defined.


(** The sequential run leaves the header row first, then the rows of
    [b.txt] and [a.txt]. *)
Lemma C7_witness :
  ∃ rows,
    st_files (LearnPredictBatch (demo_world []) "learn.txt" (demo_batch_state false)).2
      !! "summary_2017-01-01_00-00-00.csv"
    = Some ([] ++ header_row "learn.txt" :: rows) ∧
    Forall (data_row "learn.txt" demo_cwd) rows ∧
    header_row "learn.txt" ∉ rows.
Proof.
  apply (C7_header_precedes_data_rows (demo_world []) "learn.txt" (demo_batch_state false)).
  vm_compute. reflexivity.
Defined.


(** A map of two pixels with NN, raw TensorFlow and K-Means enabled: NN is
    trained once before the loop, raw TensorFlow and K-Means are fitted
    once per pixel. *)
Lemma C5_witness :
  trainings (st_trace (LearnPredictMap (demo_world []) "learn.txt" "map.txt"
               (demo_state (demo_cfg false false false true false true true false)
                  no_globals [])).2)
  = [Call "trainNN" [AObj 10; ACl [3; 1; 3; 2]; AObj 10; ACl [3; 1; 3; 2]; AStr "learn.txt"];
     Call "trainTF" [AObj 10; ACl [3; 1; 3; 2]; AObj 10; ACl [3; 1; 3; 2]; AStr "learn.txt"];
     Call "runKMmain" [AObj 10; ACl [3; 1; 3; 2]; AObj 20; AObj 50; AObj 30; AObj 51];
     Call "trainTF" [AObj 10; ACl [3; 1; 3; 2]; AObj 10; ACl [3; 1; 3; 2]; AStr "learn.txt"];
     Call "runKMmain" [AObj 10; ACl [3; 1; 3; 2]; AObj 20; AObj 50; AObj 30; AObj 51]].
Proof.
  destruct (C5_map_training_schedule (demo_world []) "learn.txt" "map.txt"
              (demo_state (demo_cfg false false false true false true true false)
                 no_globals [])
              (inr ())
              (LearnPredictMap (demo_world []) "learn.txt" "map.txt"
                 (demo_state (demo_cfg false false false true false true true false)
                    no_globals [])).2)
    as [(err & _ & E)|(e & v & s1 & r & s2 & _)]; [vm_compute; reflexivity|discriminate E|].
  vm_compute. reflexivity.
Defined.

(** C5 as stated fails for K-Means.  With K-Means alone enabled no fitting
    call at all precedes the loop, and [runKMmain] is called for each of
    the two pixels although the family is not raw TensorFlow. *)
Lemma C5_counterexample :
  enabled km_cfg KM = true ∧ enabled km_cfg TF = false ∧
  (LearnPredictMap (demo_world []) "learn.txt" "map.txt"
     (demo_state km_cfg no_globals [])).1 = inr () ∧
  trainings (st_trace (map_setup (demo_world []) "learn.txt" "map.txt"
                         (demo_state km_cfg no_globals [])).2) = [] ∧
  calls "runKMmain"
    (st_trace (LearnPredictMap (demo_world []) "learn.txt" "map.txt"
                 (demo_state km_cfg no_globals [])).2) = 2%nat.
Proof. split_and!; vm_compute; reflexivity. Defined.

(** The demo world satisfies the two assumptions of C8, and there the run
    with the diagnostic on ends as the run with it off. *)
Lemma C8_witness :
  ignores_pca_switch (demo_world []) ∧ pca_stateless (demo_world []) ∧
  ((LearnPredictFile Z.le (demo_world []) "learn.txt" "s.txt"
      (upd_cfg (set_pca_runPCA true) (demo_state nn_svm_cfg no_globals []))).1
   = (LearnPredictFile Z.le (demo_world []) "learn.txt" "s.txt"
        (upd_cfg (set_pca_runPCA false) (demo_state nn_svm_cfg no_globals []))).1) ∧
  (model_calls (st_trace (LearnPredictFile Z.le (demo_world []) "learn.txt" "s.txt"
      (upd_cfg (set_pca_runPCA true) (demo_state nn_svm_cfg no_globals []))).2)
   = model_calls (st_trace (LearnPredictFile Z.le (demo_world []) "learn.txt" "s.txt"
      (upd_cfg (set_pca_runPCA false) (demo_state nn_svm_cfg no_globals []))).2)).
Proof.
  assert (Hi : ignores_pca_switch (demo_world [])) by (by repeat split).
  assert (Hs : pca_stateless (demo_world [])) by (by repeat split).
  destruct (C8_pca_feeds_nothing_downstream Z.le (demo_world []) Hi "learn.txt" "s.txt"
              (demo_state nn_svm_cfg no_globals []) Hs) as [(E1 & E2 & _)|(err & E & _)].
  - split_and!; [exact Hi|exact Hs|exact E1|exact E2].
  - vm_compute in E. discriminate.
Defined.

(** C2 fails on the code.  NN and SVM enabled on a map of two pixels: the
    sink gets one NN entry (label 1) and one SVM entry (label 2) per
    pixel, but the one array behind [nnPred] and [svmPred] ends as
    [2; 2], and that is what [plotMaps] receives as the NN map.  Keras
    enabled: the loop tests [dnntfDef.runKeras], which is off, and no
    Keras entry is produced for any pixel; if the attribute does not
    exist the first pixel raises. *)
Theorem C2_map_entries_lost :
  (LearnPredictMap (demo_world []) "learn.txt" "map.txt"
     (demo_state nn_svm_cfg no_globals [])).1 = inr () ∧
  calls_of "saveMap"
    (st_trace (LearnPredictMap (demo_world []) "learn.txt" "map.txt"
                 (demo_state nn_svm_cfg no_globals [])).2)
  = [[AStr "map.txt"; AStr "NN"; AStr "HC"; AObj 1; AObj 100; AObj 200; ABool true];
     [AStr "map.txt"; AStr "svm"; AStr "HC"; AObj 2; AObj 100; AObj 200; ABool true];
     [AStr "map.txt"; AStr "NN"; AStr "HC"; AObj 1; AObj 101; AObj 201; ABool true];
     [AStr "map.txt"; AStr "svm"; AStr "HC"; AObj 2; AObj 101; AObj 201; ABool true]] ∧
  st_heap (LearnPredictMap (demo_world []) "learn.txt" "map.txt"
             (demo_state nn_svm_cfg no_globals [])).2 = [[2; 2]] ∧
  calls_of "plotMaps"
    (st_trace (LearnPredictMap (demo_world []) "learn.txt" "map.txt"
                 (demo_state nn_svm_cfg no_globals [])).2)
  = [[AList [100; 101]; AList [200; 201]; AList [2; 2];
      AStr "Deep Neural networks - sklearn"];
     [AList [100; 101]; AList [200; 201]; AList [2; 2]; AStr "SVM"]] ∧
  (LearnPredictMap (demo_world []) "learn.txt" "map.txt"
     (demo_state keras_cfg no_globals [])).1 = inr () ∧
  calls_of "saveMap"
    (st_trace (LearnPredictMap (demo_world []) "learn.txt" "map.txt"
                 (demo_state keras_cfg no_globals [])).2) = [] ∧
  (LearnPredictMap (demo_world []) "learn.txt" "map.txt"
     (demo_state (mkConfig (pcaDef keras_cfg)
                    (mkDnntfDef false false true true true None)
                    (nnDef keras_cfg) (svmDef keras_cfg) (tfDef keras_cfg)
                    (kerasDef keras_cfg) (kmDef keras_cfg) (plotDef keras_cfg)
                    (sysDef keras_cfg))
        no_globals [])).1 = inl (AttributeError "dnntfDef" "runKeras").
Proof. split_and!; vm_compute; reflexivity. Qed.

(** C9 fails on the code, for raw TensorFlow.  Raw TensorFlow and
    K-Means enabled on a map of two pixels, [predTF] returning the array
    33 of predictions (label 3 at every index): line 245 binds [tfPred]
    to the shared array, but line 297 rebinds the name to what [predTF]
    returned, so after the loop [tfPred] is the object 33.  The raw
    TensorFlow predictions reach the map output and are never stored:
    the one array holds the K-Means labels 6, and the K-Means store at
    index 0 leaves what is retained for raw TensorFlow at index 0, the
    label 3, as it is.  [plotMaps] gets the object 33 as the raw
    TensorFlow map, and the array for K-Means.  With raw TensorFlow alone
    the array is never written: it ends as [np.empty] left it. *)
Theorem C9_tf_predictions_never_stored :
  tf_km_run.1 = inr () ∧
  (∃ e v s1 v' s2,
     map_setup tf_array_world "learn.txt" "map.txt" (demo_state tf_km_cfg no_globals [])
       = (inr (e, v), s1) ∧
     v_tfPred v = Ref (m_kmPred e) ∧
     map_loop tf_array_world e v (m_R e) s1 = (inr v', s2) ∧
     v_tfPred v' = Val 33 ∧
     (getitem tf_array_world (Ref (m_kmPred e)) 0 s2).1 = inr 6 ∧
     (getitem tf_array_world (v_tfPred v') 0 s2).1 = inr 3) ∧
  calls_of "saveMap" (st_trace tf_km_run.2)
  = [[AStr "map.txt"; AStr "TF"; AStr "HC"; AObj 3; AObj 100; AObj 200; ABool true];
     [AStr "map.txt"; AStr "KM"; AStr "HC"; AObj 6; AObj 100; AObj 200; ABool true];
     [AStr "map.txt"; AStr "TF"; AStr "HC"; AObj 3; AObj 101; AObj 201; ABool true];
     [AStr "map.txt"; AStr "KM"; AStr "HC"; AObj 6; AObj 101; AObj 201; ABool true]] ∧
  st_heap tf_km_run.2 = [[6; 6]] ∧
  calls_of "plotMaps" (st_trace tf_km_run.2)
  = [[AList [100; 101]; AList [200; 201]; AObj 33; AStr "TensorFlow"];
     [AList [100; 101]; AList [200; 201]; AList [6; 6]; AStr "K-Means Prediction"]] ∧
  tf_run.1 = inr () ∧
  st_heap tf_run.2 = [[-1; -1]] ∧
  calls_of "plotMaps" (st_trace tf_run.2)
  = [[AList [100; 101]; AList [200; 201]; AObj 33; AStr "TensorFlow"]].
Proof.
  split_and!; try (vm_compute; reflexivity).
  eexists _, _, _, _, _. split; [vm_compute; reflexivity|].
  split; [vm_compute; reflexivity|].
  split; [vm_compute; reflexivity|].
  split_and!; vm_compute; reflexivity.
Qed.

(** * The further properties at concrete inputs *)

(** NN and SVM enabled: NN is trained and asked, then SVM. *)
Lemma LearnPredictFile_calls_witness :
  calls_in adapters (st_trace (demo_single [] (demo_state nn_svm_cfg no_globals [])).2)
  = [Call "trainNN" [AObj 10; ACl [3; 1; 3; 2]; AObj 10; ACl [3; 1; 3; 2]; AStr "learn.txt"];
     Call "predNN" [AObj 50; AObj 10; ACl [3; 1; 3; 2]; AObj 50; AObj 51];
     Call "trainSVM" [AObj 10; ACl [3; 1; 3; 2]; AObj 10; ACl [3; 1; 3; 2]; AStr "learn.txt"];
     Call "predSVM" [AObj 50; AObj 10; ACl [3; 1; 3; 2]; AObj 50; AObj 51]].
Proof.
  destruct (LearnPredictFile_calls Z.le (demo_world []) "learn.txt" "s.txt"
              (demo_state nn_svm_cfg no_globals [])
              (demo_single [] (demo_state nn_svm_cfg no_globals [])).2)
    as (En & Cl & A & Aorig & R & Rorig & blk & _); [vm_compute; reflexivity|].
  vm_compute. reflexivity.
Defined.

Lemma LearnPredictFile_loading_witness :
  calls_in loaders (st_trace (demo_single [] (demo_state nn_svm_cfg no_globals [])).2)
  = [Call "readLearnFile" [AStr "learn.txt"]; Call "readPredFile" [AStr "s.txt"];
     Call "preProcessNormLearningData" [AObj 20; AObj 10; ACl [3; 1; 3; 2]; AObj 30; AInt 0];
     Call "preProcessNormPredData" [AObj 50; AObj 51; AObj 20; AObj 30; AInt 0]].
Proof.
  destruct (LearnPredictFile_loading Z.le (demo_world []) "learn.txt" "s.txt"
              (demo_state nn_svm_cfg no_globals [])
              (demo_single [] (demo_state nn_svm_cfg no_globals [])).2)
    as (En0 & Cl0 & A0 & Y & R0 & Rx & _); [vm_compute; reflexivity|].
  vm_compute. reflexivity.
Defined.

(** [predSVM] raises: it is the last collaborator called, and Keras and
    K-Means, which come after SVM, are not run. *)
Lemma LearnPredictFile_failure_witness :
  "predSVM" ∈ file_collaborators ∧
  ∃ tr args,
    st_trace (demo_single ["predSVM"] (demo_state all_cfg no_globals [])).2
    = tr ++ [Call "predSVM" args].
Proof.
  apply (LearnPredictFile_failure Z.le (demo_world ["predSVM"]) "learn.txt" "s.txt"
           (demo_state all_cfg no_globals []) (Raised "predSVM")).
  - vm_compute. reflexivity.
  - vm_compute. reflexivity.
Defined.

(** With the subset taken from the training file, NN and SVM enabled and
    the plots on. *)
Lemma trainAccuracy_stages_witness :
  calls_in accuracy_stages
    (st_trace (demo_accuracy [] true (demo_state (with_plots nn_svm_cfg) no_globals [])).2)
  = [Call "plotTrainData" [AObj 11; AObj 10; AObj 12; ABool false; AStr "learn.txt_raw"];
     Call "preProcessNormLearningData" [AObj 11; AObj 10; ACl [3; 1]; AObj 30; AInt 0];
     Call "preProcessNormLearningData" [AObj 12; AObj 10; ACl [3; 2]; AObj 30; AInt 0];
     Call "trainNN" [AObj 10; ACl [3; 1; 3; 2]; AObj 10; ACl [3; 1; 3; 2]; AStr "learn.txt"];
     Call "trainSVM" [AObj 10; ACl [3; 1; 3; 2]; AObj 10; ACl [3; 1; 3; 2]; AStr "learn.txt"];
     Call "plotTrainData" [AObj 10; AObj 20; AObj 10; ABool false; AStr "learn.txt_norm"]].
Proof.
  destruct (trainAccuracy_stages (demo_world []) (demo_train []) (demo_preproc true)
              "learn.txt" "test.txt" (demo_state (with_plots nn_svm_cfg) no_globals [])
              (demo_accuracy [] true (demo_state (with_plots nn_svm_cfg) no_globals [])).2)
    as (En0 & Y & _); [vm_compute; reflexivity|].
  vm_compute. reflexivity.
Defined.

(** With the subset taken from the training file the test file is not
    read; with a test file given, [formatSubset] is not called. *)
Lemma trainAccuracy_test_set_witness :
  calls_in ["readLearnFile"]
    (st_trace (demo_accuracy [] true (demo_state nn_svm_cfg no_globals [])).2)
  = [Call "readLearnFile" [AStr "learn.txt"]] ∧
  calls_in ["formatSubset"]
    (st_trace (demo_accuracy [] false (demo_state nn_svm_cfg no_globals [])).2) = [].
Proof.
  split.
  - apply (trainAccuracy_test_set (demo_world []) (demo_train []) (demo_preproc true)
             "learn.txt" "test.txt" (demo_state nn_svm_cfg no_globals [])).
    reflexivity.
  - apply (trainAccuracy_test_set (demo_world []) (demo_train []) (demo_preproc false)
             "learn.txt" "test.txt" (demo_state nn_svm_cfg no_globals [])).
    reflexivity.
Defined.

Lemma trainAccuracy_failure_witness :
  ∃ fn tr args,
    Raised "trainSVM" = Raised fn ∧
    st_trace (demo_accuracy ["trainSVM"] false (demo_state all_cfg no_globals [])).2
    = tr ++ [Call fn args].
Proof.
  apply (trainAccuracy_failure (demo_world ["trainSVM"]) (demo_train ["trainSVM"])
           (demo_preproc false) "learn.txt" "test.txt" (demo_state all_cfg no_globals [])).
  vm_compute. reflexivity.
Defined.

(** Keras and NN enabled: the Keras predictor gets the module-level
    [model_keras] (7), not the model that [trainKeras] returned (50). *)
Lemma processSingleBatch_calls_witness :
  calls_in adapters (st_trace (demo_file [] (demo_state keras_nn_cfg batch_globals [])).2)
  = [Call "trainKeras" [AObj 1; AObj 2; ACl [1; 2]; AObj 2; ACl [1; 2]; AStr "learn.txt"];
     Call "predKeras" [AObj 7; AObj 51; AObj 50; ACl [1; 2]];
     Call "trainNN" [AObj 2; ACl [1; 2]; AObj 2; ACl [1; 2]; AStr "learn.txt"];
     Call "predNN" [AObj 50; AObj 2; ACl [1; 2]; AObj 50; AObj 51]].
Proof.
  destruct (processSingleBatch_calls (demo_world []) "a.txt" 1 [1; 2] 2 3 4 "sum.csv"
              "learn.txt" (demo_state keras_nn_cfg batch_globals [])
              (demo_file [] (demo_state keras_nn_cfg batch_globals [])).2)
    as (R & Rorig & blk & _); [vm_compute; reflexivity|].
  vm_compute. reflexivity.
Defined.

(** Keras enabled and [model_keras] not bound: no row. *)
Lemma processSingleBatch_unbound_names_witness :
  ∃ e, (demo_file [] (demo_state keras_cfg no_globals [])).1 = inl e ∧
       st_files (demo_file [] (demo_state keras_cfg no_globals [])).2 = ∅.
Proof.
  apply (processSingleBatch_unbound_names (demo_world []) "a.txt" 1 [1; 2] 2 3 4 "sum.csv"
           "learn.txt" (demo_state keras_cfg no_globals [])).
  left. split; reflexivity.
Defined.

Lemma processSingleBatch_failure_witness :
  "model_keras" = "model_keras" ∨ "model_keras" = "tfAccur".
Proof.
  apply (processSingleBatch_failure (demo_world []) "a.txt" 1 [1; 2] 2 3 4 "sum.csv"
           "learn.txt" (demo_state keras_cfg no_globals []) (NameError "model_keras")
           (demo_file [] (demo_state keras_cfg no_globals [])).2).
  vm_compute. reflexivity.
Defined.

(** Two files, NN and K-Means enabled: the training file is read and
    preprocessed once, NN is trained twice. *)
Lemma LearnPredictBatch_retrains_witness :
  calls_in batch_stages
    (st_trace (LearnPredictBatch (demo_world []) "learn.txt" (demo_batch_state false)).2)
  = [Call "readLearnFile" [AStr "learn.txt"];
     Call "preProcessNormLearningData" [AObj 20; AObj 10; ACl [3; 1; 3; 2]; AObj 30; AInt 0];
     Call "trainNN" [AObj 10; ACl [3; 1; 3; 2]; AObj 10; ACl [3; 1; 3; 2]; AStr "learn.txt"];
     Call "trainNN" [AObj 10; ACl [3; 1; 3; 2]; AObj 10; ACl [3; 1; 3; 2]; AStr "learn.txt"]].
Proof.
  destruct (LearnPredictBatch_retrains (demo_world []) "learn.txt" (demo_batch_state false)
              (LearnPredictBatch (demo_world []) "learn.txt" (demo_batch_state false)).2)
    as (En0 & Cl0 & _); [reflexivity|vm_compute; reflexivity|].
  vm_compute. reflexivity.
Defined.

(** The rows are those of [b.txt] and [a.txt], in listing order; when
    [runKMmain] raises there is no row, for the first file failed. *)
Lemma LearnPredictBatch_rows_witness :
  (∃ rows,
     st_files (LearnPredictBatch (demo_world []) "learn.txt" (demo_batch_state false)).2
       !! "summary_2017-01-01_00-00-00.csv" = Some ([CStr "learn.txt"] :: rows) ∧
     row_name <$> rows = [Some "b.txt"; Some "a.txt"]) ∧
  (∃ rows,
     st_files (LearnPredictBatch (demo_world ["runKMmain"]) "learn.txt"
                 (demo_batch_state false)).2
       !! "summary_2017-01-01_00-00-00.csv" = Some ([CStr "learn.txt"] :: rows) ∧
     row_name <$> rows = []).
Proof.
  split.
  - destruct (LearnPredictBatch_rows (demo_world []) "learn.txt" (demo_batch_state false)
                (inr ()) (LearnPredictBatch (demo_world []) "learn.txt"
                            (demo_batch_state false)).2)
      as (rows & Hf & Hn); [reflexivity|vm_compute; reflexivity|].
    exists rows. split; [|exact Hn]. rewrite Hf. vm_compute. reflexivity.
  - destruct (LearnPredictBatch_rows (demo_world ["runKMmain"]) "learn.txt"
                (demo_batch_state false) (inl (Raised "runKMmain"))
                (LearnPredictBatch (demo_world ["runKMmain"]) "learn.txt"
                   (demo_batch_state false)).2)
      as (rows & Hf & Hn); [reflexivity|vm_compute; reflexivity|].
    exists rows. split; [|exact Hn]. rewrite Hf. vm_compute. reflexivity.
Defined.

Lemma LearnPredictMap_entries_witness :
  calls_in ["saveMap"] (st_trace (demo_map (demo_state nn_svm_cfg no_globals [])).2)
  = [Call "saveMap" [AStr "map.txt"; AStr "NN"; AStr "HC"; AObj 1; AObj 100; AObj 200;
                     ABool true];
     Call "saveMap" [AStr "map.txt"; AStr "svm"; AStr "HC"; AObj 2; AObj 100; AObj 200;
                     ABool true];
     Call "saveMap" [AStr "map.txt"; AStr "NN"; AStr "HC"; AObj 1; AObj 101; AObj 201;
                     ABool true];
     Call "saveMap" [AStr "map.txt"; AStr "svm"; AStr "HC"; AObj 2; AObj 101; AObj 201;
                     ABool true]].
Proof.
  destruct (LearnPredictMap_entries (demo_world []) "learn.txt" "map.txt"
              (demo_state nn_svm_cfg no_globals [])
              (demo_map (demo_state nn_svm_cfg no_globals [])).2)
    as (e & pxs & _); [vm_compute; reflexivity|].
  vm_compute. reflexivity.
Defined.

Lemma LearnPredictMap_preprocessing_witness :
  calls_in ["preProcessNormPredData"]
    (st_trace (demo_map (demo_state nn_svm_cfg no_globals [])).2)
  = [Call "preProcessNormPredData" [AObj 300; AObj 40; AObj 20; AObj 30; AInt 0];
     Call "preProcessNormPredData" [AObj 301; AObj 40; AObj 20; AObj 30; AInt 1]].
Proof.
  destruct (LearnPredictMap_preprocessing (demo_world []) "learn.txt" "map.txt"
              (demo_state nn_svm_cfg no_globals [])
              (demo_map (demo_state nn_svm_cfg no_globals [])).2)
    as (X & Y & _); [vm_compute; reflexivity|].
  vm_compute. reflexivity.
Defined.

Lemma LearnPredictMap_bounds_witness :
  ∃ X Y R Rx : _,
    answers_map (demo_world []) [AStr "map.txt"] (X, Y, R, Rx) ∧
    (length R ≤ length X)%nat ∧ (length R ≤ length Y)%nat.
Proof.
  apply (LearnPredictMap_bounds (demo_world []) "learn.txt" "map.txt"
           (demo_state nn_svm_cfg no_globals [])
           (demo_map (demo_state nn_svm_cfg no_globals [])).2 NN).
  - reflexivity.
  - vm_compute. reflexivity.
Defined.

Lemma LearnPredictMap_names_witness :
  (demo_map demo_dnntf_state).1 = inr () ∧
  is_Some (g_cl_dnntf (st_globals demo_dnntf_state)).
Proof.
  destruct (LearnPredictMap_names (demo_world []) "learn.txt" "map.txt" demo_dnntf_state
              (demo_map demo_dnntf_state).2)
    as (X & Y & R & Rx & Hmap & N); [vm_compute; reflexivity|].
  split; [vm_compute; reflexivity|]. by eexists.
Defined.

(** NN and SVM enabled on a map of two pixels: both [alwaysRetrain] flags
    are off after the run, and nothing else of the configuration changed. *)
Lemma LearnPredictMap_flags_witness :
  st_cfg (demo_map (demo_state nn_svm_cfg no_globals [])).2
  = set_svm_alwaysRetrain false (set_nn_alwaysRetrain false nn_svm_cfg).
Proof.
  destruct (LearnPredictMap_flags (demo_world []) "learn.txt" "map.txt"
              (demo_state nn_svm_cfg no_globals [])) as (_ & C).
  destruct C as (X & Y & R & Rx & _ & _ & _); [vm_compute; reflexivity|].
  vm_compute. reflexivity.
Defined.

(** NN and SVM enabled on a map of two pixels: the array holds the two
    SVM values; the NN values are in the map output only. *)
Lemma LearnPredictMap_array_witness :
  st_heap (demo_map (demo_state nn_svm_cfg no_globals [])).2 = [[2; 2]] ∧
  last_writer nn_svm_cfg = Some SVM.
Proof.
  destruct (LearnPredictMap_array (demo_world []) "learn.txt" "map.txt"
              (demo_state nn_svm_cfg no_globals [])
              (demo_map (demo_state nn_svm_cfg no_globals [])).2)
    as (e & pxs & arr & _); [reflexivity|reflexivity|vm_compute; reflexivity|].
  split; vm_compute; reflexivity.
Defined.

Lemma LearnPredictMap_plots_witness :
  calls_in ["plotMaps"] (st_trace (demo_map (demo_state nn_svm_cfg no_globals [])).2)
  = [Call "plotMaps" [AList [100; 101]; AList [200; 201]; AList [2; 2];
                      AStr "Deep Neural networks - sklearn"];
     Call "plotMaps" [AList [100; 101]; AList [200; 201]; AList [2; 2]; AStr "SVM"]].
Proof.
  destruct (LearnPredictMap_plots (demo_world []) "learn.txt" "map.txt"
              (demo_state nn_svm_cfg no_globals [])
              (demo_map (demo_state nn_svm_cfg no_globals [])).2)
    as (e & arr & tfPred & _); [reflexivity|reflexivity|vm_compute; reflexivity|].
  vm_compute. reflexivity.
Defined.

(** Labels 3, 1, 3, 2: three groups, in the order 3, 1, 2; before the
    label 2 come the labels met before the first 2. *)
Lemma score_labels_distinct_witness :
  score_groups Z.le [3; 1; 3; 2] = inr [(0%nat, 3); (1%nat, 1); (2%nat, 2)] ∧
  NoDup (score_labels [3; 1; 3; 2]) ∧
  (∃ c1 c2, [3; 1; 3; 2] = c1 ++ 2 :: c2 ∧ (2 ∉ c1) ∧ (∀ y, y ∈ [3; 1] ↔ y ∈ c1)).
Proof.
  destruct (score_labels_distinct Z.le [3; 1; 3; 2]) as (N & _ & F & _ & G).
  split_and!; [rewrite G; reflexivity|exact N|].
  apply (F [3; 1] 2 []). reflexivity.
Defined.

Lemma score_index_total_witness :
  score_index [3; 1; 3; 2] = Some [0; 1; 0; 2]%nat.
Proof.
  destruct (score_index_total Z.le [3; 1; 3; 2]) as (ind & E & _).
  rewrite E. vm_compute in E. symmetry. exact E.
Defined.

Lemma numPCAcomp_bounds_witness :
  (0 ≤ numPCAcomp Z.le all_cfg [3; 1; 3; 2] 7 ≤ 4)%Z ∧
  (1 ≤ numPCAcomp Z.le all_cfg [3; 1; 3; 2] 7)%Z.
Proof.
  destruct (numPCAcomp_bounds Z.le all_cfg [3; 1; 3; 2] 7) as [H1 H2]; [reflexivity|].
  split; [exact H1|]. by apply H2.
Defined.

Lemma demo_pool_run :
  batch_files (demo_world []) "learn.txt" (demo_batch_state true) demo_pool_files.
Proof.
  unfold batch_files.
  replace (LearnPredictBatch (demo_world []) "learn.txt" (demo_batch_state true))
    with (@inr exn unit (),
          (LearnPredictBatch (demo_world []) "learn.txt" (demo_batch_state true)).2)
    by (vm_compute; reflexivity).
  cbv beta iota.
  replace (sys_multiProc (sysDef (st_cfg (demo_batch_state true)))) with true
    by (vm_compute; reflexivity).
  cbv beta iota. cbn [snd]. fold demo_pool_start.
  replace (st_pool (LearnPredictBatch (demo_world []) "learn.txt" (demo_batch_state true)).2)
    with ([demo_task "b.txt"] ++ demo_task "a.txt" :: []) by (vm_compute; reflexivity).
  refine (pool_join_step (demo_world []) [demo_task "b.txt"] (demo_task "a.txt") []
            demo_pool_start demo_pool_files demo_pool_files _ _).
  - exists (demo_worker (st_cfg (demo_batch_state true)) batch_globals demo_pool_start).
    split; vm_compute; reflexivity.
  - refine (pool_join_step (demo_world []) [] (demo_task "b.txt") []
              demo_pool_files demo_pool_files demo_pool_files _ _).
    + exists (demo_worker keras_cfg no_globals demo_pool_files).
      split; vm_compute; reflexivity.
    + exact (pool_join_done (demo_world []) demo_pool_files).
Defined.

Lemma LearnPredictBatch_pool_rows_witness :
  (row_name <$> default [] (demo_pool_files !! "summary_2017-01-01_00-00-00.csv")
   = [Some "learn.txt"; Some "a.txt"]) ∧
  ∃ rows,
    demo_pool_files
    = <["summary_2017-01-01_00-00-00.csv" := [header_row "learn.txt"] ++ rows]>
        (<["summary_2017-01-01_00-00-00.csv" := [header_row "learn.txt"]]> ∅) ∧
    row_name <$> rows ⊆+ [Some "b.txt"; Some "a.txt"].
Proof.
  split; [vm_compute; reflexivity|].
  apply (LearnPredictBatch_pool_rows (demo_world []) "learn.txt" (demo_batch_state true)
           demo_pool_files); [reflexivity|].
  exact demo_pool_run.
Defined.
